(** * Study sessions of the flashcard app: StudySession and StudyManager

    A shallow embedding of [study-manager.js] (classes [StudySession] and
    [StudyManager]), of the data models it handles ([Flashcard], [Deck]) and
    of the localStorage-backed [DataService] it reads decks and cards from.

    JavaScript objects are records, a method that mutates [this] returns the
    new object next to its result, [new Date()] is an explicit clock reading,
    and numbers are the type [Js.Number] below. *)

From Stdlib Require Import QArith Qcanon Qround Lqa SpecFloat.
From stdpp Require Import base numbers countable gmap sets list strings pretty.

Local Open Scope Z_scope.
Set Warnings "-clear-no-such-hyp".

(** ** JavaScript numbers

    Finite numbers are rationals; [NaN] and the two infinities are kept
    apart. On its cursor the session only compares, adds or subtracts one
    and uses the number as an array index and as a [Set] member. For an
    integer of magnitude below 2^53 the sum and the difference are exact in
    IEEE doubles, as they are here; so they are for a fraction such as 1.5,
    but not for every fraction (1.9999999999999998 + 1 is rounded to 3), and
    the theorems state the value of a moved cursor for integer cursors only.
    The quotients, products and differences that the progress and the
    summary compute are rounded as IEEE rounds them, by [binary64]. The two
    zeros of IEEE are identified: none of the operations used here tells
    them apart. *)
Module Js.

Inductive Number : Type :=
  | Fin (q : Qc)
  | NaN
  | PosInf
  | NegInf.

Definition ofZ (z : Z) : Number := Fin (Qc_of_Z z).
Definition ofNat (n : nat) : Number := ofZ (Z.of_nat n).
Global Arguments ofZ : simpl never.
Global Arguments ofNat : simpl never.

(** [a < b] *)
Definition lt (a b : Number) : bool :=
  match a, b with
  | NaN, _ | _, NaN => false
  | Fin x, Fin y => negb (Qle_bool y x)
  | Fin _, PosInf => true
  | Fin _, NegInf => false
  | PosInf, _ => false
  | NegInf, NegInf => false
  | NegInf, _ => true
  end.

(** [a > b] *)
Definition gt (a b : Number) : bool := lt b a.

(** [a >= b] *)
Definition ge (a b : Number) : bool :=
  match a, b with
  | NaN, _ | _, NaN => false
  | Fin x, Fin y => Qle_bool y x
  | Fin _, PosInf => false
  | Fin _, NegInf => true
  | PosInf, _ => true
  | NegInf, NegInf => true
  | NegInf, _ => false
  end.

(** [a + 1], the value [a++] stores *)
Definition succ (a : Number) : Number :=
  match a with
  | Fin x => Fin (x + Qc_of_Z 1)%Qc
  | other => other
  end.

(** [a - 1], the value [a--] stores *)
Definition pred (a : Number) : Number :=
  match a with
  | Fin x => Fin (x - Qc_of_Z 1)%Qc
  | other => other
  end.

Global Arguments lt : simpl never.
Global Arguments gt : simpl never.
Global Arguments ge : simpl never.
Global Arguments succ : simpl never.
Global Arguments pred : simpl never.

(** *** Rounding to binary64

    A double is a significand of at most 53 bits times a power of two, and
    the result of an arithmetic operation is the double nearest to the exact
    result, the one with an even significand when two are equally near. *)

(** [floor (log2 (a / b))], for positive [a] and [b]. *)
Definition log2_quotient (a b : Z) : Z :=
  let la := Z.log2 a in
  let lb := Z.log2 b in
  if b * 2 ^ la <=? a * 2 ^ lb then la - lb else la - lb - 1.

(** [a / b] rounded to the nearest integer, to the even one of two that are
    equally near; [b] is positive. *)
Definition nearest_even (a b : Z) : Z :=
  let q := a / b in
  let r := a mod b in
  if 2 * r <? b then q
  else if b <? 2 * r then q + 1
  else if Z.even q then q else q + 1.

(** The exponent of the last bit of the significand of [a / b]: 52 places
    below the leading bit, and not below -1074, where the subnormal numbers
    end. *)
Definition exponent (a b : Z) : Z := Z.max (log2_quotient a b - 52) (-1074).

(** The double nearest to [a / b], for positive [a] and [b]. *)
Definition round_positive (a b : Z) : Q :=
  let e := exponent a b in
  if 0 <=? e
  then inject_Z (nearest_even a (b * 2 ^ e) * 2 ^ e)
  else Qmake (nearest_even (a * 2 ^ (- e)) b) (Z.to_pos (2 ^ (- e))).

(** The double nearest to [x]. The result is finite: a magnitude of 2^1024,
    from which IEEE answers an infinity, is out of reach of a quotient of
    two counts, of a percentage and of a difference of two dates. *)
Definition binary64 (x : Qc) : Qc :=
  match Qnum x with
  | Z0 => x
  | Zpos a => Q2Qc (round_positive (Zpos a) (Zpos (Qden x)))
  | Zneg a => Q2Qc (- round_positive (Zpos a) (Zpos (Qden x)))
  end.

(** [x - y], [x * y] and [x / y] on finite numbers, [y] not zero in the
    quotient. *)
Definition sub (x y : Qc) : Qc := binary64 (x - y)%Qc.
Definition mul (x y : Qc) : Qc := binary64 (x * y)%Qc.
Definition div (x y : Qc) : Qc := binary64 (x / y)%Qc.

Global Arguments binary64 : simpl never.
Global Arguments sub : simpl never.
Global Arguments mul : simpl never.
Global Arguments div : simpl never.

(** [Math.round]: the nearest integer, halves rounded up. The result of
    [Math.round] on a double is an integer that is a double as well. *)
Definition Math_round (x : Qc) : Z := Qfloor (x + Q2Qc (1 # 2))%Qc.

(** The rational a floating-point number of the Standard Library stands
    for, and the integer [z] as such a number: the library's model of IEEE
    arithmetic, against which [binary64] is tested below. *)
Definition of_spec_float (f : spec_float) : Q :=
  match f with
  | S754_finite s m e =>
      let v := if 0 <=? e then inject_Z (Zpos m * 2 ^ e)
               else Qmake (Zpos m) (Z.to_pos (2 ^ (- e))) in
      if s then Qopp v else v
  | _ => 0%Q
  end.

Definition to_spec_float (z : Z) : spec_float :=
  binary_normalize 53 1024 z 0 false.

(** The integer a number is, when it is one. *)
Definition to_index (a : Number) : option nat :=
  match a with
  | Fin x =>
      if decide (Qden x = 1%positive ∧ 0 ≤ Qnum x)
      then Some (Z.to_nat (Qnum x)) else None
  | _ => None
  end.

(** The result of a property read or of a method that may answer [null]. *)
Inductive Ref (A : Type) : Type :=
  | Null
  | Undefined
  | Obj (a : A).
Arguments Null {A}.
Arguments Undefined {A}.
Arguments Obj {A} a.

(** [arr[i]]: the element at an integer index within bounds, [undefined]
    for every other key (arrays here carry no extra properties). *)
Definition array_get {A} (arr : list A) (i : Number) : Ref A :=
  match to_index i with
  | Some n => match arr !! n with Some a => Obj a | None => Undefined end
  | None => Undefined
  end.

(** Values a caller can pass where the code expects an id or an index. *)
Inductive Value : Type :=
  | VUndefined
  | VNull
  | VBool (b : bool)
  | VNumber (n : Number)
  | VString (s : string)
  | VObject.

Definition typeof (v : Value) : string :=
  match v with
  | VUndefined => "undefined"
  | VNull => "object"
  | VBool _ => "boolean"
  | VNumber _ => "number"
  | VString _ => "string"
  | VObject => "object"
  end.

(** [!v] *)
Definition not (v : Value) : bool :=
  match v with
  | VUndefined | VNull => true
  | VBool b => negb b
  | VNumber (Fin x) => Qeq_bool x 0
  | VNumber NaN => true
  | VNumber _ => false
  | VString s => bool_decide (s = "")
  | VObject => false
  end.

Global Instance Number_eq_dec : EqDecision Number.
Proof. solve_decision. Defined.

Global Instance Number_countable : Countable Number.
Proof.
  refine (inj_countable'
    (λ a, match a with
          | Fin q => inl q | NaN => inr 0%nat
          | PosInf => inr 1%nat | NegInf => inr 2%nat end)
    (λ e, match e with
          | inl q => Fin q | inr 0%nat => NaN
          | inr 1%nat => PosInf | inr _ => NegInf end) _).
  by intros [].
Defined.

End Js.

(** ** Data models (Flashcard and Deck) *)

(** Dates are milliseconds since the epoch: integers of magnitude at most
    8.64e15, which a double holds exactly. *)
Definition Date : Type := Z.

Module Flashcard.

Record t : Type := mk {
  id : string;
  question : string;
  answer : string;
  deckId : string;
  createdAt : Date;
  updatedAt : Date
}.

(** A flashcard object as [JSON.parse] hands it back: any field may be
    absent. *)
Record json : Type := mk_json {
  j_id : option string;
  j_question : option string;
  j_answer : option string;
  j_deckId : option string;
  j_createdAt : option Date;
  j_updatedAt : option Date
}.

(** [s || d] on a possibly absent string: absent and empty are both falsy. *)
Definition or_else (s : option string) (d : string) : string :=
  match s with
  | Some x => if decide (x = "") then d else x
  | None => d
  end.

(** [Flashcard.fromJSON]; [fresh] is what [generateId()] would return and
    [now] what [new Date()] would. *)
Definition fromJSON (fresh : string) (now : Date) (data : json) : t :=
  {| id := or_else (j_id data) fresh;
     question := or_else (j_question data) "";
     answer := or_else (j_answer data) "";
     deckId := or_else (j_deckId data) "";
     createdAt := default now (j_createdAt data);
     updatedAt := default now (j_updatedAt data) |}.

End Flashcard.

Module Deck.

Record t : Type := mk {
  id : string;
  name : string;
  description : string;
  flashcardIds : list string;
  createdAt : Date;
  updatedAt : Date
}.

Record json : Type := mk_json {
  j_id : option string;
  j_name : option string;
  j_description : option string;
  j_flashcardIds : option (list string);
  j_createdAt : option Date;
  j_updatedAt : option Date
}.

(** [Deck.fromJSON] *)
Definition fromJSON (fresh : string) (now : Date) (data : json) : t :=
  {| id := Flashcard.or_else (j_id data) fresh;
     name := Flashcard.or_else (j_name data) "";
     description := Flashcard.or_else (j_description data) "";
     flashcardIds := default [] (j_flashcardIds data);
     createdAt := default now (j_createdAt data);
     updatedAt := default now (j_updatedAt data) |}.

End Deck.

(** ** The card store the manager reads from *)

(** What a call that may throw comes back with. *)
Inductive Outcome (A : Type) : Type :=
  | Return (a : A)
  | Throw (message : string).
Arguments Return {A} a.
Arguments Throw {A} message.

(** The two methods of [this.dataService] that the manager calls. *)
Record DataService : Type := mkDataService {
  loadDeck : Js.Value → Outcome (option Deck.t);
  loadFlashcardsForDeck : Js.Value → Outcome (list Flashcard.t)
}.

(** [field === v] for a field that holds a string when it is present. *)
Definition field_is (field : option string) (v : Js.Value) : bool :=
  match field, v with
  | Some s, Js.VString s' => bool_decide (s = s')
  | None, Js.VUndefined => true
  | _, _ => false
  end.

(** The localStorage-backed service. *)
Module LocalStore.

(** The two entries of localStorage the service reads. [None] stands for an
    entry that is missing, does not parse, or parses to something that is not
    an array: [loadAllFlashcards] and [loadAllDecksData] answer [[]] in each
    of these cases. *)
Record Storage : Type := mkStorage {
  available : bool;
  flashcards_item : option (list Flashcard.json);
  decks_item : option (list Deck.json)
}.

(** The readings a load takes from outside the store: the id that
    [generateId()] yields for the record at a position, and the clock. *)
Record World : Type := mkWorld {
  generateId : nat → string;
  now : Date
}.

Definition loadAllFlashcards (st : Storage) : list Flashcard.json :=
  if available st then default [] (flashcards_item st) else [].

Definition loadAllDecksData (st : Storage) : list Deck.json :=
  if available st then default [] (decks_item st) else [].

Definition loadFlashcardsForDeck (w : World) (st : Storage) (deckId : Js.Value)
  : list Flashcard.t :=
  imap (λ i f, Flashcard.fromJSON (generateId w i) (now w) f)
    (List.filter (λ f, field_is (Flashcard.j_deckId f) deckId)
       (loadAllFlashcards st)).

Definition loadDeck (w : World) (st : Storage) (id : Js.Value) : option Deck.t :=
  if available st then
    match find (λ d, field_is (Deck.j_id d) id) (loadAllDecksData st) with
    | Some deckData => Some (Deck.fromJSON (generateId w 0) (now w) deckData)
    | None => None
    end
  else None.

(** Both methods catch every fault themselves, so neither throws. *)
Definition service (w : World) (st : Storage) : DataService :=
  mkDataService
    (λ id, Return (loadDeck w st id))
    (λ id, Return (loadFlashcardsForDeck w st id)).

End LocalStore.

(** ** StudySession *)

Module StudySession.

Record t : Type := mk {
  deckId : Js.Value;
  flashcards : list Flashcard.t;
  currentIndex : Js.Number;
  startTime : Date;
  endTime : option Date;
  isComplete : bool;
  reviewedCards : gset Js.Number
}.

Definition set_currentIndex (i : Js.Number) (s : t) : t :=
  mk (deckId s) (flashcards s) i (startTime s) (endTime s) (isComplete s)
     (reviewedCards s).

Definition set_reviewedCards (r : gset Js.Number) (s : t) : t :=
  mk (deckId s) (flashcards s) (currentIndex s) (startTime s) (endTime s)
     (isComplete s) r.

Definition set_endTime (e : option Date) (s : t) : t :=
  mk (deckId s) (flashcards s) (currentIndex s) (startTime s) e (isComplete s)
     (reviewedCards s).

(** [this.flashcards.length] *)
Definition length (s : t) : Js.Number := Js.ofNat (List.length (flashcards s)).

(** [new StudySession(deckId, flashcards)], built at time [now]. *)
Definition new (now : Date) (deckId : Js.Value) (flashcards : list Flashcard.t) : t :=
  {| deckId := deckId;
     flashcards := flashcards;
     currentIndex := Js.ofZ 0;
     startTime := now;
     endTime := None;
     isComplete := false;
     reviewedCards := ∅ |}.

Definition getCurrentFlashcard (s : t) : Js.Ref Flashcard.t :=
  if isComplete s || Js.ge (currentIndex s) (length s) then Js.Null
  else Js.array_get (flashcards s) (currentIndex s).

(** The loop of [completeSession]: [reviewedCards.add(i)] for [i] from 0 up
    to the length. *)
Definition add_all (n : nat) (r : gset Js.Number) : gset Js.Number :=
  foldl (λ acc i, {[ Js.ofNat i ]} ∪ acc) r (seq 0 n).

Definition completeSession (now : Date) (s : t) : t :=
  {| deckId := deckId s;
     flashcards := flashcards s;
     currentIndex := currentIndex s;
     startTime := startTime s;
     endTime := Some now;
     isComplete := true;
     reviewedCards := add_all (List.length (flashcards s)) (reviewedCards s) |}.

(** [now] is read only when the call completes the session. *)
Definition nextFlashcard (now : Date) (s : t) : t * bool :=
  if isComplete s then (s, false)
  else
    let s1 :=
      if Js.lt (currentIndex s) (length s)
      then set_reviewedCards ({[ currentIndex s ]} ∪ reviewedCards s) s
      else s in
    let s2 := set_currentIndex (Js.succ (currentIndex s1)) s1 in
    if Js.ge (currentIndex s2) (length s2)
    then (completeSession now s2, false)
    else (s2, true).

Definition previousFlashcard (s : t) : t * bool :=
  if Js.gt (currentIndex s) (Js.ofZ 0)
  then (set_currentIndex (Js.pred (currentIndex s)) s, true)
  else (s, false).

Definition jumpToFlashcard (index : Js.Number) (s : t) : t * bool :=
  if Js.ge index (Js.ofZ 0) && Js.lt index (length s) && negb (isComplete s)
  then (set_currentIndex index s, true)
  else (s, false).

Record Progress : Type := mkProgress {
  p_currentIndex : Js.Number;
  p_totalCards : nat;
  p_reviewedCount : nat;
  p_percentComplete : Z;
  p_isComplete : bool;
  p_hasNext : bool;
  p_hasPrevious : bool
}.

Definition Qc_of_nat (n : nat) : Qc := Qc_of_Z (Z.of_nat n).

(** The quotient of the two counts and its product with 100 are each
    rounded to a double before [Math.round] sees the result: 23 reviewed
    cards of 40 make 57 percent, not 58. *)
Definition getProgress (s : t) : Progress :=
  {| p_currentIndex := currentIndex s;
     p_totalCards := List.length (flashcards s);
     p_reviewedCount := size (reviewedCards s);
     p_percentComplete :=
       if (0 <? List.length (flashcards s))%nat
       then Js.Math_round
              (Js.mul
                 (Js.div (Qc_of_nat (size (reviewedCards s)))
                    (Qc_of_nat (List.length (flashcards s))))
                 (Qc_of_Z 100))
       else 100;
     p_isComplete := isComplete s;
     p_hasNext := Js.lt (currentIndex s) (Js.pred (length s));
     p_hasPrevious := Js.gt (currentIndex s) (Js.ofZ 0) |}.

Record Summary : Type := mkSummary {
  s_deckId : Js.Value;
  s_totalCards : nat;
  s_reviewedCards : nat;
  s_duration : Z;
  s_startTime : Date;
  s_endTime : option Date;
  s_isComplete : bool
}.

(** [now] is read only while [endTime] is null. The difference of the two
    dates and its quotient by 1000 are each rounded to a double. *)
Definition getSessionSummary (now : Date) (s : t) : Summary :=
  let duration :=
    match endTime s with
    | Some e =>
        Js.Math_round
          (Js.div (Js.sub (Qc_of_Z e) (Qc_of_Z (startTime s))) (Qc_of_Z 1000))
    | None =>
        Js.Math_round
          (Js.div (Js.sub (Qc_of_Z now) (Qc_of_Z (startTime s))) (Qc_of_Z 1000))
    end in
  {| s_deckId := deckId s;
     s_totalCards := List.length (flashcards s);
     s_reviewedCards := size (reviewedCards s);
     s_duration := duration;
     s_startTime := startTime s;
     s_endTime := endTime s;
     s_isComplete := isComplete s |}.

Definition reset (now : Date) (s : t) : t :=
  {| deckId := deckId s;
     flashcards := flashcards s;
     currentIndex := Js.ofZ 0;
     startTime := now;
     endTime := None;
     isComplete := false;
     reviewedCards := ∅ |}.

End StudySession.

(** ** StudyManager *)

Module StudyManager.

Record t : Type := mk {
  dataService : DataService;
  currentSession : option StudySession.t
}.

(** The result object of every method: [{success: true, ...payload}] or
    [{success: false, errors}]. *)
Inductive Result (A : Type) : Type :=
  | Success (payload : A)
  | Failure (errors : list string).
Arguments Success {A} payload.
Arguments Failure {A} errors.

Definition success {A} (r : Result A) : bool :=
  match r with Success _ => true | Failure _ => false end.

Definition set_currentSession (c : option StudySession.t) (m : t) : t :=
  mk (dataService m) c.

Definition new (dataService : DataService) : t := mk dataService None.

Definition no_session : list string := ["No active study session"].

Definition startStudySession (now : Date) (deckId : Js.Value) (m : t)
  : t * Result StudySession.t :=
  if Js.not deckId || negb (String.eqb (Js.typeof deckId) "string")
  then (m, Failure ["Deck ID is required and must be a string"])
  else
    match loadDeck (dataService m) deckId with
    | Throw message =>
        (m, Failure ["Failed to start study session: " +:+ message])
    | Return None => (m, Failure ["Deck not found"])
    | Return (Some deck) =>
        match loadFlashcardsForDeck (dataService m) deckId with
        | Throw message =>
            (m, Failure ["Failed to start study session: " +:+ message])
        | Return flashcards =>
            if (List.length flashcards =? 0)%nat
            then (m, Failure ["Deck contains no flashcards to study"])
            else
              let session := StudySession.new now deckId flashcards in
              (set_currentSession (Some session) m, Success session)
        end
    end.

Definition getCurrentSession (m : t) : option StudySession.t := currentSession m.

(** Payload: [hasNext] and [isComplete]. *)
Definition nextFlashcard (now : Date) (m : t) : t * Result (bool * bool) :=
  match currentSession m with
  | None => (m, Failure no_session)
  | Some session =>
      let '(session', hasNext) := StudySession.nextFlashcard now session in
      (set_currentSession (Some session') m,
       Success (hasNext, StudySession.isComplete session'))
  end.

(** Payload: [hasPrevious]. *)
Definition previousFlashcard (m : t) : t * Result bool :=
  match currentSession m with
  | None => (m, Failure no_session)
  | Some session =>
      let '(session', hasPrevious) := StudySession.previousFlashcard session in
      (set_currentSession (Some session') m, Success hasPrevious)
  end.

(** The guard [typeof index !== 'number' || index < 0] compares only when
    the value is a number. *)
Definition jumpToFlashcard (index : Js.Value) (m : t) : t * Result unit :=
  match currentSession m with
  | None => (m, Failure no_session)
  | Some session =>
      match index with
      | Js.VNumber n =>
          if Js.lt n (Js.ofZ 0)
          then (m, Failure ["Index must be a non-negative number"])
          else
            let '(session', ok) := StudySession.jumpToFlashcard n session in
            if negb ok
            then (set_currentSession (Some session') m,
                  Failure ["Invalid flashcard index or session is complete"])
            else (set_currentSession (Some session') m, Success ())
      | _ => (m, Failure ["Index must be a non-negative number"])
      end
  end.

Definition getCurrentFlashcard (m : t) : Result Flashcard.t :=
  match currentSession m with
  | None => Failure no_session
  | Some session =>
      match StudySession.getCurrentFlashcard session with
      | Js.Obj flashcard => Success flashcard
      | _ => Failure ["No current flashcard (session may be complete)"]
      end
  end.

Definition getSessionProgress (m : t) : Result StudySession.Progress :=
  match currentSession m with
  | None => Failure no_session
  | Some session => Success (StudySession.getProgress session)
  end.

Definition completeSession (now : Date) (m : t) : t * Result StudySession.Summary :=
  match currentSession m with
  | None => (m, Failure no_session)
  | Some session =>
      let session' :=
        if negb (StudySession.isComplete session)
        then StudySession.completeSession now session
        else session in
      let summary := StudySession.getSessionSummary now session' in
      (set_currentSession None m, Success summary)
  end.

Definition resetSession (now : Date) (m : t) : t * Result unit :=
  match currentSession m with
  | None => (m, Failure no_session)
  | Some session =>
      (set_currentSession (Some (StudySession.reset now session)) m, Success ())
  end.

Definition endSession (now : Date) (m : t) : t * Result StudySession.Summary :=
  match currentSession m with
  | None => (m, Failure no_session)
  | Some session =>
      let summary := StudySession.getSessionSummary now session in
      (set_currentSession None m, Success summary)
  end.

Definition hasActiveSession (m : t) : bool :=
  match currentSession m with Some _ => true | None => false end.

Definition getSessionSummary (now : Date) (m : t) : Result StudySession.Summary :=
  match currentSession m with
  | None => Failure no_session
  | Some session => Success (StudySession.getSessionSummary now session)
  end.

End StudyManager.

(** ** Runs of a session *)

(** The navigation calls a client can make on a session. Each carries the
    clock reading of the call when the method may take one. *)
Inductive Call : Type :=
  | DoNext (now : Date)
  | DoPrevious
  | DoJumpTo (index : Js.Number)
  | DoComplete (now : Date)
  | DoReset (now : Date).

Definition call (c : Call) (s : StudySession.t) : StudySession.t :=
  match c with
  | DoNext now => (StudySession.nextFlashcard now s).1
  | DoPrevious => (StudySession.previousFlashcard s).1
  | DoJumpTo index => (StudySession.jumpToFlashcard index s).1
  | DoComplete now => StudySession.completeSession now s
  | DoReset now => StudySession.reset now s
  end.

(** The session after a sequence of calls, first call first. *)
Definition run (calls : list Call) (s : StudySession.t) : StudySession.t :=
  foldl (λ s c, call c s) s calls.

(** [nextFlashcard()] called once per clock reading of the list. *)
Definition advance (clock : list Date) (s : StudySession.t) : StudySession.t :=
  run (DoNext <$> clock) s.

(** The indices [0 .. n-1] as members of a [Set]. *)
Definition indices (n : nat) : gset Js.Number :=
  list_to_set (Js.ofNat <$> seq 0 n).

(** The cursor is a natural number and only indices of cards are marked
    reviewed: what every session satisfies that was built by the
    constructor and driven with integer indices. *)
Definition integral (s : StudySession.t) : Prop :=
  (∃ j : nat, StudySession.currentIndex s = Js.ofNat j)
  ∧ StudySession.reviewedCards s ⊆ indices (List.length (StudySession.flashcards s)).

(** The session [k] calls of [nextFlashcard] into a deck of more than [k]
    cards. *)
Definition underway (start : Date) (d : Js.Value) (cards : list Flashcard.t)
    (k : nat) : StudySession.t :=
  StudySession.mk d cards (Js.ofNat k) start None false (indices k).

(** ** Arrays and cards as shared objects

    The constructor receives a reference to the caller's array and stores
    [[...flashcards]]: a new array whose elements are the same card objects.
    The heap maps the address of an array to the addresses of its elements,
    and the address of a card object to its fields. *)
Module Heap.

Definition loc : Type := positive.

Record t : Type := mk {
  arrays : gmap loc (list loc);
  cards : gmap loc Flashcard.t
}.

(** A session object: [this.flashcards] holds the address of an array. *)
Record SessionObj : Type := mkObj {
  o_deckId : Js.Value;
  o_flashcards : loc;
  o_currentIndex : Js.Number;
  o_startTime : Date;
  o_endTime : option Date;
  o_isComplete : bool;
  o_reviewedCards : gset Js.Number
}.

(** [[...arr]]: a fresh array with the elements of the one at [a]. *)
Definition spread (a : loc) (h : t) : option (t * loc) :=
  match arrays h !! a with
  | Some elements =>
      let a' := fresh (dom (arrays h)) in
      Some (mk (<[a' := elements]> (arrays h)) (cards h), a')
  | None => None
  end.

(** [new StudySession(deckId, flashcards)] where [flashcards] is the array
    at address [a]. *)
Definition construct (now : Date) (deckId : Js.Value) (a : loc) (h : t)
  : option (t * SessionObj) :=
  match spread a h with
  | Some (h', a') =>
      Some (h', {| o_deckId := deckId;
                   o_flashcards := a';
                   o_currentIndex := Js.ofZ 0;
                   o_startTime := now;
                   o_endTime := None;
                   o_isComplete := false;
                   o_reviewedCards := ∅ |})
  | None => None
  end.

(** The cards an array holds. *)
Definition contents (h : t) (a : loc) : option (list Flashcard.t) :=
  match arrays h !! a with
  | Some elements => mapM (λ l, cards h !! l) elements
  | None => None
  end.

(** The session its methods compute with: [this.flashcards] dereferenced. *)
Definition view (h : t) (o : SessionObj) : option StudySession.t :=
  match contents h (o_flashcards o) with
  | Some cs =>
      Some (StudySession.mk (o_deckId o) cs (o_currentIndex o)
              (o_startTime o) (o_endTime o) (o_isComplete o)
              (o_reviewedCards o))
  | None => None
  end.

(** Any in-place update of the array at [a] ([push], [pop], [splice],
    [arr[i] = c], [arr.length = n]): its elements become [elements]. *)
Definition mutate_array (a : loc) (elements : list loc) (h : t) : t :=
  mk (<[a := elements]> (arrays h)) (cards h).

(** An update of the fields of the card object at [l]. *)
Definition mutate_card (l : loc) (c : Flashcard.t) (h : t) : t :=
  mk (arrays h) (<[l := c]> (cards h)).

(** The cards [cs] of an array of the addresses [elements], with [c] in
    every place that holds the address [l]. *)
Definition updated (l : loc) (c : Flashcard.t) (elements : list loc)
    (cs : list Flashcard.t) : list Flashcard.t :=
  (λ p, if decide (p.1 = l) then c else p.2) <$> zip elements cs.

End Heap.

(** The store behind a manager replaced by another one: what saving or
    deleting cards and decks after the session started amounts to. *)
Definition with_dataService (ds : DataService) (m : StudyManager.t)
  : StudyManager.t :=
  StudyManager.mk ds (StudyManager.currentSession m).

(** ** Sample data *)

Definition card (n : string) : Flashcard.t :=
  Flashcard.mk n ("Q-" +:+ n) ("A-" +:+ n) "deck-1" 0 0.

Definition card_json (n deck : string) : Flashcard.json :=
  Flashcard.mk_json (Some n) (Some ("Q-" +:+ n)) (Some ("A-" +:+ n))
    (Some deck) (Some 0) (Some 0).

Definition deck_json (n : string) (ids : list string) : Deck.json :=
  Deck.mk_json (Some n) (Some ("Deck " +:+ n)) None (Some ids) (Some 0) (Some 0).

(** A store with a deck of three cards, a deck of one card and a deck
    without cards. *)
Definition sample_storage : LocalStore.Storage :=
  LocalStore.mkStorage true
    (Some [card_json "a" "deck-1"; card_json "x" "deck-2";
           card_json "b" "deck-1"; card_json "c" "deck-1"])
    (Some [deck_json "deck-1" ["a"; "b"; "c"]; deck_json "deck-2" ["x"];
           deck_json "deck-3" []]).

Definition sample_world : LocalStore.World :=
  LocalStore.mkWorld (λ _, "generated") 5.

Definition sample_service : DataService :=
  LocalStore.service sample_world sample_storage.

(** A service whose storage access throws. *)
Definition failing_service : DataService :=
  mkDataService (λ _, Throw "storage failure") (λ _, Throw "storage failure").

(** A manager with a fresh session on the deck of three cards. *)
Definition sample_manager : StudyManager.t :=
  (StudyManager.startStudySession 0 (Js.VString "deck-1")
     (StudyManager.new sample_service)).1.

(** The session that manager holds. *)
Definition fresh_session : StudySession.t :=
  StudySession.new 0 (Js.VString "deck-1") [card "a"; card "b"; card "c"].

(** A caller's array of two cards. *)
Definition sample_heap : Heap.t :=
  Heap.mk {[ 1%positive := [10%positive; 11%positive] ]}
          {[ 10%positive := card "a"; 11%positive := card "b" ]}.

(** 1.5 *)
Definition one_and_a_half : Js.Number := Js.Fin (Q2Qc (3 # 2)).

(** ** Sessions driven with integer indices *)

(** The index of a jump is an integer. *)
Definition integer_call (c : Call) : Prop :=
  match c with
  | DoJumpTo index => ∃ z : Z, index = Js.ofZ z
  | _ => True
  end.

(** The cursor is a natural number within the deck, before its end while
    the session is not complete, and only indices of cards are marked
    reviewed. *)
Definition in_range (s : StudySession.t) : Prop :=
  ∃ j : nat,
    StudySession.currentIndex s = Js.ofNat j
    ∧ (j ≤ List.length (StudySession.flashcards s))%nat
    ∧ (StudySession.isComplete s = false →
       (j < List.length (StudySession.flashcards s))%nat)
    ∧ StudySession.reviewedCards s
      ⊆ indices (List.length (StudySession.flashcards s)).

(** The manager's method for a call: the navigation methods, [resetSession]
    and, for a completion, [completeSession]. The manager receives the index
    of a jump as a value. *)
Definition navigate (c : Call) (m : StudyManager.t) : StudyManager.t :=
  match c with
  | DoNext now => (StudyManager.nextFlashcard now m).1
  | DoPrevious => (StudyManager.previousFlashcard m).1
  | DoJumpTo index => (StudyManager.jumpToFlashcard (Js.VNumber index) m).1
  | DoComplete now => (StudyManager.completeSession now m).1
  | DoReset now => (StudyManager.resetSession now m).1
  end.

(** The manager after a sequence of calls, first call first. *)
Definition navigate_all (calls : list Call) (m : StudyManager.t)
  : StudyManager.t :=
  foldl (λ m c, navigate c m) m calls.

(** ** Methods of the data models *)

Global Instance Value_eq_dec : EqDecision Js.Value.
Proof. solve_decision. Defined.

Module FlashcardMethods.

(** [toJSON()]: every field is written; the dates as ISO strings, which
    [new Date(...)] reads back to the same instant. *)
Definition toJSON (c : Flashcard.t) : Flashcard.json :=
  Flashcard.mk_json (Some (Flashcard.id c)) (Some (Flashcard.question c))
    (Some (Flashcard.answer c)) (Some (Flashcard.deckId c))
    (Some (Flashcard.createdAt c)) (Some (Flashcard.updatedAt c)).

(** The argument of [update]: a field that is [undefined] is left alone. *)
Record updates : Type := mk_updates {
  u_question : option string;
  u_answer : option string;
  u_deckId : option string
}.

Definition update (now : Date) (u : updates) (c : Flashcard.t) : Flashcard.t :=
  Flashcard.mk (Flashcard.id c)
    (default (Flashcard.question c) (u_question u))
    (default (Flashcard.answer c) (u_answer u))
    (default (Flashcard.deckId c) (u_deckId u))
    (Flashcard.createdAt c) now.

End FlashcardMethods.

Module DeckMethods.

Definition set_flashcardIds (ids : list string) (now : Date) (d : Deck.t) : Deck.t :=
  Deck.mk (Deck.id d) (Deck.name d) (Deck.description d) ids
    (Deck.createdAt d) now.

(** [addFlashcard(flashcardId)]: [now] is read only when the id is added. *)
Definition addFlashcard (now : Date) (flashcardId : string) (d : Deck.t) : Deck.t :=
  if bool_decide (flashcardId ∈ Deck.flashcardIds d) then d
  else set_flashcardIds (Deck.flashcardIds d ++ [flashcardId]) now d.

(** [removeFlashcard(flashcardId)]: [indexOf] finds the first occurrence,
    [splice(index, 1)] removes it. *)
Definition removeFlashcard (now : Date) (flashcardId : string) (d : Deck.t) : Deck.t :=
  match list_find (λ x, x = flashcardId) (Deck.flashcardIds d) with
  | Some (index, _) => set_flashcardIds (delete index (Deck.flashcardIds d)) now d
  | None => d
  end.

Definition getFlashcardCount (d : Deck.t) : nat :=
  List.length (Deck.flashcardIds d).

(** [toJSON()]: the list of ids is copied. *)
Definition toJSON (d : Deck.t) : Deck.json :=
  Deck.mk_json (Some (Deck.id d)) (Some (Deck.name d))
    (Some (Deck.description d)) (Some (Deck.flashcardIds d))
    (Some (Deck.createdAt d)) (Some (Deck.updatedAt d)).

Record updates : Type := mk_updates {
  u_name : option string;
  u_description : option string
}.

Definition update (now : Date) (u : updates) (d : Deck.t) : Deck.t :=
  Deck.mk (Deck.id d)
    (default (Deck.name d) (u_name u))
    (default (Deck.description d) (u_description u))
    (Deck.flashcardIds d) (Deck.createdAt d) now.

End DeckMethods.

(** ** The data service: reads, writes and metadata

    The service keeps three entries in localStorage. The storage of this
    version is an object in memory: [setItem] never fails, so no quota error
    arises; [available] stands for the answer of [isStorageAvailable]. *)
Module Store.

(** An entry: absent; present and empty, for which [getItem] answers null
    as for an absent one ([this.data[key] || null]); present with a text that
    is not readable as what it should be (for the two collections:
    [JSON.parse] throws or yields no array); or readable. *)
Inductive Item (A : Type) : Type :=
  | Missing
  | Blank
  | Corrupt
  | Parsed (a : A).
Arguments Missing {A}.
Arguments Blank {A}.
Arguments Corrupt {A}.
Arguments Parsed {A} a.

Record Metadata : Type := mkMetadata {
  version : string;
  lastUpdated : Date
}.

Record t : Type := mk {
  available : bool;
  flashcards : Item (list Flashcard.json);
  decks : Item (list Deck.json);
  metadata : Item Metadata
}.

Definition parsed {A} (i : Item A) : option A :=
  match i with Parsed a => Some a | _ => None end.

(** What the reading methods see of the store. *)
Definition storage (st : t) : LocalStore.Storage :=
  LocalStore.mkStorage (available st) (parsed (flashcards st))
    (parsed (decks st)).

Definition set_flashcards (l : list Flashcard.json) (st : t) : t :=
  mk (available st) (Parsed l) (decks st) (metadata st).

Definition set_decks (l : list Deck.json) (st : t) : t :=
  mk (available st) (flashcards st) (Parsed l) (metadata st).

Definition isStorageAvailable (st : t) : bool := available st.

Definition updateMetadata (now : Date) (st : t) : t :=
  if isStorageAvailable st
  then mk (available st) (flashcards st) (decks st)
         (Parsed (mkMetadata "1.0.0" now))
  else st.

(** [!localStorage.getItem(key)]: the entry is absent or empty. *)
Definition absent {A} (i : Item A) : bool :=
  match i with Missing | Blank => true | _ => false end.

(** [initializeStorage()], which the constructor runs: entries that are
    absent or empty are written, the others are left alone. *)
Definition initializeStorage (now : Date) (st : t) : t :=
  if negb (isStorageAvailable st) then st
  else
    mk (available st)
      (if absent (flashcards st) then Parsed [] else flashcards st)
      (if absent (decks st) then Parsed [] else decks st)
      (if absent (metadata st) then Parsed (mkMetadata "1.0.0" now)
       else metadata st).

(** A throwing call has written nothing. *)
Definition saveFlashcard (now : Date) (flashcard : Flashcard.t) (st : t)
  : Outcome t :=
  if negb (isStorageAvailable st)
  then Throw ("Failed to save flashcard: " +:+ "Storage is not available")
  else
    let flashcards := LocalStore.loadAllFlashcards (storage st) in
    let flashcardData := FlashcardMethods.toJSON flashcard in
    let flashcards' :=
      match list_find
              (λ f, field_is (Flashcard.j_id f)
                      (Js.VString (Flashcard.id flashcard)) = true)
              flashcards with
      | Some (existingIndex, _) => <[existingIndex := flashcardData]> flashcards
      | None => flashcards ++ [flashcardData]
      end in
    Return (updateMetadata now (set_flashcards flashcards' st)).

Definition loadFlashcard (w : LocalStore.World) (st : t) (id : Js.Value)
  : option Flashcard.t :=
  if isStorageAvailable st then
    match find (λ f, field_is (Flashcard.j_id f) id)
            (LocalStore.loadAllFlashcards (storage st)) with
    | Some flashcardData =>
        Some (Flashcard.fromJSON (LocalStore.generateId w 0)
                (LocalStore.now w) flashcardData)
    | None => None
    end
  else None.

Definition deleteFlashcard (now : Date) (id : Js.Value) (st : t) : Outcome t :=
  if negb (isStorageAvailable st)
  then Throw ("Failed to delete flashcard: " +:+ "Storage is not available")
  else
    let flashcards := LocalStore.loadAllFlashcards (storage st) in
    let filteredFlashcards :=
      List.filter (λ f, negb (field_is (Flashcard.j_id f) id)) flashcards in
    Return (updateMetadata now (set_flashcards filteredFlashcards st)).

Definition saveDeck (now : Date) (deck : Deck.t) (st : t) : Outcome t :=
  if negb (isStorageAvailable st)
  then Throw ("Failed to save deck: " +:+ "Storage is not available")
  else
    let decks := LocalStore.loadAllDecksData (storage st) in
    let deckData := DeckMethods.toJSON deck in
    let decks' :=
      match list_find
              (λ d, field_is (Deck.j_id d) (Js.VString (Deck.id deck)) = true)
              decks with
      | Some (existingIndex, _) => <[existingIndex := deckData]> decks
      | None => decks ++ [deckData]
      end in
    Return (updateMetadata now (set_decks decks' st)).

Definition loadAllDecks (w : LocalStore.World) (st : t) : list Deck.t :=
  imap (λ i d, Deck.fromJSON (LocalStore.generateId w i) (LocalStore.now w) d)
    (LocalStore.loadAllDecksData (storage st)).

Definition deleteDeck (now : Date) (id : Js.Value) (st : t) : Outcome t :=
  if negb (isStorageAvailable st)
  then Throw ("Failed to delete deck: " +:+ "Storage is not available")
  else
    let decks := LocalStore.loadAllDecksData (storage st) in
    let filteredDecks :=
      List.filter (λ d, negb (field_is (Deck.j_id d) id)) decks in
    Return (updateMetadata now (set_decks filteredDecks st)).

Definition clearAllData (now : Date) (st : t) : Outcome t :=
  if negb (isStorageAvailable st)
  then Throw ("Failed to clear data: " +:+ "Storage is not available")
  else Return (initializeStorage now (mk (available st) Missing Missing Missing)).

Definition getMetadata (st : t) : option Metadata :=
  if isStorageAvailable st then parsed (metadata st) else None.

Definition isAvailable (st : t) : bool := isStorageAvailable st.

(** The methods the study manager calls, on this store. *)
Definition service (w : LocalStore.World) (st : t) : DataService :=
  LocalStore.service w (storage st).

End Store.

(** A store with two decks of one card each. *)
Definition sample_store : Store.t :=
  Store.mk true
    (Store.Parsed [card_json "a" "deck-1"; card_json "x" "deck-2"])
    (Store.Parsed [deck_json "deck-1" ["a"]; deck_json "deck-2" ["x"]])
    Store.Missing.

(** ** Strings

    A string is a sequence of code units below 256. [trim] removes the white
    space and line terminators of ECMAScript at both ends; below 256 these
    are the code units 9 to 13, 32 and 160. *)
Module JsString.

Definition is_whitespace (a : Ascii.ascii) : bool :=
  let n := Ascii.nat_of_ascii a in
  bool_decide (9 ≤ n ≤ 13)%nat || (n =? 32)%nat || (n =? 160)%nat.

Fixpoint trimStart (s : string) : string :=
  match s with
  | EmptyString => EmptyString
  | String a rest => if is_whitespace a then trimStart rest else s
  end.

Fixpoint trimEnd (s : string) : string :=
  match s with
  | EmptyString => EmptyString
  | String a rest =>
      match trimEnd rest with
      | EmptyString => if is_whitespace a then EmptyString else String a EmptyString
      | kept => String a kept
      end
  end.

Definition trim (s : string) : string := trimEnd (trimStart s).

End JsString.

(** ** ValidationService *)

Module ValidationService.

Record ValidationResult : Type := mkResult {
  isValid : bool;
  errors : list string
}.

(** [{ isValid: errors.length === 0, errors }] *)
Definition result (errors : list string) : ValidationResult :=
  mkResult (List.length errors =? 0)%nat errors.

Definition validateNonEmptyText (text : Js.Value) (fieldName : string)
  : ValidationResult :=
  result
    (if Js.not text || negb (String.eqb (Js.typeof text) "string")
     then [fieldName +:+ " is required and must be a string"]
     else
       match text with
       | Js.VString s =>
           if String.eqb (JsString.trim s) ""
           then [fieldName +:+ " cannot be empty or only whitespace"]
           else if negb (String.eqb s (JsString.trim s))
           then [fieldName +:+ " should not have leading or trailing whitespace"]
           else []
       | _ => []
       end).

(** The data of a flashcard as a caller passes them: any values. *)
Record FlashcardData : Type := mkFlashcardData {
  question : Js.Value;
  answer : Js.Value;
  deckId : Js.Value
}.

(** [deck.id === v] and [deck.name === v] for a deck instance. *)
Definition is_string (s : string) (v : Js.Value) : bool :=
  match v with Js.VString s' => String.eqb s s' | _ => false end.

Definition validateFlashcard (flashcardData : FlashcardData)
    (existingDecks : list Deck.t) : ValidationResult :=
  let questionValidation := validateNonEmptyText (question flashcardData) "Question" in
  let errors1 :=
    if negb (isValid questionValidation) then errors questionValidation else [] in
  let answerValidation := validateNonEmptyText (answer flashcardData) "Answer" in
  let errors2 :=
    if negb (isValid answerValidation) then errors answerValidation else [] in
  let errors3 :=
    if Js.not (deckId flashcardData)
       || negb (String.eqb (Js.typeof (deckId flashcardData)) "string")
    then ["Deck ID is required and must be a string"]
    else
      match deckId flashcardData with
      | Js.VString s =>
          if String.eqb (JsString.trim s) ""
          then ["Deck ID cannot be empty or only whitespace"]
          else if (0 <? List.length existingDecks)%nat
          then
            if existsb (λ deck, is_string (Deck.id deck) (deckId flashcardData))
                 existingDecks
            then []
            else ["Deck ID must reference an existing deck"]
          else []
      | _ => []
      end in
  result (errors1 ++ errors2 ++ errors3).

(** [excludeId] after its default: [None] is null, which no id of a deck
    equals. *)
Definition validateUniqueDeckName (deckName : Js.Value)
    (existingDecks : list Deck.t) (excludeId : option string)
  : ValidationResult :=
  result
    (if Js.not deckName || negb (String.eqb (Js.typeof deckName) "string")
     then ["Deck name is required for uniqueness validation"]
     else
       match find (λ deck,
                     negb (bool_decide (Some (Deck.id deck) = excludeId))
                     && is_string (Deck.name deck) deckName)
               existingDecks with
       | Some duplicateDeck => ["A deck with this name already exists"]
       | None => []
       end).

(** The data of a deck as a caller passes them; the id is a string when it
    is present. *)
Record DeckData : Type := mkDeckData {
  name : Js.Value;
  description : Js.Value;
  id : option string
}.

Definition validateDeck (deckData : DeckData) (existingDecks : list Deck.t)
  : ValidationResult :=
  let nameValidation := validateNonEmptyText (name deckData) "Name" in
  let errors1 :=
    if negb (isValid nameValidation) then errors nameValidation
    else
      let uniqueNameValidation :=
        validateUniqueDeckName (name deckData) existingDecks (id deckData) in
      if negb (isValid uniqueNameValidation)
      then errors uniqueNameValidation else [] in
  let errors2 :=
    match description deckData with
    | Js.VUndefined | Js.VNull | Js.VString _ => []
    | _ => ["Description must be a string"]
    end in
  result (errors1 ++ errors2).

End ValidationService.

(** [validate()] of the models, on instances whose fields are strings. *)
Module ModelValidation.

Definition text_errors (text : string) (fieldName : string) : list string :=
  if String.eqb text ""
  then [fieldName +:+ " is required and must be a string"]
  else if String.eqb (JsString.trim text) ""
  then [fieldName +:+ " cannot be empty or only whitespace"]
  else if negb (String.eqb text (JsString.trim text))
  then [fieldName +:+ " should not have leading or trailing whitespace"]
  else [].

(** [Flashcard.validate()] *)
Definition validateFlashcard (c : Flashcard.t) : ValidationService.ValidationResult :=
  ValidationService.result
    (text_errors (Flashcard.question c) "Question"
     ++ text_errors (Flashcard.answer c) "Answer"
     ++ (if String.eqb (Flashcard.deckId c) ""
         then ["Deck ID is required and must be a string"] else [])).

End ModelValidation.

(** Every code unit of the string is white space. *)
Fixpoint only_whitespace (s : string) : bool :=
  match s with
  | EmptyString => true
  | String a rest => JsString.is_whitespace a && only_whitespace rest
  end.

(** ** FlashcardManager and DeckManager

    Both work on the data service and on [ValidationService]. Every reading
    a call takes from outside, the clock of each [new Date()] and the answer
    of each [generateId()], is an argument of its own. *)

(** The string a value is. It is applied only to values that the validation
    has accepted, which are strings. *)
Definition string_of (v : Js.Value) : string :=
  match v with Js.VString s => s | _ => "" end.

Module FlashcardManager.

Import StudyManager (Result, Success, Failure).

Record CreateReadings : Type := mkCreateReadings {
  c_decks : LocalStore.World;   (* loadAllDecks *)
  c_id : string;                (* generateId() in the constructor *)
  c_createdAt : Date;           (* the constructor's first new Date() *)
  c_updatedAt : Date;           (* the constructor's second new Date() *)
  c_saved : Date;               (* saveFlashcard *)
  c_deck : LocalStore.World;    (* loadDeck *)
  c_added : Date;               (* addFlashcard *)
  c_deckSaved : Date            (* saveDeck *)
}.

Definition createFlashcard (r : CreateReadings)
    (flashcardData : ValidationService.FlashcardData) (st : Store.t)
  : Store.t * Result Flashcard.t :=
  let existingDecks := Store.loadAllDecks (c_decks r) st in
  let validation :=
    ValidationService.validateFlashcard flashcardData existingDecks in
  if negb (ValidationService.isValid validation)
  then (st, Failure (ValidationService.errors validation))
  else
    let flashcard :=
      Flashcard.mk (c_id r)
        (JsString.trim (string_of (ValidationService.question flashcardData)))
        (JsString.trim (string_of (ValidationService.answer flashcardData)))
        (string_of (ValidationService.deckId flashcardData))
        (c_createdAt r) (c_updatedAt r) in
    match Store.saveFlashcard (c_saved r) flashcard st with
    | Throw message =>
        (st, Failure ["Failed to create flashcard: " +:+ message])
    | Return st1 =>
        match LocalStore.loadDeck (c_deck r) (Store.storage st1)
                (ValidationService.deckId flashcardData) with
        | Some deck =>
            let deck' :=
              DeckMethods.addFlashcard (c_added r) (Flashcard.id flashcard) deck in
            match Store.saveDeck (c_deckSaved r) deck' st1 with
            | Throw message =>
                (st1, Failure ["Failed to create flashcard: " +:+ message])
            | Return st2 => (st2, Success flashcard)
            end
        | None => (st1, Success flashcard)
        end
    end.

Definition getFlashcard (w : LocalStore.World) (id : Js.Value) (st : Store.t)
  : Result Flashcard.t :=
  if Js.not id || negb (String.eqb (Js.typeof id) "string")
  then Failure ["Flashcard ID is required and must be a string"]
  else
    match Store.loadFlashcard w st id with
    | None => Failure ["Flashcard not found"]
    | Some flashcard => Success flashcard
    end.

Record DeleteReadings : Type := mkDeleteReadings {
  d_flashcard : LocalStore.World;   (* loadFlashcard *)
  d_deck : LocalStore.World;        (* loadDeck *)
  d_removed : Date;                 (* removeFlashcard *)
  d_deckSaved : Date;               (* saveDeck *)
  d_deleted : Date                  (* deleteFlashcard *)
}.

Definition deleteFlashcard (r : DeleteReadings) (id : Js.Value) (st : Store.t)
  : Store.t * Result unit :=
  if Js.not id || negb (String.eqb (Js.typeof id) "string")
  then (st, Failure ["Flashcard ID is required and must be a string"])
  else
    match Store.loadFlashcard (d_flashcard r) st id with
    | None => (st, Failure ["Flashcard not found"])
    | Some flashcard =>
        let saved :=
          match LocalStore.loadDeck (d_deck r) (Store.storage st)
                  (Js.VString (Flashcard.deckId flashcard)) with
          | Some deck =>
              Store.saveDeck (d_deckSaved r)
                (DeckMethods.removeFlashcard (d_removed r) (string_of id) deck) st
          | None => Return st
          end in
        match saved with
        | Throw message =>
            (st, Failure ["Failed to delete flashcard: " +:+ message])
        | Return st1 =>
            match Store.deleteFlashcard (d_deleted r) id st1 with
            | Throw message =>
                (st1, Failure ["Failed to delete flashcard: " +:+ message])
            | Return st2 => (st2, Success ())
            end
        end
    end.

End FlashcardManager.

Module DeckManager.

Import StudyManager (Result, Success, Failure).

Record CreateReadings : Type := mkCreateReadings {
  c_decks : LocalStore.World;   (* loadAllDecks *)
  c_id : string;                (* generateId() in the constructor *)
  c_createdAt : Date;           (* the constructor's first new Date() *)
  c_updatedAt : Date;           (* the constructor's second new Date() *)
  c_saved : Date                (* saveDeck *)
}.

(** [deckData.description ? deckData.description.trim() : ''] *)
Definition description_text (v : Js.Value) : string :=
  if Js.not v then "" else JsString.trim (string_of v).

Definition createDeck (r : CreateReadings)
    (deckData : ValidationService.DeckData) (st : Store.t)
  : Store.t * Result Deck.t :=
  let existingDecks := Store.loadAllDecks (c_decks r) st in
  let validation := ValidationService.validateDeck deckData existingDecks in
  if negb (ValidationService.isValid validation)
  then (st, Failure (ValidationService.errors validation))
  else
    let deck :=
      Deck.mk (c_id r)
        (JsString.trim (string_of (ValidationService.name deckData)))
        (description_text (ValidationService.description deckData))
        [] (c_createdAt r) (c_updatedAt r) in
    match Store.saveDeck (c_saved r) deck st with
    | Throw message => (st, Failure ["Failed to create deck: " +:+ message])
    | Return st1 => (st1, Success deck)
    end.

Definition getDeck (w : LocalStore.World) (deckId : Js.Value) (st : Store.t)
  : option Deck.t :=
  LocalStore.loadDeck w (Store.storage st) deckId.

Definition getFlashcardsInDeck (w : LocalStore.World) (deckId : Js.Value)
    (st : Store.t) : list Flashcard.t :=
  LocalStore.loadFlashcardsForDeck w (Store.storage st) deckId.

(** The loop of [deleteDeck]: one [deleteFlashcard] per flashcard, each with
    its own clock reading. It stops at the first call that throws and
    answers the store as the calls before left it. *)
Fixpoint deleteAll (clock : nat → Date) (flashcards : list Flashcard.t)
    (st : Store.t) : Store.t * option string :=
  match flashcards with
  | [] => (st, None)
  | flashcard :: rest =>
      match Store.deleteFlashcard (clock 0%nat)
              (Js.VString (Flashcard.id flashcard)) st with
      | Throw message => (st, Some message)
      | Return st1 => deleteAll (λ i, clock (S i)) rest st1
      end
  end.

Record DeleteReadings : Type := mkDeleteReadings {
  d_deck : LocalStore.World;         (* loadDeck *)
  d_flashcards : LocalStore.World;   (* loadFlashcardsForDeck *)
  d_each : nat → Date;               (* deleteFlashcard, per flashcard *)
  d_deleted : Date                   (* deleteDeck *)
}.

(** Payload: [deletedFlashcards]. *)
Definition deleteDeck (r : DeleteReadings) (deckId : Js.Value)
    (deleteFlashcards : bool) (st : Store.t) : Store.t * Result nat :=
  match LocalStore.loadDeck (d_deck r) (Store.storage st) deckId with
  | None => (st, Failure ["Deck not found"])
  | Some deck =>
      let flashcards :=
        LocalStore.loadFlashcardsForDeck (d_flashcards r) (Store.storage st)
          deckId in
      if deleteFlashcards then
        match deleteAll (d_each r) flashcards st with
        | (st1, Some message) =>
            (st1, Failure ["Failed to delete deck: " +:+ message])
        | (st1, None) =>
            match Store.deleteDeck (d_deleted r) deckId st1 with
            | Throw message =>
                (st1, Failure ["Failed to delete deck: " +:+ message])
            | Return st2 => (st2, Success (List.length flashcards))
            end
        end
      else if (0 <? List.length flashcards)%nat then
        (st, Failure ["Cannot delete deck: it contains "
                      +:+ pretty (List.length flashcards)
                      +:+ " flashcard(s). Delete flashcards first or use deleteFlashcards option."])
      else
        match Store.deleteDeck (d_deleted r) deckId st with
        | Throw message => (st, Failure ["Failed to delete deck: " +:+ message])
        | Return st2 => (st2, Success 0%nat)
        end
  end.

End DeckManager.

(** Readings for the samples. *)
Definition sample_create : FlashcardManager.CreateReadings :=
  FlashcardManager.mkCreateReadings sample_world "id-7" 1 2 3 sample_world 4 5.

Definition sample_delete : FlashcardManager.DeleteReadings :=
  FlashcardManager.mkDeleteReadings sample_world sample_world 1 2 3.

Definition sample_create_deck : DeckManager.CreateReadings :=
  DeckManager.mkCreateReadings sample_world "deck-9" 1 2 3.

Definition sample_delete_deck : DeckManager.DeleteReadings :=
  DeckManager.mkDeleteReadings sample_world sample_world (λ i, Z.of_nat i) 9.

(** * Facts about numbers *)

Section NumberFacts.

Lemma Qc_of_Z_plus (a b : Z) : (Qc_of_Z a + Qc_of_Z b)%Qc = Qc_of_Z (a + b).
Proof.
  apply Qc_is_canon. simpl. rewrite Qred_correct.
  unfold Qeq, Qplus. simpl. lia.
Qed.

Lemma Qc_of_Z_minus (a b : Z) : (Qc_of_Z a - Qc_of_Z b)%Qc = Qc_of_Z (a - b).
Proof.
  apply Qc_is_canon. simpl. rewrite !Qred_correct.
  unfold Qeq, Qplus. simpl. lia.
Qed.

Lemma lt_ofZ (a b : Z) : Js.lt (Js.ofZ a) (Js.ofZ b) = (a <? b).
Proof.
  unfold Js.lt, Js.ofZ, Qle_bool. simpl. rewrite !Z.mul_1_r.
  destruct (Z.leb_spec b a), (Z.ltb_spec a b); simpl; lia.
Qed.

Lemma ge_ofZ (a b : Z) : Js.ge (Js.ofZ a) (Js.ofZ b) = (b <=? a).
Proof. unfold Js.ge, Js.ofZ, Qle_bool. simpl. by rewrite !Z.mul_1_r. Qed.

Lemma succ_ofZ (z : Z) : Js.succ (Js.ofZ z) = Js.ofZ (z + 1).
Proof. unfold Js.succ, Js.ofZ. by rewrite Qc_of_Z_plus. Qed.

Lemma pred_ofZ (z : Z) : Js.pred (Js.ofZ z) = Js.ofZ (z - 1).
Proof. unfold Js.pred, Js.ofZ. by rewrite Qc_of_Z_minus. Qed.

Lemma succ_ofNat (n : nat) : Js.succ (Js.ofNat n) = Js.ofNat (S n).
Proof. unfold Js.ofNat. rewrite succ_ofZ. f_equal. lia. Qed.

Lemma ofZ_inj (a b : Z) : Js.ofZ a = Js.ofZ b → a = b.
Proof. unfold Js.ofZ. intros H. by injection H. Qed.

Lemma ofNat_inj (a b : nat) : Js.ofNat a = Js.ofNat b → a = b.
Proof. intros H%ofZ_inj. lia. Qed.

Lemma lt_ofNat (a b : nat) : Js.lt (Js.ofNat a) (Js.ofNat b) = bool_decide (a < b)%nat.
Proof.
  unfold Js.ofNat. rewrite lt_ofZ.
  destruct (Z.ltb_spec (Z.of_nat a) (Z.of_nat b)); case_bool_decide; lia.
Qed.

Lemma ge_ofNat (a b : nat) : Js.ge (Js.ofNat a) (Js.ofNat b) = bool_decide (b ≤ a)%nat.
Proof.
  unfold Js.ofNat. rewrite ge_ofZ.
  destruct (Z.leb_spec (Z.of_nat b) (Z.of_nat a)); case_bool_decide; lia.
Qed.

(** Below a finite bound, [>=] is the negation of [<]. *)
Lemma lt_not_ge (a b : Js.Number) : Js.lt a b = true → Js.ge a b = false.
Proof.
  unfold Js.lt, Js.ge. destruct a, b; try done. by intros ->%negb_true_iff.
Qed.

Lemma to_index_ofNat (n : nat) : Js.to_index (Js.ofNat n) = Some n.
Proof.
  unfold Js.to_index, Js.ofNat, Js.ofZ. simpl.
  rewrite decide_True by (split; [done | lia]). by rewrite Nat2Z.id.
Qed.

Lemma array_get_ofNat {A} (arr : list A) (n : nat) (a : A) :
  arr !! n = Some a → Js.array_get arr (Js.ofNat n) = Js.Obj a.
Proof. intros H. unfold Js.array_get. by rewrite to_index_ofNat, H. Qed.

Lemma Math_round_ofZ (z : Z) : Js.Math_round (Qc_of_Z z) = z.
Proof.
  unfold Js.Math_round.
  assert (Hq : (this (Qc_of_Z z + Q2Qc (1 # 2))%Qc == (2 * z + 1) # 2)%Q).
  { simpl. rewrite !Qred_correct. unfold Qeq, Qplus. simpl. lia. }
  rewrite Hq. unfold Qfloor. simpl. symmetry.
  apply Z.div_unique with (r := 1); lia.
Qed.

Lemma Qc_of_Z_nonzero (z : Z) : z ≠ 0 → Qc_of_Z z ≠ Q2Qc 0.
Proof.
  intros Hz H. apply Hz. injection H. auto.
Qed.

(** ** Rounding to a double *)

Lemma nearest_even_error (a b : Z) :
  0 < b → 2 * Z.abs (Js.nearest_even a b * b - a) ≤ b.
Proof.
  intros Hb. unfold Js.nearest_even.
  pose proof (Z.div_mod a b ltac:(lia)) as Hdiv.
  pose proof (Z.mod_pos_bound a b Hb) as Hmod.
  repeat match goal with
         | |- context [if ?c then _ else _] => destruct c eqn:?
         end; lia.
Qed.

Lemma nearest_even_exact (z b : Z) : 0 < b → Js.nearest_even (z * b) b = z.
Proof.
  intros Hb. unfold Js.nearest_even.
  rewrite Z.div_mul, Z.mod_mul by lia.
  destruct (Z.ltb_spec (2 * 0) b); [done | lia].
Qed.

Lemma log2_quotient_upper (a b t : Z) :
  0 < a → 0 < b → 0 ≤ t → a < b * 2 ^ t → Js.log2_quotient a b < t.
Proof.
  intros Ha Hb Ht Hlt. unfold Js.log2_quotient.
  pose proof (Z.log2_spec a Ha) as [Ha1 Ha2].
  pose proof (Z.log2_spec b Hb) as [Hb1 Hb2].
  pose proof (Z.log2_nonneg a) as Hla. pose proof (Z.log2_nonneg b) as Hlb.
  set (la := Z.log2 a) in *. set (lb := Z.log2 b) in *.
  destruct (Z.leb_spec (b * 2 ^ la) (a * 2 ^ lb)) as [Hle | Hgt].
  - destruct (Z.lt_ge_cases (la - lb) t) as [| Hge]; [done | exfalso].
    assert (H1 : 2 ^ (lb + t) ≤ 2 ^ la) by (apply Z.pow_le_mono_r; lia).
    rewrite Z.pow_add_r in H1 by lia.
    assert (0 < 2 ^ lb) by (apply Z.pow_pos_nonneg; lia).
    assert (0 < 2 ^ t) by (apply Z.pow_pos_nonneg; lia).
    nia.
  - destruct (Z.lt_ge_cases (la - lb - 1) t) as [| Hge]; [done | exfalso].
    assert (H1 : 2 ^ (Z.succ lb + t) ≤ 2 ^ la) by (apply Z.pow_le_mono_r; lia).
    rewrite Z.pow_add_r in H1 by lia.
    assert (0 < 2 ^ t) by (apply Z.pow_pos_nonneg; lia).
    nia.
Qed.

Lemma exponent_upper (a b t : Z) :
  0 < a → 0 < b → 0 ≤ t ≤ 53 → a < b * 2 ^ t →
  -1074 ≤ Js.exponent a b ≤ t - 53.
Proof.
  intros Ha Hb Ht Hlt. unfold Js.exponent.
  pose proof (log2_quotient_upper a b t Ha Hb ltac:(lia) Hlt). lia.
Qed.

Lemma round_positive_near (a b t : Z) :
  0 < a → 0 < b → 0 ≤ t ≤ 52 → a < b * 2 ^ t →
  let r := Js.round_positive a b in
  let D := 2 ^ (54 - t) in
  (Qnum r * b * D ≤ (a * D + b) * Z.pos (Qden r))
  ∧ ((a * D - b) * Z.pos (Qden r) ≤ Qnum r * b * D).
Proof.
  intros Ha Hb Ht Hlt. cbv zeta. unfold Js.round_positive.
  pose proof (exponent_upper a b t Ha Hb ltac:(lia) Hlt) as He.
  set (e := Js.exponent a b) in *.
  destruct (Z.leb_spec 0 e) as [| _]; [lia |].
  set (P := 2 ^ (- e)).
  assert (HP : 0 < P) by (apply Z.pow_pos_nonneg; lia).
  assert (HD : 0 < 2 ^ (54 - t)) by (apply Z.pow_pos_nonneg; lia).
  assert (HDP : 2 ^ (54 - t) ≤ 2 * P).
  { unfold P. rewrite <- (Z.pow_succ_r 2 (- e)) by lia.
    apply Z.pow_le_mono_r; lia. }
  pose proof (nearest_even_error (a * P) b Hb) as Herr.
  set (m := Js.nearest_even (a * P) b) in *.
  simpl. rewrite Z2Pos.id by done.
  set (D := 2 ^ (54 - t)) in *.
  split; nia.
Qed.

Lemma binary64_near (x : Qc) (t : Z) :
  0 ≤ t ≤ 52 →
  (- inject_Z (2 ^ t) < x)%Q → (x < inject_Z (2 ^ t))%Q →
  (x - (1 # Z.to_pos (2 ^ (54 - t))) <= Js.binary64 x)%Q
  ∧ (Js.binary64 x <= x + (1 # Z.to_pos (2 ^ (54 - t))))%Q.
Proof.
  intros Ht Hlo Hhi.
  assert (HD : 0 < 2 ^ (54 - t)) by (apply Z.pow_pos_nonneg; lia).
  assert (HT : 0 < 2 ^ t) by (apply Z.pow_pos_nonneg; lia).
  destruct x as [[n d] Hc]. unfold Js.binary64. simpl in *.
  unfold Qlt in Hlo, Hhi. simpl in Hlo, Hhi.
  destruct n as [| a | a]; simpl.
  - unfold Qle. simpl. rewrite Z2Pos.id by done. lia.
  - rewrite Qred_correct.
    destruct (round_positive_near (Z.pos a) (Z.pos d) t) as [H1 H2];
      [lia | lia | lia | lia |].
    destruct (Js.round_positive (Z.pos a) (Z.pos d)) as [rn rd].
    simpl in H1, H2. unfold Qle. simpl. rewrite !Pos2Z.inj_mul, Z2Pos.id by done.
    split; nia.
  - rewrite Qred_correct.
    destruct (round_positive_near (Z.pos a) (Z.pos d) t) as [H1 H2];
      [lia | lia | lia | lia |].
    destruct (Js.round_positive (Z.pos a) (Z.pos d)) as [rn rd].
    simpl in H1, H2. unfold Qle. simpl. rewrite !Pos2Z.inj_mul, Z2Pos.id by done.
    split; nia.
Qed.

(** A number whose denominator divides 2^(53 - t) and whose magnitude is
    below 2^t is a double. *)
Lemma binary64_exact (x : Qc) (t : Z) :
  0 ≤ t ≤ 53 →
  (- inject_Z (2 ^ t) < x)%Q → (x < inject_Z (2 ^ t))%Q →
  (Z.pos (Qden x) | 2 ^ (53 - t)) →
  Js.binary64 x = x.
Proof.
  intros Ht Hlo Hhi Hden.
  assert (HT : 0 < 2 ^ t) by (apply Z.pow_pos_nonneg; lia).
  assert (Hpos : ∀ a d : positive,
    Z.pos a < Z.pos d * 2 ^ t → (Z.pos d | 2 ^ (53 - t)) →
    (Js.round_positive (Z.pos a) (Z.pos d) == Z.pos a # d)%Q).
  { intros a d Hlt [c Hc]. unfold Js.round_positive.
    pose proof (exponent_upper (Z.pos a) (Z.pos d) t
                  ltac:(lia) ltac:(lia) Ht Hlt) as He.
    set (e := Js.exponent (Z.pos a) (Z.pos d)) in *.
    destruct (Z.leb_spec 0 e) as [Hpos | Hneg].
    - assert (e = 0) as -> by lia. assert (t = 53) as -> by lia.
      assert (Hd : Z.pos d = 1).
      { apply Z.divide_1_r_nonneg; [lia | by exists c]. }
      assert (d = 1%positive) as -> by lia.
      change (2 ^ 0) with 1. rewrite !Z.mul_1_r.
      rewrite <- (Z.mul_1_r (Z.pos a)) at 1.
      by rewrite nearest_even_exact.
    - assert (HP : 0 < 2 ^ (- e)) by (apply Z.pow_pos_nonneg; lia).
      assert (Hsplit : 2 ^ (- e) = 2 ^ (- e - (53 - t)) * 2 ^ (53 - t)).
      { rewrite <- Z.pow_add_r by lia. f_equal. lia. }
      assert (Hmul : Z.pos a * 2 ^ (- e)
                     = Z.pos a * 2 ^ (- e - (53 - t)) * c * Z.pos d).
      { rewrite Hsplit, Hc. lia. }
      rewrite Hmul, nearest_even_exact by lia.
      unfold Qeq. simpl. rewrite Z2Pos.id by done. rewrite Hsplit, Hc. lia. }
  destruct x as [[n d] Hc]. unfold Js.binary64. simpl in *.
  unfold Qlt in Hlo, Hhi. simpl in Hlo, Hhi.
  destruct n as [| a | a]; [done | |]; apply Qc_is_canon; simpl;
    rewrite Qred_correct, Hpos by (done || lia); done.
Qed.

Lemma Qc_quotient (a b : Z) :
  0 < b → (this (Qc_of_Z a / Qc_of_Z b)%Qc == a # Z.to_pos b)%Q.
Proof.
  intros Hb. unfold Qcdiv, Qcmult, Qcinv. simpl. rewrite !Qred_correct.
  destruct b as [| p | p]; try lia. simpl.
  unfold Qeq, Qmult, Qinv. simpl. lia.
Qed.

Lemma den_divides (x : Qc) (z : Z) (d : positive) :
  (this x == z # d)%Q → (Z.pos (Qden x) | Z.pos d).
Proof.
  destruct x as [[n b] Hc]. simpl. unfold Qeq. simpl. intros Heq.
  apply Qred_iff in Hc. simpl in Hc.
  apply Z.gauss with (m := n).
  - exists z. lia.
  - by rewrite Z.gcd_comm.
Qed.

Lemma binary64_ofZ (z : Z) :
  - 2 ^ 53 < z < 2 ^ 53 → Js.binary64 (Qc_of_Z z) = Qc_of_Z z.
Proof.
  intros Hz. apply (binary64_exact _ 53); [lia | | |].
  - unfold Qlt. simpl. lia.
  - unfold Qlt. simpl. lia.
  - simpl. by exists 1.
Qed.

Lemma Qfloor_unique (y : Q) (j : Z) :
  (inject_Z j <= y)%Q → (y < inject_Z (j + 1))%Q → Qfloor y = j.
Proof.
  intros Hlo Hhi.
  pose proof (Qfloor_le y) as H1. pose proof (Qlt_floor y) as H2.
  assert (Ha : (inject_Z (Qfloor y) < inject_Z (j + 1))%Q) by lra.
  assert (Hb : (inject_Z j < inject_Z (Qfloor y + 1))%Q) by lra.
  rewrite <- Zlt_Qlt in Ha, Hb. lia.
Qed.

(** [Math.round((e - s) / 1000)] for dates less than 2^53 milliseconds
    apart. *)
Lemma duration_seconds (e s : Z) :
  - 2 ^ 53 < e - s < 2 ^ 53 →
  Js.Math_round (Js.div (Js.sub (Qc_of_Z e) (Qc_of_Z s)) (Qc_of_Z 1000))
  = (e - s + 500) / 1000.
Proof.
  intros Hms. unfold Js.sub.
  assert (Hsub : (Qc_of_Z e - Qc_of_Z s)%Qc = Qc_of_Z (e - s)).
  { apply Qc_is_canon. simpl. rewrite !Qred_correct.
    unfold Qeq, Qplus. simpl. lia. }
  rewrite Hsub, binary64_ofZ by done.
  set (ms := e - s) in *. set (j := (ms + 500) / 1000).
  assert (Hj : 1000 * j ≤ ms + 500 < 1000 * j + 1000).
  { unfold j. pose proof (Z.div_mod (ms + 500) 1000 ltac:(lia)).
    pose proof (Z.mod_pos_bound (ms + 500) 1000 ltac:(lia)). lia. }
  unfold Js.div. set (x := (Qc_of_Z ms / Qc_of_Z 1000)%Qc).
  assert (Hx : (this x == ms # 1000)%Q) by (by apply Qc_quotient).
  assert (Hlo : (- inject_Z (2 ^ 44) < x)%Q).
  { rewrite Hx. unfold Qlt. simpl. lia. }
  assert (Hhi : (x < inject_Z (2 ^ 44))%Q).
  { rewrite Hx. unfold Qlt. simpl. lia. }
  unfold Js.Math_round.
  assert (Hhalf : ∀ q : Qc, (this (q + Q2Qc (1 # 2))%Qc == q + (1 # 2))%Q).
  { intros q. simpl. by rewrite !Qred_correct. }
  rewrite Hhalf. apply Qfloor_unique.
  - destruct (decide (ms + 500 = 1000 * j)) as [Heq | Hne].
    + rewrite (binary64_exact x 44); [| lia | done | done |].
      * rewrite Hx. unfold Qle, Qplus. simpl. lia.
      * apply Z.divide_trans with 2; [| by exists (2 ^ 8)].
        apply (den_divides x (2 * j - 1) 2).
        rewrite Hx. unfold Qeq. simpl. lia.
    + destruct (binary64_near x 44) as [H1 _]; [lia | done | done |].
      change (Z.to_pos (2 ^ (54 - 44))) with 1024%positive in H1.
      assert (Hq : (inject_Z j - (1 # 2) + (1 # 1000) <= x)%Q).
      { rewrite Hx. unfold Qle, Qplus, Qminus, Qopp. simpl. lia. }
      lra.
  - destruct (binary64_near x 44) as [_ H2]; [lia | done | done |].
    change (Z.to_pos (2 ^ (54 - 44))) with 1024%positive in H2.
    assert (Hq : (x <= inject_Z j + (1 # 2) - (1 # 1000))%Q).
    { rewrite Hx. unfold Qle, Qplus, Qminus, Qopp. simpl. lia. }
    assert (Hj1 : (inject_Z (j + 1) == inject_Z j + 1)%Q).
    { unfold Qeq, Qplus. simpl. lia. }
    lra.
Qed.

(** A full count makes one hundred percent. *)
Lemma percent_full (n : nat) :
  (0 < n)%nat →
  Js.Math_round (Js.mul (Js.div (StudySession.Qc_of_nat n) (StudySession.Qc_of_nat n)) (Qc_of_Z 100)) = 100.
Proof.
  intros Hn. unfold Js.div, Js.mul, Qcdiv. rewrite Qcmult_inv_r.
  - assert (Hone : 1%Qc = Qc_of_Z 1) by (by apply Qc_is_canon).
    rewrite Hone, binary64_ofZ by lia.
    rewrite <- Hone, Qcmult_1_l, binary64_ofZ by lia.
    by vm_compute.
  - unfold StudySession.Qc_of_nat. intros H. injection H. lia.
Qed.

(** The percentage is an integer nearest to the exact one: it differs from
    [100 * k / n] by at most one half. *)
Lemma percent_nearest (k n : nat) :
  (0 < n)%nat → (k ≤ n)%nat → Z.of_nat n < 2 ^ 32 →
  let P := Js.Math_round
             (Js.mul (Js.div (StudySession.Qc_of_nat k) (StudySession.Qc_of_nat n)) (Qc_of_Z 100)) in
  (2 * P - 1) * Z.of_nat n ≤ 200 * Z.of_nat k ≤ (2 * P + 1) * Z.of_nat n.
Proof.
  intros Hn Hk Hbound. cbv zeta. unfold Js.div, Js.mul, StudySession.Qc_of_nat.
  set (x := (Qc_of_Z (Z.of_nat k) / Qc_of_Z (Z.of_nat n))%Qc).
  assert (Hx : (this x == Z.of_nat k # Z.to_pos (Z.of_nat n))%Q)
    by (apply Qc_quotient; lia).
  assert (Hx0 : (0 <= x)%Q) by (rewrite Hx; unfold Qle; simpl; lia).
  assert (Hx1 : (x <= 1)%Q).
  { rewrite Hx. unfold Qle. simpl. rewrite Z2Pos.id by lia. lia. }
  destruct (binary64_near x 1) as [Hr1 Hr2];
    [lia | change (inject_Z (2 ^ 1)) with (2 # 1); lra
     | change (inject_Z (2 ^ 1)) with (2 # 1); lra |].
  change (Z.to_pos (2 ^ (54 - 1))) with 9007199254740992%positive in Hr1, Hr2.
  set (r := Js.binary64 x) in *.
  set (y := (r * Qc_of_Z 100)%Qc).
  assert (Hy : (this y == r * 100)%Q).
  { unfold y. simpl. rewrite Qred_correct.
    unfold Qeq, Qmult. simpl. lia. }
  destruct (binary64_near y 7) as [Hp1 Hp2];
    [lia | rewrite Hy; change (inject_Z (2 ^ 7)) with (128 # 1); lra
     | rewrite Hy; change (inject_Z (2 ^ 7)) with (128 # 1); lra |].
  change (Z.to_pos (2 ^ (54 - 7))) with 140737488355328%positive in Hp1, Hp2.
  set (p := Js.binary64 y) in *.
  unfold Js.Math_round.
  assert (Hhalf : (this (p + Q2Qc (1 # 2))%Qc == p + (1 # 2))%Q).
  { simpl. by rewrite !Qred_correct. }
  rewrite Hhalf.
  pose proof (Qfloor_le (p + (1 # 2))) as H1.
  pose proof (Qlt_floor (p + (1 # 2))) as H2.
  set (P := Qfloor (p + (1 # 2))) in *.
  assert (HP1 : (inject_Z (P + 1) == inject_Z P + 1)%Q).
  { unfold Qeq, Qplus. simpl. lia. }
  assert (Hlo : (inject_Z P - (1 # 2) - (164 # 9007199254740992)
                 <= 100 * (Z.of_nat k # Z.to_pos (Z.of_nat n)))%Q).
  { rewrite <- Hx. lra. }
  assert (Hhi : (100 * (Z.of_nat k # Z.to_pos (Z.of_nat n))
                 <= inject_Z P + (1 # 2) + (164 # 9007199254740992))%Q).
  { rewrite <- Hx. lra. }
  unfold Qle, Qplus, Qminus, Qopp, Qmult in Hlo, Hhi. simpl in Hlo, Hhi.
  rewrite ?Pos2Z.inj_mul, ?Z2Pos.id in Hlo, Hhi by lia.
  lia.
Qed.

End NumberFacts.

(** * Facts about the reviewed set *)

Section ReviewedFacts.

Lemma elem_of_indices (n : nat) (x : Js.Number) :
  x ∈ indices n ↔ ∃ i : nat, (i < n)%nat ∧ x = Js.ofNat i.
Proof.
  unfold indices. rewrite elem_of_list_to_set, list_elem_of_fmap.
  split.
  - intros (i & -> & Hi%elem_of_seq). exists i. split; [lia | done].
  - intros (i & Hi & ->). exists i. split; [done |]. apply elem_of_seq. lia.
Qed.

Lemma indices_S (n : nat) : indices (S n) = {[ Js.ofNat n ]} ∪ indices n.
Proof.
  apply set_eq. intros x.
  rewrite elem_of_union, elem_of_singleton, !elem_of_indices. split.
  - intros (i & Hi & ->). destruct (decide (i = n)) as [-> | Hne]; [by left |].
    right. exists i. split; [lia | done].
  - intros [-> | (i & Hi & ->)]; [exists n | exists i]; split; (lia || done).
Qed.

Lemma size_indices (n : nat) : size (indices n) = n.
Proof.
  unfold indices. rewrite size_list_to_set.
  - by rewrite length_fmap, length_seq.
  - apply NoDup_fmap_2; [intros a b; apply ofNat_inj | apply NoDup_seq].
Qed.

Lemma add_all_union (n : nat) (r : gset Js.Number) :
  StudySession.add_all n r = r ∪ indices n.
Proof.
  unfold StudySession.add_all, indices.
  generalize (seq 0 n). intros l. revert r.
  induction l as [| i l IH]; intros r; simpl.
  - set_solver.
  - rewrite IH. set_solver.
Qed.

Lemma add_all_within (n : nat) (r : gset Js.Number) :
  r ⊆ indices n → StudySession.add_all n r = indices n.
Proof. intros H. rewrite add_all_union. set_solver. Qed.

End ReviewedFacts.

(** * Facts about sessions *)

Section SessionFacts.

Import StudySession.

Lemma integral_new now d cards : integral (new now d cards).
Proof. split; [by exists 0%nat | simpl; set_solver]. Qed.

Lemma flashcards_nextFlashcard now s :
  flashcards (nextFlashcard now s).1 = flashcards s.
Proof.
  unfold nextFlashcard. destruct (isComplete s); [done |].
  destruct (Js.lt _ _); simpl; destruct (Js.ge _ _); done.
Qed.

Lemma integral_nextFlashcard now s :
  integral s → integral (nextFlashcard now s).1.
Proof.
  intros [[j Hj] Hr]. unfold nextFlashcard.
  destruct (isComplete s); [by split; [exists j |] |].
  unfold length. rewrite Hj, lt_ofNat.
  case_bool_decide as Hlt; simpl; rewrite Hj, succ_ofNat, ge_ofNat;
    case_bool_decide; simpl; (split; [by exists (S j) |]); simpl;
    rewrite ?add_all_union; try set_solver.
  - apply union_least; [| set_solver].
    apply union_least; [| done].
    apply singleton_subseteq_l, elem_of_indices. by exists j.
  - apply union_least; [| done].
    apply singleton_subseteq_l, elem_of_indices. by exists j.
Qed.

Lemma flashcards_advance clock s : flashcards (advance clock s) = flashcards s.
Proof.
  revert s. induction clock as [| now clock IH]; intros s; [done |].
  unfold advance in *. simpl. rewrite IH. apply flashcards_nextFlashcard.
Qed.

Lemma integral_advance clock s : integral s → integral (advance clock s).
Proof.
  revert s. induction clock as [| now clock IH]; intros s Hs; [done |].
  unfold advance in *. simpl. by apply IH, integral_nextFlashcard.
Qed.

Lemma underway_0 start d cards : new start d cards = underway start d cards 0.
Proof. done. Qed.

(** One call from [k] reviewed cards, while a card remains after it. *)
Lemma nextFlashcard_underway start d cards k now :
  (S k < List.length cards)%nat →
  nextFlashcard now (underway start d cards k)
  = (underway start d cards (S k), true).
Proof.
  intros Hk. unfold nextFlashcard, underway, length. simpl.
  rewrite lt_ofNat, bool_decide_eq_true_2 by lia. simpl.
  rewrite succ_ofNat, ge_ofNat, bool_decide_eq_false_2 by lia.
  unfold set_currentIndex, set_reviewedCards. simpl.
  by rewrite indices_S.
Qed.

(** The call on the last card completes the session. *)
Lemma nextFlashcard_last start d cards k now :
  S k = List.length cards →
  nextFlashcard now (underway start d cards k)
  = (mk d cards (Js.ofNat (S k)) start (Some now) true (indices (S k)), false).
Proof.
  intros Hk. unfold nextFlashcard, underway, length. simpl.
  rewrite lt_ofNat, bool_decide_eq_true_2 by lia. simpl.
  rewrite succ_ofNat, ge_ofNat, bool_decide_eq_true_2 by lia.
  unfold completeSession. simpl. f_equal. f_equal.
  rewrite <- Hk, add_all_within; by rewrite indices_S.
Qed.

Lemma advance_underway start d cards j clock :
  (j + List.length clock < List.length cards)%nat →
  advance clock (underway start d cards j)
  = underway start d cards (j + List.length clock).
Proof.
  revert j. induction clock as [| now clock IH]; intros j Hj; simpl in *.
  - by rewrite Nat.add_0_r.
  - unfold advance in *. simpl.
    rewrite nextFlashcard_underway by lia. simpl.
    rewrite IH by lia. f_equal. lia.
Qed.

Lemma nextFlashcard_complete now s :
  isComplete s = true → nextFlashcard now s = (s, false).
Proof. intros H. unfold nextFlashcard. by rewrite H. Qed.

End SessionFacts.

(** * Sessions on the sample deck *)

Section Examples.

Import StudySession.

Example sample_manager_session :
  StudyManager.currentSession sample_manager = Some fresh_session.
Proof. reflexivity. Qed.

Example current_after_construction :
  getCurrentFlashcard fresh_session = Js.Obj (card "a").
Proof. reflexivity. Qed.

Example progress_after_one_call :
  let p := getProgress (advance [10] fresh_session) in
  p_reviewedCount p = 1%nat ∧ p_percentComplete p = 33
  ∧ p_hasNext p = true ∧ p_hasPrevious p = true.
Proof. by vm_compute. Qed.

Example last_card_has_no_next :
  let p := getProgress (advance [10; 20] fresh_session) in
  p_hasNext p = false ∧ p_isComplete p = false.
Proof. by vm_compute. Qed.

Example summary_after_two_calls :
  let r := getSessionSummary 2600 (advance [10; 20] fresh_session) in
  s_reviewedCards r = 2%nat ∧ s_totalCards r = 3%nat
  ∧ s_isComplete r = false ∧ s_duration r = 3.
Proof. by vm_compute. Qed.

Example third_call_completes :
  nextFlashcard 30 (advance [10; 20] fresh_session)
  = (mk (Js.VString "deck-1") [card "a"; card "b"; card "c"] (Js.ofZ 3) 0
       (Some 30) true (indices 3), false).
Proof.
  unfold fresh_session.
  rewrite underway_0, advance_underway by (simpl; lia).
  by rewrite nextFlashcard_last.
Qed.

(** A fractional cursor is marked reviewed like any other, so that the
    reviewed set can outgrow the deck. *)
Example fraction_is_marked_reviewed :
  let s := (jumpToFlashcard one_and_a_half fresh_session).1 in
  getCurrentFlashcard s = Js.Undefined
  ∧ p_reviewedCount (getProgress (completeSession 20 (advance [10] s))) = 4%nat.
Proof. by vm_compute. Qed.

(** [binary64] against the floating-point arithmetic of the Standard
    Library, on the quotient 23 / 40, on its product with 100, on the
    quotients 1 / 3 and -7 / 3 and on the difference of the last and the
    first valid date. *)
Example binary64_agrees_with_the_library :
  let f := Js.to_spec_float in
  let quotient := SFdiv 53 1024 (f 23) (f 40) in
  let product := SFmul 53 1024 quotient (f 100) in
  let third := SFdiv 53 1024 (f 1) (f 3) in
  let negative := SFdiv 53 1024 (f (-7)) (f 3) in
  let difference :=
    SFsub 53 1024 (f 8640000000000000) (f (-8639999999999999)) in
  (this (Js.div (Qc_of_Z 23) (Qc_of_Z 40)) == Js.of_spec_float quotient)%Q
  ∧ (this (Js.mul (Js.div (Qc_of_Z 23) (Qc_of_Z 40)) (Qc_of_Z 100))
     == Js.of_spec_float product)%Q
  ∧ (this (Js.div (Qc_of_Z 1) (Qc_of_Z 3)) == Js.of_spec_float third)%Q
  ∧ (this (Js.div (Qc_of_Z (-7)) (Qc_of_Z 3)) == Js.of_spec_float negative)%Q
  ∧ (this (Js.sub (Qc_of_Z 8640000000000000) (Qc_of_Z (-8639999999999999)))
     == Js.of_spec_float difference)%Q.
Proof. by vm_compute. Qed.

(** 23 reviewed cards of 40 are 57.49999999999999 percent in doubles, which
    [Math.round] turns into 57; the exact 57.5 would become 58. *)
Example percent_of_23_of_40 :
  let s := advance (replicate 23 10)
             (new 0 (Js.VString "deck-1") (replicate 40 (card "a"))) in
  p_reviewedCount (getProgress s) = 23%nat
  ∧ p_percentComplete (getProgress s) = 57.
Proof. by vm_compute. Qed.

(** Between the first and the last valid date the difference in
    milliseconds, 17279999999999999, is rounded to 17280000000000000. *)
Example duration_between_distant_dates :
  s_duration
    (getSessionSummary 8640000000000000
       (new (-8639999999999999) (Js.VString "deck-1") [card "a"]))
  = 17280000000000.
Proof. by vm_compute. Qed.

Example not_a_number_reaches_the_session :
  StudyManager.jumpToFlashcard (Js.VNumber Js.NaN) sample_manager
  = (sample_manager,
     StudyManager.Failure ["Invalid flashcard index or session is complete"]).
Proof. reflexivity. Qed.

End Examples.

(** * Properties of sessions and of the manager *)

Section Properties.

Import StudySession.

Lemma advance_snoc clock now s :
  advance (clock ++ [now]) s = (nextFlashcard now (advance clock s)).1.
Proof. unfold advance, run. by rewrite fmap_app, foldl_app. Qed.

Lemma advance_take start d cards clock k :
  (k < List.length cards)%nat → (k ≤ List.length clock)%nat →
  advance (take k clock) (new start d cards) = underway start d cards k.
Proof.
  intros Hk Hc.
  rewrite underway_0, advance_underway; rewrite length_take; [| lia].
  f_equal. lia.
Qed.

(** C1. For a session over N >= 1 cards, N calls of [nextFlashcard] complete
    it on the N-th call and on no earlier one: after k < N calls it is not
    complete, after N it is. The call number k+1 finds the cursor at k, marks
    k reviewed, moves the cursor to k+1, answers true while a card remains
    and false on the last card. On a complete session the call changes
    nothing and answers false. *)
Theorem advance_completes_on_last_call
    (start : Date) (d : Js.Value) (cards : list Flashcard.t) (clock : list Date) :
  (1 ≤ List.length cards)%nat →
  List.length clock = List.length cards →
  let s0 := new start d cards in
  (∀ k, (k < List.length cards)%nat → isComplete (advance (take k clock) s0) = false)
  ∧ isComplete (advance clock s0) = true
  ∧ (∀ k now, clock !! k = Some now →
       let s := advance (take k clock) s0 in
       let r := nextFlashcard now s in
       currentIndex s = Js.ofNat k
       ∧ currentIndex s ∈ reviewedCards r.1
       ∧ currentIndex r.1 = Js.succ (currentIndex s)
       ∧ isComplete r.1 = bool_decide (S k = List.length cards)%nat
       ∧ r.2 = bool_decide (S k < List.length cards)%nat)
  ∧ (∀ now s, isComplete s = true → nextFlashcard now s = (s, false)).
Proof.
  intros HN Hclock s0.
  assert (Hstep : ∀ k now, clock !! k = Some now →
    let s := advance (take k clock) s0 in
    let r := nextFlashcard now s in
    currentIndex s = Js.ofNat k
    ∧ currentIndex s ∈ reviewedCards r.1
    ∧ currentIndex r.1 = Js.succ (currentIndex s)
    ∧ isComplete r.1 = bool_decide (S k = List.length cards)%nat
    ∧ r.2 = bool_decide (S k < List.length cards)%nat).
  { intros k now Hk%lookup_lt_Some. simpl. unfold s0.
    rewrite advance_take by lia.
    destruct (decide (S k = List.length cards)) as [Hlast | Hmore].
    - rewrite nextFlashcard_last by done. simpl.
      rewrite succ_ofNat, bool_decide_eq_true_2, bool_decide_eq_false_2 by lia.
      repeat split. rewrite indices_S. set_solver.
    - rewrite nextFlashcard_underway by lia. simpl.
      rewrite succ_ofNat, bool_decide_eq_false_2, bool_decide_eq_true_2 by lia.
      repeat split. rewrite indices_S. set_solver. }
  split; [| split; [| split]].
  - intros k Hk. unfold s0. by rewrite advance_take by lia.
  - destruct (lookup_lt_is_Some_2 clock (List.length cards - 1))
      as [now Hnow]; [lia |].
    rewrite <- (take_drop_middle clock _ now Hnow) at 1.
    rewrite drop_ge, advance_snoc by lia.
    destruct (Hstep _ _ Hnow) as (_ & _ & _ & -> & _).
    apply bool_decide_eq_true_2. lia.
  - exact Hstep.
  - apply nextFlashcard_complete.
Qed.

Lemma advance_completes_on_last_call_witness :
  isComplete
    (advance [10; 20; 30]
       (new 0 (Js.VString "deck-1") [card "a"; card "b"; card "c"]))
  = true.
Proof.
  apply (advance_completes_on_last_call 0 (Js.VString "deck-1")
           [card "a"; card "b"; card "c"] [10; 20; 30]); simpl; [lia | reflexivity].
Defined.

(** C2, as stated, fails: [completeSession] stores the time of the call in
    [endTime] whether or not one was stored before, so a second call on a
    session completed at time 10 changes the session. *)
Lemma completeSession_overwrites_endTime :
  let s := completeSession 10 (new 0 (Js.VString "deck-1") [card "a"]) in
  endTime s = Some 10
  ∧ endTime (completeSession 20 s) = Some 20
  ∧ completeSession 20 s ≠ s.
Proof.
  simpl. split; [done |]. split; [done |].
  intros H. apply (f_equal endTime) in H. discriminate H.
Qed.

(** C2, amended. [completeSession] makes the session complete whatever the
    cursor is, which it leaves in place; it stores the time of the call in
    [endTime] and marks every index below N reviewed. Repeating the call
    changes [endTime] and nothing else. After it, for any number of
    [nextFlashcard] calls made before on a new session, the progress reports
    100 percent and a complete session. *)
Theorem completeSession_completes :
  (∀ now s,
     let s' := completeSession now s in
     isComplete s' = true
     ∧ endTime s' = Some now
     ∧ currentIndex s' = currentIndex s
     ∧ ∀ i : nat, (i < List.length (flashcards s))%nat →
         Js.ofNat i ∈ reviewedCards s')
  ∧ (∀ now now' s,
       completeSession now' (completeSession now s)
       = set_endTime (Some now') (completeSession now s))
  ∧ (∀ start d cards clock now,
       let s' := completeSession now (advance clock (new start d cards)) in
       p_percentComplete (getProgress s') = 100
       ∧ p_isComplete (getProgress s') = true).
Proof.
  split; [| split].
  - intros now s. simpl. repeat split.
    intros i Hi. rewrite add_all_union, elem_of_union, elem_of_indices.
    right. by exists i.
  - intros now now' s. unfold completeSession, set_endTime. simpl.
    f_equal. rewrite !add_all_union. set_solver.
  - intros start d cards clock now. simpl. split; [| done].
    destruct (integral_advance clock (new start d cards)) as [_ Hr];
      [apply integral_new |].
    rewrite add_all_within by done. rewrite size_indices.
    destruct (Nat.ltb_spec 0
                (List.length (flashcards (advance clock (new start d cards)))));
      [by apply percent_full | done].
Qed.

Lemma completeSession_completes_witness :
  p_percentComplete
    (getProgress
       (completeSession 20
          (advance [10]
             (new 0 (Js.VString "deck-1") [card "a"; card "b"; card "c"]))))
  = 100.
Proof.
  destruct completeSession_completes as (_ & _ & H).
  apply (H 0 (Js.VString "deck-1") [card "a"; card "b"; card "c"] [10] 20).
Defined.

(** C3, as stated, fails: 1.5 is a number and is not below 0, so the manager
    hands it to the session, which accepts it on a deck of three cards. *)
Lemma jumpToFlashcard_accepts_fraction :
  let r := StudyManager.jumpToFlashcard (Js.VNumber one_and_a_half) sample_manager in
  r.2 = StudyManager.Success ()
  ∧ (currentIndex <$> StudyManager.currentSession r.1) = Some one_and_a_half
  ∧ r.1 ≠ sample_manager.
Proof.
  split; [reflexivity |]. split; [reflexivity |].
  intros H. apply (f_equal (λ m, currentIndex <$> StudyManager.currentSession m)) in H.
  vm_compute in H. discriminate H.
Qed.

(** C3, amended. With a session current, [jumpToFlashcard] of the manager
    fails with its own message, before the session is asked and leaving the
    manager as it was, whenever the index is not of type number or is below
    0. Every other number is handed to the session, whose answer decides. *)
Theorem jumpToFlashcard_guard
    (index : Js.Value) (m : StudyManager.t) (session : StudySession.t) :
  StudyManager.currentSession m = Some session →
  ((Js.typeof index ≠ "number"
    ∨ (∃ n, index = Js.VNumber n ∧ Js.lt n (Js.ofZ 0) = true)) →
   StudyManager.jumpToFlashcard index m
   = (m, StudyManager.Failure ["Index must be a non-negative number"]))
  ∧ (∀ n, index = Js.VNumber n → Js.lt n (Js.ofZ 0) = false →
     StudyManager.jumpToFlashcard index m
     = (StudyManager.set_currentSession
          (Some (jumpToFlashcard n session).1) m,
        if (jumpToFlashcard n session).2
        then StudyManager.Success ()
        else StudyManager.Failure
               ["Invalid flashcard index or session is complete"])).
Proof.
  intros Hs. unfold StudyManager.jumpToFlashcard. rewrite Hs. split.
  - intros [Hty | (n & -> & Hneg)].
    + by destruct index.
    + by rewrite Hneg.
  - intros n -> Hpos. rewrite Hpos.
    by destruct (jumpToFlashcard n session) as [s' []].
Qed.

Lemma jumpToFlashcard_guard_witness :
  StudyManager.jumpToFlashcard (Js.VNumber (Js.ofZ (-1))) sample_manager
  = (sample_manager,
     StudyManager.Failure ["Index must be a non-negative number"])
  ∧ StudyManager.jumpToFlashcard (Js.VString "1") sample_manager
    = (sample_manager,
       StudyManager.Failure ["Index must be a non-negative number"]).
Proof.
  split.
  - apply (jumpToFlashcard_guard (Js.VNumber (Js.ofZ (-1))) sample_manager
             (new 0 (Js.VString "deck-1") [card "a"; card "b"; card "c"]));
      [reflexivity |].
    right. exists (Js.ofZ (-1)). split; reflexivity.
  - apply (jumpToFlashcard_guard (Js.VString "1") sample_manager
             (new 0 (Js.VString "deck-1") [card "a"; card "b"; card "c"]));
      [reflexivity |].
    left. discriminate.
Defined.

(** C4. [jumpToFlashcard] of the session succeeds exactly when the session is
    not complete and 0 <= index < N. It then moves the cursor to the index
    and changes nothing else, so that the current card is [flashcards[index]];
    otherwise it leaves the session as it was. It never changes
    [isComplete], also when the index is the last one. In particular every
    integer i with 0 <= i < N is accepted on a session that is not complete
    and makes card i current, while -1 and N are refused. *)
Theorem jumpToFlashcard_session (index : Js.Number) (s : StudySession.t) :
  let r := jumpToFlashcard index s in
  (r.2 = true ↔
     isComplete s = false
     ∧ Js.ge index (Js.ofZ 0) = true ∧ Js.lt index (length s) = true)
  ∧ (r.2 = true →
       r.1 = set_currentIndex index s
       ∧ getCurrentFlashcard r.1 = Js.array_get (flashcards s) index)
  ∧ (r.2 = false → r.1 = s)
  ∧ isComplete r.1 = isComplete s
  ∧ (∀ i : nat, (i < List.length (flashcards s))%nat → isComplete s = false →
       jumpToFlashcard (Js.ofNat i) s = (set_currentIndex (Js.ofNat i) s, true)
       ∧ ∃ c, flashcards s !! i = Some c
              ∧ getCurrentFlashcard (jumpToFlashcard (Js.ofNat i) s).1 = Js.Obj c)
  ∧ jumpToFlashcard (Js.ofZ (-1)) s = (s, false)
  ∧ jumpToFlashcard (length s) s = (s, false).
Proof.
  assert (Hcur : ∀ j, isComplete s = false → Js.lt j (length s) = true →
    getCurrentFlashcard (set_currentIndex j s) = Js.array_get (flashcards s) j).
  { intros j Hc Hlt. unfold getCurrentFlashcard, length in *. simpl.
    by rewrite Hc, (lt_not_ge _ _ Hlt). }
  simpl. unfold jumpToFlashcard.
  split; [| split; [| split; [| split; [| split; [| split]]]]].
  - destruct (Js.ge index (Js.ofZ 0)), (Js.lt index (length s)), (isComplete s);
      simpl; naive_solver.
  - destruct (Js.ge index (Js.ofZ 0)) eqn:Hge, (Js.lt index (length s)) eqn:Hlt,
      (isComplete s) eqn:Hc; simpl; try done.
    intros _. split; [done |]. by apply Hcur.
  - by destruct (Js.ge index (Js.ofZ 0) && Js.lt index (length s) && negb (isComplete s)).
  - by destruct (Js.ge index (Js.ofZ 0) && Js.lt index (length s) && negb (isComplete s)).
  - intros i Hi Hc.
    assert (Hge : Js.ge (Js.ofNat i) (Js.ofZ 0) = true).
    { change (Js.ofZ 0) with (Js.ofNat 0). rewrite ge_ofNat.
      apply bool_decide_eq_true_2. lia. }
    assert (Hlt : Js.lt (Js.ofNat i) (length s) = true).
    { unfold length. rewrite lt_ofNat. by apply bool_decide_eq_true_2. }
    rewrite Hge, Hlt, Hc. simpl. split; [done |].
    destruct (lookup_lt_is_Some_2 (flashcards s) i Hi) as [c Hcard].
    exists c. split; [done |]. rewrite Hcur by done. by apply array_get_ofNat.
  - by rewrite ge_ofZ.
  - unfold length. rewrite lt_ofNat, bool_decide_eq_false_2 by lia.
    by rewrite andb_false_r.
Qed.

Lemma jumpToFlashcard_session_witness :
  getCurrentFlashcard
    (jumpToFlashcard (Js.ofNat 2)
       (new 0 (Js.VString "deck-1") [card "a"; card "b"; card "c"])).1
  = Js.Obj (card "c").
Proof.
  destruct (jumpToFlashcard_session (Js.ofNat 2)
              (new 0 (Js.VString "deck-1") [card "a"; card "b"; card "c"]))
    as (_ & _ & _ & _ & Hint & _).
  destruct (Hint 2%nat) as (_ & c & Hc & ->); [simpl; lia | reflexivity |].
  simpl in Hc. by injection Hc as <-.
Defined.

Lemma startStudySession_success now deckId m deck cards :
  Js.not deckId = false → Js.typeof deckId = "string" →
  loadDeck (StudyManager.dataService m) deckId = Return (Some deck) →
  loadFlashcardsForDeck (StudyManager.dataService m) deckId = Return cards →
  cards ≠ [] →
  StudyManager.startStudySession now deckId m
  = (StudyManager.set_currentSession (Some (new now deckId cards)) m,
     StudyManager.Success (new now deckId cards)).
Proof.
  intros Hnot Hty Hdeck Hcards Hne. unfold StudyManager.startStudySession.
  rewrite Hnot, Hty, Hdeck, Hcards. simpl. by destruct cards.
Qed.

(** C5. [startStudySession] fails with 'Deck ID is required and must be a
    string' when the id is missing (falsy) or not a string, with 'Deck not
    found' when the store has no deck of that id, and with 'Deck contains no
    flashcards to study' when the store has no card for the deck. Whenever
    the call fails, for these or any other reason, the manager and with it
    the current session are as before. *)
Theorem startStudySession_failures
    (now : Date) (deckId : Js.Value) (m : StudyManager.t) :
  let r := StudyManager.startStudySession now deckId m in
  ((Js.not deckId = true ∨ Js.typeof deckId ≠ "string") →
     r = (m, StudyManager.Failure ["Deck ID is required and must be a string"]))
  ∧ (Js.not deckId = false → Js.typeof deckId = "string" →
     loadDeck (StudyManager.dataService m) deckId = Return None →
     r = (m, StudyManager.Failure ["Deck not found"]))
  ∧ (∀ deck, Js.not deckId = false → Js.typeof deckId = "string" →
     loadDeck (StudyManager.dataService m) deckId = Return (Some deck) →
     loadFlashcardsForDeck (StudyManager.dataService m) deckId = Return [] →
     r = (m, StudyManager.Failure ["Deck contains no flashcards to study"]))
  ∧ (StudyManager.success r.2 = false → r.1 = m).
Proof.
  simpl. unfold StudyManager.startStudySession.
  split; [| split; [| split]].
  - intros [-> | Hty]; [done |].
    destruct (String.eqb_spec (Js.typeof deckId) "string"); [done |].
    by rewrite orb_true_r.
  - intros -> -> ->. done.
  - intros deck -> -> -> ->. done.
  - destruct (Js.not deckId || negb (Js.typeof deckId =? "string")%string); [done |].
    destruct (loadDeck _ _) as [[deck |] | msg]; try done.
    destruct (loadFlashcardsForDeck _ _) as [cards | msg]; try done.
    by destruct (List.length cards =? 0)%nat.
Qed.

Lemma startStudySession_failures_witness :
  StudyManager.startStudySession 7 Js.VUndefined sample_manager
  = (sample_manager,
     StudyManager.Failure ["Deck ID is required and must be a string"])
  ∧ StudyManager.startStudySession 7 (Js.VString "deck-9") sample_manager
    = (sample_manager, StudyManager.Failure ["Deck not found"])
  ∧ StudyManager.startStudySession 7 (Js.VString "deck-3") sample_manager
    = (sample_manager,
       StudyManager.Failure ["Deck contains no flashcards to study"])
  ∧ (StudyManager.startStudySession 7 (Js.VString "deck-1")
       (StudyManager.new failing_service)).1
    = StudyManager.new failing_service.
Proof.
  split; [| split; [| split]].
  - apply (startStudySession_failures 7 Js.VUndefined sample_manager).
    by left.
  - by apply (startStudySession_failures 7 (Js.VString "deck-9") sample_manager).
  - by eapply (startStudySession_failures 7 (Js.VString "deck-3") sample_manager).
  - by apply (startStudySession_failures 7 (Js.VString "deck-1")
                (StudyManager.new failing_service)).
Defined.

(** C6. [completeSession] of the manager fails with 'No active study session'
    when no session is current. Otherwise it drops the session, so that
    [hasActiveSession] is false afterwards, and answers a summary that is
    complete and carries the deck, the number of cards and the start time of
    the session. A session that was not complete is completed by the call:
    the summary ends at the time of the call and counts every card as
    reviewed, all N of them after k < N calls of [nextFlashcard]. A session
    that was complete already is summarised as it is, with the end time it
    had. For a deck of one card: [startStudySession] succeeds,
    [nextFlashcard] reports [hasNext] false and [isComplete] true, and
    [completeSession] answers a summary with one reviewed card. *)
Theorem completeSession_manager :
  (∀ now m, StudyManager.currentSession m = None →
     StudyManager.completeSession now m
     = (m, StudyManager.Failure ["No active study session"]))
  ∧ (∀ now m session, StudyManager.currentSession m = Some session →
     ∃ summary,
       StudyManager.completeSession now m
       = (StudyManager.set_currentSession None m, StudyManager.Success summary)
       ∧ StudyManager.hasActiveSession (StudyManager.completeSession now m).1
         = false
       ∧ s_isComplete summary = true
       ∧ s_deckId summary = deckId session
       ∧ s_totalCards summary = List.length (flashcards session)
       ∧ s_startTime summary = startTime session
       ∧ (isComplete session = false →
          s_endTime summary = Some now
          ∧ (List.length (flashcards session) ≤ s_reviewedCards summary)%nat
          ∧ (reviewedCards session ⊆ indices (List.length (flashcards session)) →
             s_reviewedCards summary = List.length (flashcards session)))
       ∧ (isComplete session = true →
          summary = getSessionSummary now session
          ∧ s_endTime summary = endTime session
          ∧ s_reviewedCards summary = size (reviewedCards session)))
  ∧ (∀ now m start d cards clock,
     (List.length clock < List.length cards)%nat →
     StudyManager.currentSession m = Some (advance clock (new start d cards)) →
     ∃ summary,
       (StudyManager.completeSession now m).2 = StudyManager.Success summary
       ∧ s_reviewedCards summary = List.length cards
       ∧ s_totalCards summary = List.length cards
       ∧ s_isComplete summary = true
       ∧ s_endTime summary = Some now
       ∧ StudyManager.hasActiveSession (StudyManager.completeSession now m).1
         = false)
  ∧ (∀ t0 t1 t2 deckId m deck c,
     Js.not deckId = false → Js.typeof deckId = "string" →
     loadDeck (StudyManager.dataService m) deckId = Return (Some deck) →
     loadFlashcardsForDeck (StudyManager.dataService m) deckId = Return [c] →
     let r0 := StudyManager.startStudySession t0 deckId m in
     let r1 := StudyManager.nextFlashcard t1 r0.1 in
     let r2 := StudyManager.completeSession t2 r1.1 in
     StudyManager.success r0.2 = true
     ∧ r1.2 = StudyManager.Success (false, true)
     ∧ (∃ summary, r2.2 = StudyManager.Success summary
                   ∧ s_reviewedCards summary = 1%nat
                   ∧ s_totalCards summary = 1%nat
                   ∧ s_endTime summary = Some t1
                   ∧ s_isComplete summary = true)
     ∧ StudyManager.hasActiveSession r2.1 = false).
Proof.
  split; [| split; [| split]].
  - intros now m Hm. unfold StudyManager.completeSession. by rewrite Hm.
  - intros now m session Hm. unfold StudyManager.completeSession.
    rewrite Hm. simpl. eexists. split; [done |]. split; [done |].
    destruct (isComplete session) eqn:Hc; simpl.
    + rewrite Hc. by repeat split.
    + repeat split; try done.
      * rewrite <- (size_indices (List.length (flashcards session))) at 1.
        apply subseteq_size. rewrite add_all_union. set_solver.
      * intros Hr. by rewrite add_all_within, size_indices.
  - intros now m start d cards clock Hk Hm.
    unfold StudyManager.completeSession. rewrite Hm.
    rewrite underway_0, advance_underway by (simpl; lia). simpl.
    eexists. split; [done |]. simpl. repeat split.
    rewrite add_all_within, size_indices; [done |].
    intros x (i & Hi & ->)%elem_of_indices. apply elem_of_indices.
    exists i. split; [lia | done].
  - intros t0 t1 t2 deckId m deck c Hnot Hty Hdeck Hcards. simpl.
    rewrite (startStudySession_success t0 deckId m deck [c]) by done.
    unfold StudyManager.nextFlashcard.
    cbn [fst snd StudyManager.currentSession StudyManager.set_currentSession].
    rewrite underway_0, (nextFlashcard_last t0 deckId [c] 0 t1) by done.
    unfold StudyManager.completeSession. simpl.
    repeat split. eexists. split; [done |]. simpl.
    split; [apply (size_indices 1) | done].
Qed.

Lemma completeSession_manager_witness :
  let m := StudyManager.mk sample_service
             (Some (advance [10]
                      (new 0 (Js.VString "deck-1")
                         [card "a"; card "b"; card "c"]))) in
  ∃ summary,
    (StudyManager.completeSession 20 m).2 = StudyManager.Success summary
    ∧ s_reviewedCards summary = 3%nat
    ∧ StudyManager.hasActiveSession (StudyManager.completeSession 20 m).1
      = false.
Proof.
  destruct completeSession_manager as (_ & _ & H & _).
  destruct (H 20 (StudyManager.mk sample_service
                    (Some (advance [10]
                             (new 0 (Js.VString "deck-1")
                                [card "a"; card "b"; card "c"]))))
              0 (Js.VString "deck-1") [card "a"; card "b"; card "c"] [10])
    as (summary & Hs & Hr & _ & _ & _ & Ha); [simpl; lia | reflexivity |].
  exists summary. by repeat split.
Defined.

Lemma size_reviewed_underway start d cards k :
  size (reviewedCards (underway start d cards k)) = k.
Proof. apply size_indices. Qed.

(** C7. [endSession] fails with 'No active study session' when no session is
    current. Otherwise it answers the summary of the session as it is,
    without completing it, and drops the session. A session ended after k
    calls of [nextFlashcard] on a deck of more than k cards reports k
    reviewed cards and is not complete. *)
Theorem endSession_manager :
  (∀ now m, StudyManager.currentSession m = None →
     StudyManager.endSession now m
     = (m, StudyManager.Failure ["No active study session"]))
  ∧ (∀ now m session, StudyManager.currentSession m = Some session →
     let summary := getSessionSummary now session in
     StudyManager.endSession now m
     = (StudyManager.set_currentSession None m, StudyManager.Success summary)
     ∧ s_reviewedCards summary = size (reviewedCards session)
     ∧ s_isComplete summary = isComplete session
     ∧ s_endTime summary = endTime session
     ∧ StudyManager.hasActiveSession (StudyManager.endSession now m).1 = false)
  ∧ (∀ now m start d cards clock,
     (List.length clock < List.length cards)%nat →
     StudyManager.currentSession m = Some (advance clock (new start d cards)) →
     ∃ summary,
       (StudyManager.endSession now m).2 = StudyManager.Success summary
       ∧ s_reviewedCards summary = List.length clock
       ∧ s_totalCards summary = List.length cards
       ∧ s_isComplete summary = false
       ∧ s_endTime summary = None).
Proof.
  split; [| split].
  - intros now m Hm. unfold StudyManager.endSession. by rewrite Hm.
  - intros now m session Hm. simpl. unfold StudyManager.endSession.
    by rewrite Hm.
  - intros now m start d cards clock Hk Hm.
    unfold StudyManager.endSession. rewrite Hm. eexists. split; [done |].
    rewrite underway_0, advance_underway by (simpl; lia). simpl.
    repeat split. apply size_indices.
Qed.

Lemma endSession_manager_witness :
  ∃ summary,
    (StudyManager.endSession 30
       (StudyManager.mk sample_service
          (Some (advance [10; 20]
                   (new 0 (Js.VString "deck-1") [card "a"; card "b"; card "c"]))))).2
    = StudyManager.Success summary
    ∧ s_reviewedCards summary = 2%nat
    ∧ s_isComplete summary = false.
Proof.
  destruct endSession_manager as (_ & _ & H).
  destruct (H 30 (StudyManager.mk sample_service
                    (Some (advance [10; 20]
                       (new 0 (Js.VString "deck-1") [card "a"; card "b"; card "c"]))))
              0 (Js.VString "deck-1") [card "a"; card "b"; card "c"] [10; 20])
    as (summary & Hs & Hr & _ & Hc & _); [simpl; lia | reflexivity |].
  exists summary. by repeat split.
Defined.

Lemma flashcards_call c s : flashcards (call c s) = flashcards s.
Proof.
  destruct c as [now | | index | now | now]; simpl; try done.
  - apply flashcards_nextFlashcard.
  - unfold previousFlashcard. by destruct (Js.gt _ _).
  - unfold jumpToFlashcard. by destruct (_ && _).
Qed.

Lemma flashcards_run calls s : flashcards (run calls s) = flashcards s.
Proof.
  revert s. induction calls as [| c calls IH]; intros s; [done |].
  unfold run in *. simpl. rewrite IH. apply flashcards_call.
Qed.

(** C8. [reset], after any sequence of calls on a session over at least one
    card, and so also on a complete session, puts the cursor at 0, makes the
    session not complete, clears [endTime] and the reviewed set and restarts
    the clock; the current card is then the first one and the progress
    counts no reviewed card. *)
Theorem reset_restores_start
    (now start : Date) (d : Js.Value) (c : Flashcard.t)
    (cards : list Flashcard.t) (calls : list Call) :
  let s := reset now (run calls (new start d (c :: cards))) in
  s = new now d (c :: cards)
  ∧ currentIndex s = Js.ofZ 0
  ∧ isComplete s = false
  ∧ endTime s = None
  ∧ reviewedCards s = ∅
  ∧ getCurrentFlashcard s = Js.Obj c
  ∧ p_reviewedCount (getProgress s) = 0%nat.
Proof.
  simpl. unfold reset. rewrite flashcards_run. simpl.
  assert (Hd : ∀ s, deckId (run calls s) = deckId s).
  { induction calls as [| k calls IH]; intros s; [done |].
    unfold run in *. simpl. rewrite IH.
    destruct k as [t | | index | t | t]; simpl; try done.
    - unfold nextFlashcard. destruct (isComplete s); [done |].
      destruct (Js.lt _ _); simpl; by destruct (Js.ge _ _).
    - unfold previousFlashcard. by destruct (Js.gt _ _).
    - unfold jumpToFlashcard. by destruct (_ && _). }
  rewrite Hd. simpl. repeat split.
Qed.

(** Calls of [previousFlashcard] on a complete session whose cursor is the
    natural number [j]. *)
Lemma previous_complete (s : StudySession.t) (j k : nat) :
  isComplete s = true → currentIndex s = Js.ofNat j → (k ≤ j)%nat →
  Nat.iter k (λ s, (previousFlashcard s).1) s
  = set_currentIndex (Js.ofNat (j - k)) s.
Proof.
  intros Hs Hj. induction k as [| k IH]; intros Hk.
  - simpl. rewrite Nat.sub_0_r, <- Hj. by destruct s.
  - simpl. rewrite IH by lia. unfold previousFlashcard. simpl.
    change (Js.ofZ 0) with (Js.ofNat 0). unfold Js.gt.
    rewrite lt_ofNat, bool_decide_eq_true_2 by lia. simpl.
    unfold set_currentIndex. simpl. f_equal.
    unfold Js.ofNat. rewrite pred_ofZ. f_equal. lia.
Qed.

(** C10. A complete session stays complete under every call except [reset],
    which makes it not complete. On a complete session with the cursor above
    0, [previousFlashcard] answers true and changes the cursor and nothing
    else, so the session is still complete and [getCurrentFlashcard] answers
    null. The cursor moves back by one: from j + 1 to j for every natural
    number j, so that k calls after the N calls of [nextFlashcard] that
    completed a session leave the cursor at N - k, on a card, while
    [getCurrentFlashcard] still answers null; with the cursor at 0 the call
    answers false and changes nothing. *)
Theorem complete_until_reset :
  (∀ s c, isComplete s = true → (∀ now, c ≠ DoReset now) →
     isComplete (call c s) = true)
  ∧ (∀ s calls, isComplete s = true →
     Forall (λ c, ∀ now, c ≠ DoReset now) calls →
     isComplete (run calls s) = true)
  ∧ (∀ s, isComplete s = true → Js.gt (currentIndex s) (Js.ofZ 0) = true →
     let r := previousFlashcard s in
     r.2 = true
     ∧ r.1 = set_currentIndex (currentIndex r.1) s
     ∧ isComplete r.1 = true
     ∧ getCurrentFlashcard r.1 = Js.Null)
  ∧ (∀ s (j : nat), currentIndex s = Js.ofNat (S j) →
     previousFlashcard s = (set_currentIndex (Js.ofNat j) s, true))
  ∧ (∀ s, currentIndex s = Js.ofNat 0 → previousFlashcard s = (s, false))
  ∧ (∀ start d cards clock k,
     (1 ≤ List.length cards)%nat → List.length clock = List.length cards →
     (k ≤ List.length cards)%nat →
     let s := Nat.iter k (λ s, (previousFlashcard s).1)
                (advance clock (new start d cards)) in
     currentIndex s = Js.ofNat (List.length cards - k)
     ∧ isComplete s = true
     ∧ getCurrentFlashcard s = Js.Null)
  ∧ (∀ now s, isComplete (reset now s) = false).
Proof.
  assert (Hcall : ∀ s c, isComplete s = true → (∀ now, c ≠ DoReset now) →
    isComplete (call c s) = true).
  { intros s c Hs Hc. destruct c as [now | | index | now | now]; simpl.
    - by rewrite nextFlashcard_complete.
    - unfold previousFlashcard. by destruct (Js.gt _ _).
    - unfold jumpToFlashcard. by destruct (_ && _).
    - done.
    - by destruct (Hc now). }
  split; [exact Hcall |]. split; [| split; [| split; [| split; [| split]]]].
  - intros s calls Hs Hcalls. revert s Hs.
    induction Hcalls as [| c calls Hc _ IH]; intros s Hs; [done |].
    unfold run in *. simpl. apply IH. by apply Hcall.
  - intros s Hs Hgt. simpl. unfold previousFlashcard. rewrite Hgt. simpl.
    repeat split; [done |]. unfold getCurrentFlashcard. simpl. by rewrite Hs.
  - intros s j Hj. unfold previousFlashcard. rewrite Hj.
    change (Js.ofZ 0) with (Js.ofNat 0). unfold Js.gt.
    rewrite lt_ofNat, bool_decide_eq_true_2 by lia.
    unfold Js.ofNat. rewrite pred_ofZ. do 3 f_equal. lia.
  - intros s Hj. unfold previousFlashcard. rewrite Hj.
    change (Js.ofZ 0) with (Js.ofNat 0). unfold Js.gt.
    by rewrite lt_ofNat, bool_decide_eq_false_2 by lia.
  - intros start d cards clock k HN Hclock Hk.
    destruct clock as [| t clock _] using rev_ind; [simpl in Hclock; lia |].
    rewrite length_app in Hclock. simpl in Hclock.
    rewrite advance_snoc, underway_0, advance_underway by (simpl; lia).
    simpl. rewrite nextFlashcard_last by lia. simpl.
    rewrite (previous_complete _ (S (List.length clock)) k) by (done || lia).
    simpl. replace (List.length cards) with (S (List.length clock)) by lia.
    done.
  - done.
Qed.

Lemma complete_until_reset_witness :
  let s := advance [10; 20; 30]
             (new 0 (Js.VString "deck-1") [card "a"; card "b"; card "c"]) in
  currentIndex (previousFlashcard s).1 = Js.ofNat 2
  ∧ getCurrentFlashcard (previousFlashcard s).1 = Js.Null.
Proof.
  destruct complete_until_reset as (_ & _ & _ & _ & _ & H & _).
  destruct (H 0 (Js.VString "deck-1") [card "a"; card "b"; card "c"]
              [10; 20; 30] 1%nat) as (H1 & _ & H3);
    [simpl; lia | reflexivity | simpl; lia |].
  by split.
Defined.

End Properties.

(** * Sessions in use *)

Section SessionsInUse.

Import StudySession.

Lemma in_range_new now d c cards : in_range (new now d (c :: cards)).
Proof.
  exists 0%nat. simpl. repeat split; [lia | lia | set_solver].
Qed.

Lemma in_range_call c s :
  flashcards s ≠ [] → integer_call c → in_range s → in_range (call c s).
Proof.
  intros Hne Hc (j & Hj & Hle & Hlt & Hr).
  assert (HN : (0 < List.length (flashcards s))%nat).
  { destruct (flashcards s); [done | simpl; lia]. }
  destruct c as [now | | index | now | now]; simpl.
  - unfold nextFlashcard. destruct (isComplete s) eqn:Hs.
    { simpl. exists j. split; [done |]. split; [done |].
      split; [intros; congruence | done]. }
    specialize (Hlt eq_refl).
    unfold length. rewrite Hj, lt_ofNat, bool_decide_eq_true_2 by done.
    simpl. rewrite Hj, succ_ofNat, ge_ofNat.
    case_bool_decide; exists (S j); simpl; rewrite ?Hs;
      (split; [done |]); (split; [lia |]); (split; [intros; lia |]).
    + rewrite add_all_union. apply union_least; [| done].
      apply union_least; [| done].
      apply singleton_subseteq_l, elem_of_indices. by exists j.
    + apply union_least; [| done].
      apply singleton_subseteq_l, elem_of_indices. by exists j.
  - unfold previousFlashcard. rewrite Hj. change (Js.ofZ 0) with (Js.ofNat 0).
    unfold Js.gt. rewrite lt_ofNat.
    case_bool_decide; simpl.
    + exists (j - 1)%nat. simpl.
      unfold Js.ofNat at 1. rewrite pred_ofZ.
      split; [unfold Js.ofNat; by replace (Z.of_nat j - 1) with (Z.of_nat (j - 1)) by lia |].
      split; [lia |]. split; [intros; lia | done].
    + by exists j.
  - destruct Hc as [z ->]. unfold jumpToFlashcard, length.
    rewrite ge_ofZ. unfold Js.ofNat at 1. rewrite lt_ofZ.
    destruct (Z.leb_spec 0 z), (Z.ltb_spec z (Z.of_nat (List.length (flashcards s)))),
      (isComplete s) eqn:Hs; simpl;
      try (exists j; split; [done |]; split; [done |];
           split; [intros; first [congruence | by apply Hlt] | done]).
    exists (Z.to_nat z). simpl. rewrite Hs.
    split; [unfold Js.ofNat; by rewrite Z2Nat.id by lia |].
    split; [lia |]. split; [intros; lia | done].
  - exists j. simpl. split; [done |]. split; [done |]. split; [done |].
    rewrite add_all_union. by apply union_least.
  - exists 0%nat. simpl. split; [done |]. split; [lia |]. split; [done |].
    set_solver.
Qed.

Lemma in_range_run calls s :
  flashcards s ≠ [] → Forall integer_call calls → in_range s →
  in_range (run calls s).
Proof.
  intros Hne Hcalls. revert s Hne.
  induction Hcalls as [| c calls Hc _ IH]; intros s Hne Hs; [done |].
  unfold run in *. simpl. apply IH.
  - by rewrite flashcards_call.
  - by apply in_range_call.
Qed.

(** A complete session has an end time and every card marked; a session
    that is not complete has no end time. *)
Lemma ended_call c s :
  (isComplete s = true ↔ is_Some (endTime s)) →
  (isComplete s = true →
   indices (List.length (flashcards s)) ⊆ reviewedCards s) →
  (isComplete (call c s) = true ↔ is_Some (endTime (call c s)))
  ∧ (isComplete (call c s) = true →
     indices (List.length (flashcards (call c s))) ⊆ reviewedCards (call c s)).
Proof.
  intros He Hr. destruct c as [now | | index | now | now]; simpl.
  - unfold nextFlashcard. destruct (isComplete s) eqn:Hs.
    { simpl. rewrite Hs. by split. }
    destruct (Js.lt _ _); simpl; destruct (Js.ge _ _); simpl;
      rewrite ?Hs, ?add_all_union;
      (split; [| first [done | intros _; set_solver]]);
      first [by split; [| intros; by eexists] | by rewrite <- He].
  - unfold previousFlashcard. by destruct (Js.gt _ _).
  - unfold jumpToFlashcard. by destruct (_ && _).
  - rewrite add_all_union. split; [| intros _; set_solver].
    split; [intros; by eexists | done].
  - split; [| done]. split; [done | by intros [? ?]].
Qed.

Lemma ended_run calls s :
  (isComplete s = true ↔ is_Some (endTime s)) →
  (isComplete s = true →
   indices (List.length (flashcards s)) ⊆ reviewedCards s) →
  (isComplete (run calls s) = true ↔ is_Some (endTime (run calls s)))
  ∧ (isComplete (run calls s) = true →
     indices (List.length (flashcards (run calls s)))
     ⊆ reviewedCards (run calls s)).
Proof.
  revert s. induction calls as [| c calls IH]; intros s He Hr; [done |].
  unfold run in *. simpl. by apply IH; apply ended_call.
Qed.

Lemma advance_all start d cards clock now :
  S (List.length clock) = List.length cards →
  advance (clock ++ [now]) (new start d cards)
  = mk d cards (Js.ofNat (List.length cards)) start (Some now) true
       (indices (List.length cards)).
Proof.
  intros Hn. rewrite advance_snoc, underway_0, advance_underway by (simpl; lia).
  simpl. rewrite nextFlashcard_last by done. simpl. by rewrite Hn.
Qed.

Lemma active_cursor start d c cards calls :
  Forall integer_call calls →
  let s := run calls (new start d (c :: cards)) in
  isComplete s = false →
  ∃ j : nat, currentIndex s = Js.ofNat j
             ∧ (j < S (List.length cards))%nat
             ∧ List.length (flashcards s) = S (List.length cards).
Proof.
  intros Hcalls s Hs.
  destruct (in_range_run calls (new start d (c :: cards)))
    as (j & Hj & _ & Hlt & _); [done | done | apply in_range_new |].
  fold s in Hj, Hlt. specialize (Hlt Hs).
  assert (HN : List.length (flashcards s) = S (List.length cards)).
  { unfold s. by rewrite flashcards_run. }
  rewrite HN in Hlt. by exists j.
Qed.

(** X1. On a deck of at least one card, under any sequence of calls with
    integer jump indices, the cursor is a natural number not above N; while
    the session is not complete the cursor is below N and
    [getCurrentFlashcard] answers the card at the cursor, and once it is
    complete [getCurrentFlashcard] answers null. *)
Theorem cursor_stays_in_deck
    (start : Date) (d : Js.Value) (c : Flashcard.t) (cards : list Flashcard.t)
    (calls : list Call) :
  Forall integer_call calls →
  let s := run calls (new start d (c :: cards)) in
  ∃ j : nat,
    currentIndex s = Js.ofNat j
    ∧ (j ≤ S (List.length cards))%nat
    ∧ (isComplete s = false →
       ∃ card, (c :: cards) !! j = Some card
               ∧ getCurrentFlashcard s = Js.Obj card)
    ∧ (isComplete s = true → getCurrentFlashcard s = Js.Null).
Proof.
  intros Hcalls s.
  destruct (in_range_run calls (new start d (c :: cards)))
    as (j & Hj & Hle & Hlt & _); [done | done | apply in_range_new |].
  fold s in Hj, Hle, Hlt. unfold s in Hle, Hlt.
  rewrite flashcards_run in Hle, Hlt. simpl in Hle, Hlt. fold s in Hlt.
  exists j. split; [done |]. split; [done |]. split.
  - intros Hs. specialize (Hlt Hs).
    destruct (lookup_lt_is_Some_2 (c :: cards) j) as [card Hcard];
      [simpl; lia |].
    exists card. split; [done |]. unfold getCurrentFlashcard, length.
    rewrite Hs, Hj. unfold s at 1. rewrite flashcards_run. simpl.
    rewrite ge_ofNat, bool_decide_eq_false_2 by lia.
    unfold s. rewrite flashcards_run. by apply array_get_ofNat.
  - intros Hs. unfold getCurrentFlashcard. by rewrite Hs.
Qed.

Lemma cursor_stays_in_deck_witness :
  let s := run [DoNext 10; DoJumpTo (Js.ofZ 2); DoPrevious; DoJumpTo (Js.ofZ 7)]
             fresh_session in
  ∃ j : nat, currentIndex s = Js.ofNat j ∧ (j ≤ 3)%nat.
Proof.
  destruct (cursor_stays_in_deck 0 (Js.VString "deck-1") (card "a")
              [card "b"; card "c"]
              [DoNext 10; DoJumpTo (Js.ofZ 2); DoPrevious; DoJumpTo (Js.ofZ 7)])
    as (j & Hj & Hle & _).
  - repeat constructor; by eexists.
  - exists j. by split.
Defined.

(** X2. Under the same calls the progress never counts more reviewed cards
    than the deck has, and a complete session counts all N cards and reports
    100 percent. The percentage is computed in doubles; on a deck of fewer
    than 2^32 cards, which is every array, it is an integer nearest to the
    exact percentage: it differs from 100 * count / N by at most one half.
    So it lies between 0 and 100, it is 0 when no card is reviewed, and it
    is the exact percentage rounded whenever that is not half way between
    two integers. *)
Theorem progress_within_bounds
    (start : Date) (d : Js.Value) (c : Flashcard.t) (cards : list Flashcard.t)
    (calls : list Call) :
  Forall integer_call calls →
  let p := getProgress (run calls (new start d (c :: cards))) in
  let count := Z.of_nat (p_reviewedCount p) in
  let N := Z.of_nat (p_totalCards p) in
  p_totalCards p = S (List.length cards)
  ∧ (p_reviewedCount p ≤ p_totalCards p)%nat
  ∧ (p_isComplete p = true →
     p_reviewedCount p = p_totalCards p ∧ p_percentComplete p = 100)
  ∧ (N < 2 ^ 32 →
     (2 * p_percentComplete p - 1) * N ≤ 200 * count
                                       ≤ (2 * p_percentComplete p + 1) * N
     ∧ 0 ≤ p_percentComplete p ≤ 100
     ∧ (p_reviewedCount p = 0%nat → p_percentComplete p = 0)
     ∧ ((200 * count + N) mod (2 * N) ≠ 0 →
        p_percentComplete p = (200 * count + N) / (2 * N))).
Proof.
  intros Hcalls. set (s := run calls (new start d (c :: cards))).
  destruct (in_range_run calls (new start d (c :: cards)))
    as (j & _ & _ & _ & Hr); [done | done | apply in_range_new |].
  destruct (ended_run calls (new start d (c :: cards))) as [_ Hall];
    [simpl; split; [done | by intros [? ?]] | done |].
  fold s in Hr, Hall. cbv zeta.
  unfold getProgress.
  cbn [p_totalCards p_reviewedCount p_percentComplete p_isComplete].
  assert (HN : List.length (flashcards s) = S (List.length cards)).
  { unfold s. by rewrite flashcards_run. }
  rewrite HN in *.
  assert (Hsize : (size (reviewedCards s) ≤ S (List.length cards))%nat).
  { rewrite <- (size_indices (S (List.length cards))). by apply subseteq_size. }
  change (0 <? S (List.length cards))%nat with true. cbv iota.
  split; [done |]. split; [done |]. split.
  - intros Hs.
    assert (Heq : reviewedCards s = indices (S (List.length cards))).
    { apply set_eq. intros x. split; [apply Hr | by apply Hall]. }
    rewrite Heq, size_indices. split; [done |]. apply percent_full. lia.
  - intros Hbound.
    pose proof (percent_nearest (size (reviewedCards s)) (S (List.length cards))
                  ltac:(lia) Hsize Hbound) as Hnear.
    cbv zeta in Hnear.
    set (P := Js.Math_round _) in *.
    split; [done |]. split; [nia |]. split; [intros H0; rewrite H0 in Hnear; nia |].
    intros Htie.
    set (k := Z.of_nat (size (reviewedCards s))) in *.
    set (n := Z.of_nat (S (List.length cards))) in *.
    assert (Hn : 0 < n) by (unfold n; lia).
    pose proof (Z.div_mod (200 * k + n) (2 * n) ltac:(lia)) as Hdiv.
    pose proof (Z.mod_pos_bound (200 * k + n) (2 * n) ltac:(lia)) as Hmod.
    set (q := (200 * k + n) / (2 * n)) in *.
    set (r := (200 * k + n) mod (2 * n)) in *.
    nia.
Qed.

Lemma progress_within_bounds_witness :
  0 ≤ p_percentComplete
        (getProgress (run [DoNext 10; DoJumpTo (Js.ofZ 2); DoPrevious]
                        fresh_session)) ≤ 100.
Proof.
  apply (progress_within_bounds 0 (Js.VString "deck-1") (card "a")
           [card "b"; card "c"] [DoNext 10; DoJumpTo (Js.ofZ 2); DoPrevious]).
  - repeat constructor; by eexists.
  - simpl. lia.
Defined.

(** X3. After any sequence of calls on a new session, the session is
    complete exactly when it has an end time, and a complete session has
    every index below N marked reviewed. *)
Theorem complete_iff_ended
    (start : Date) (d : Js.Value) (cards : list Flashcard.t) (calls : list Call) :
  let s := run calls (new start d cards) in
  (isComplete s = true ↔ is_Some (endTime s))
  ∧ (isComplete s = true →
     ∀ i : nat, (i < List.length cards)%nat → Js.ofNat i ∈ reviewedCards s).
Proof.
  simpl.
  destruct (ended_run calls (new start d cards)) as [He Hall];
    [simpl; split; [done | by intros [? ?]] | done |].
  split; [done |]. intros Hs i Hi. apply (Hall Hs).
  rewrite flashcards_run. apply elem_of_indices. by exists i.
Qed.

Lemma complete_iff_ended_witness :
  is_Some (endTime (run [DoNext 10; DoComplete 20] fresh_session)).
Proof.
  by apply (complete_iff_ended 0 (Js.VString "deck-1")
              [card "a"; card "b"; card "c"] [DoNext 10; DoComplete 20]).
Defined.

(** X4. [nextFlashcard] answers true exactly when the session is not
    complete after the call. The flags of the progress predict the
    navigation: [hasPrevious] is the answer [previousFlashcard] would give,
    and on a session in use that is not complete [hasNext] is the answer
    [nextFlashcard] would give, so it is false exactly on the last card. *)
Theorem progress_flags_predict_navigation :
  (∀ now s, (nextFlashcard now s).2 = negb (isComplete (nextFlashcard now s).1))
  ∧ (∀ s, p_hasPrevious (getProgress s) = (previousFlashcard s).2)
  ∧ (∀ start d c cards calls now,
       Forall integer_call calls →
       let s := run calls (new start d (c :: cards)) in
       isComplete s = false →
       p_hasNext (getProgress s) = (nextFlashcard now s).2
       ∧ (p_hasNext (getProgress s) = false ↔
          currentIndex s = Js.ofNat (List.length cards))).
Proof.
  split; [| split].
  - intros now s. unfold nextFlashcard. destruct (isComplete s) eqn:Hs.
    { simpl. by rewrite Hs. }
    destruct (Js.lt _ _); simpl; destruct (Js.ge _ _); simpl; by rewrite ?Hs.
  - intros s. simpl. unfold previousFlashcard. by destruct (Js.gt _ _).
  - intros start d c cards calls now Hcalls s Hs.
    destruct (in_range_run calls (new start d (c :: cards)))
      as (j & Hj & _ & Hlt & _); [done | done | apply in_range_new |].
    fold s in Hj, Hlt. specialize (Hlt Hs).
    assert (HN : List.length (flashcards s) = S (List.length cards)).
    { unfold s. by rewrite flashcards_run. }
    rewrite HN in Hlt.
    assert (Hnext : p_hasNext (getProgress s) = bool_decide (j < List.length cards)%nat).
    { simpl. unfold length. rewrite Hj, HN. unfold Js.ofNat at 2.
      rewrite pred_ofZ. unfold Js.ofNat. rewrite lt_ofZ.
      destruct (Z.ltb_spec (Z.of_nat j) (Z.of_nat (S (List.length cards)) - 1));
        case_bool_decide; lia. }
    rewrite Hnext. split.
    + unfold nextFlashcard, length. rewrite Hs, Hj, HN, lt_ofNat.
      rewrite (bool_decide_eq_true_2 _ Hlt). simpl.
      rewrite Hj, HN, succ_ofNat, ge_ofNat.
      repeat case_bool_decide; simpl; (done || lia).
    + rewrite Hj. case_bool_decide as Hc; split; try done.
      * intros Heq%ofNat_inj. lia.
      * intros _. f_equal. lia.
Qed.

Lemma progress_flags_predict_navigation_witness :
  let s := run [DoNext 10; DoNext 20] fresh_session in
  p_hasNext (getProgress s) = (nextFlashcard 30 s).2.
Proof.
  destruct progress_flags_predict_navigation as (_ & _ & H).
  by destruct (H 0 (Js.VString "deck-1") (card "a") [card "b"; card "c"]
                 [DoNext 10; DoNext 20] 30) as [Hnext _];
    [by repeat constructor | reflexivity |].
Defined.

(** X5. [previousFlashcard] changes nothing but the cursor; with the cursor
    at 0 it changes nothing at all and answers false. On a session in use
    that is not complete and not on its last card, [nextFlashcard] followed
    by [previousFlashcard] leads back to the same card, which is then marked
    reviewed, and changes nothing else. *)
Theorem previous_undoes_next :
  (∀ s, (previousFlashcard s).1
        = set_currentIndex (currentIndex (previousFlashcard s).1) s)
  ∧ (∀ s, currentIndex s = Js.ofZ 0 → previousFlashcard s = (s, false))
  ∧ (∀ start d c cards calls now,
       Forall integer_call calls →
       let s := run calls (new start d (c :: cards)) in
       isComplete s = false →
       p_hasNext (getProgress s) = true →
       previousFlashcard (nextFlashcard now s).1
       = (set_reviewedCards ({[ currentIndex s ]} ∪ reviewedCards s) s, true)).
Proof.
  split; [| split].
  - intros s. unfold previousFlashcard.
    destruct (Js.gt _ _); simpl; by destruct s.
  - intros s Hs. unfold previousFlashcard. by rewrite Hs.
  - intros start d c cards calls now Hcalls s Hs Hnext.
    destruct active_cursor
      with (start := start) (d := d) (c := c) (cards := cards)
           (calls := calls) as (j & Hj & Hlt & HN); [done | done |].
    fold s in Hj, Hlt, HN.
    assert (Hj' : (S j < S (List.length cards))%nat).
    { revert Hnext. simpl. unfold length. rewrite Hj, HN.
      unfold Js.ofNat at 2. rewrite pred_ofZ. unfold Js.ofNat.
      rewrite lt_ofZ. intros ?%Z.ltb_lt. lia. }
    unfold nextFlashcard, length. rewrite Hs, Hj, HN, lt_ofNat.
    rewrite bool_decide_eq_true_2 by lia. simpl.
    rewrite Hj, HN, succ_ofNat, ge_ofNat, bool_decide_eq_false_2 by lia.
    unfold previousFlashcard.
    cbn [fst snd currentIndex set_currentIndex set_reviewedCards].
    change (Js.ofZ 0) with (Js.ofNat 0). unfold Js.gt.
    rewrite lt_ofNat, bool_decide_eq_true_2 by lia.
    unfold set_currentIndex, set_reviewedCards.
    cbn [fst snd deckId flashcards currentIndex startTime endTime isComplete
         reviewedCards].
    unfold Js.ofNat at 1. rewrite pred_ofZ.
    replace (Z.of_nat (S j) - 1) with (Z.of_nat j) by lia.
    fold (Js.ofNat j). by rewrite <- Hj.
Qed.

Lemma previous_undoes_next_witness :
  previousFlashcard (nextFlashcard 20 (run [DoNext 10] fresh_session)).1
  = (set_reviewedCards
       ({[ currentIndex (run [DoNext 10] fresh_session) ]}
        ∪ reviewedCards (run [DoNext 10] fresh_session))
       (run [DoNext 10] fresh_session), true).
Proof.
  destruct previous_undoes_next as (_ & _ & H).
  apply (H 0 (Js.VString "deck-1") (card "a") [card "b"; card "c"]
           [DoNext 10] 20); [by repeat constructor | reflexivity | by vm_compute].
Defined.

Lemma frame_call c s :
  flashcards (call c s) = flashcards s
  ∧ deckId (call c s) = deckId s
  ∧ ((∀ now, c ≠ DoReset now) →
     startTime (call c s) = startTime s
     ∧ reviewedCards s ⊆ reviewedCards (call c s)).
Proof.
  split; [apply flashcards_call |].
  destruct c as [now | | index | now | now]; simpl.
  - unfold nextFlashcard. destruct (isComplete s); [done |].
    destruct (Js.lt _ _); simpl; destruct (Js.ge _ _); simpl;
      rewrite ?add_all_union; repeat split; set_solver.
  - unfold previousFlashcard. by destruct (Js.gt _ _).
  - unfold jumpToFlashcard. by destruct (_ && _).
  - rewrite add_all_union. repeat split. set_solver.
  - split; [done |]. intros H. by destruct (H now).
Qed.

(** X6. No call changes the deck id or the cards of a session, and a
    sequence of calls without [reset] keeps the start time and never unmarks
    a card: the reviewed set, and with it the reviewed count, only grows. *)
Theorem reviewed_only_grows (calls : list Call) (s : StudySession.t) :
  flashcards (run calls s) = flashcards s
  ∧ deckId (run calls s) = deckId s
  ∧ (Forall (λ c, ∀ now, c ≠ DoReset now) calls →
     startTime (run calls s) = startTime s
     ∧ reviewedCards s ⊆ reviewedCards (run calls s)
     ∧ (p_reviewedCount (getProgress s)
        ≤ p_reviewedCount (getProgress (run calls s)))%nat).
Proof.
  split; [apply flashcards_run |].
  revert s. induction calls as [| c calls IH]; intros s; [done |].
  unfold run in *. simpl. destruct (IH (call c s)) as [Hd Hrest].
  destruct (frame_call c s) as (_ & Hd' & Hc).
  split; [by rewrite Hd |].
  intros [Hc1 Hcs]%Forall_cons.
  destruct (Hrest Hcs) as (Ht & Hsub & _), (Hc Hc1) as [Ht' Hsub'].
  split; [by rewrite Ht |].
  assert (Hall : reviewedCards s ⊆ reviewedCards (foldl (λ s c, call c s) (call c s) calls)).
  { by etrans. }
  split; [done |]. simpl. by apply subseteq_size.
Qed.

Lemma reviewed_only_grows_witness :
  let s := run [DoNext 10] fresh_session in
  let s' := run [DoPrevious; DoComplete 30] s in
  (p_reviewedCount (getProgress s) ≤ p_reviewedCount (getProgress s'))%nat.
Proof.
  destruct (reviewed_only_grows [DoPrevious; DoComplete 30]
              (run [DoNext 10] fresh_session)) as (_ & _ & H).
  by destruct H as (_ & _ & H); [by repeat constructor |].
Defined.

End SessionsInUse.

(** * The manager in use *)

Section ManagerInUse.

Import StudyManager.

(** X7. With no session current, every method of the manager that needs one
    fails with 'No active study session' and leaves the manager as it was,
    [hasActiveSession] is false and [getCurrentSession] is null. *)
Theorem no_session_no_operation
    (now : Date) (index : Js.Value) (m : StudyManager.t) :
  currentSession m = None →
  nextFlashcard now m = (m, Failure ["No active study session"])
  ∧ previousFlashcard m = (m, Failure ["No active study session"])
  ∧ jumpToFlashcard index m = (m, Failure ["No active study session"])
  ∧ getCurrentFlashcard m = Failure ["No active study session"]
  ∧ getSessionProgress m = Failure ["No active study session"]
  ∧ completeSession now m = (m, Failure ["No active study session"])
  ∧ resetSession now m = (m, Failure ["No active study session"])
  ∧ endSession now m = (m, Failure ["No active study session"])
  ∧ getSessionSummary now m = Failure ["No active study session"]
  ∧ hasActiveSession m = false
  ∧ getCurrentSession m = None.
Proof.
  intros Hm.
  unfold nextFlashcard, previousFlashcard, jumpToFlashcard,
    getCurrentFlashcard, getSessionProgress, completeSession, resetSession,
    endSession, getSessionSummary, hasActiveSession, getCurrentSession.
  rewrite Hm. by repeat split.
Qed.

Lemma no_session_no_operation_witness :
  nextFlashcard 10 (new sample_service)
  = (new sample_service, Failure ["No active study session"]).
Proof.
  by apply (no_session_no_operation 10 Js.VUndefined (new sample_service)).
Defined.

(** X8. [startStudySession] succeeds exactly when the id is a non-empty
    string, the store answers a deck for it and answers at least one card.
    It then replaces whatever session was current by a new session on these
    cards, which it also returns, and the current card is the first one. *)
Theorem start_succeeds_exactly_when
    (now : Date) (deckId : Js.Value) (m : StudyManager.t) :
  let r := startStudySession now deckId m in
  (success r.2 = true ↔
     Js.not deckId = false ∧ Js.typeof deckId = "string"
     ∧ ∃ deck c cards,
         loadDeck (dataService m) deckId = Return (Some deck)
         ∧ loadFlashcardsForDeck (dataService m) deckId = Return (c :: cards))
  ∧ (∀ c cards,
       success r.2 = true →
       loadFlashcardsForDeck (dataService m) deckId = Return (c :: cards) →
       r.2 = Success (StudySession.new now deckId (c :: cards))
       ∧ currentSession r.1 = Some (StudySession.new now deckId (c :: cards))
       ∧ dataService r.1 = dataService m
       ∧ hasActiveSession r.1 = true
       ∧ getCurrentFlashcard r.1 = Success c).
Proof.
  simpl. unfold startStudySession.
  destruct (Js.not deckId) eqn:Hnot; simpl.
  { split; [| done]. split; [done | by intros [? _]]. }
  destruct (String.eqb_spec (Js.typeof deckId) "string") as [Hty | Hty]; simpl;
    [| split; [| done]; split; [done | by intros (_ & ? & _)]].
  destruct (loadDeck (dataService m) deckId) as [[deck |] | msg]; simpl;
    try (split; [| done]; split; [done | by intros (_ & _ & ? & ? & ? & ? & _)]).
  destruct (loadFlashcardsForDeck (dataService m) deckId)
    as [[| c cards] | msg]; simpl;
    try (split; [| done]; split; [done | by intros (_ & _ & ? & ? & ? & _ & ?)]).
  split.
  - split; [| done]. intros _. split; [done |]. split; [done |].
    by exists deck, c, cards.
  - intros c' cards' _ [= <- <-]. by repeat split.
Qed.

Lemma start_succeeds_exactly_when_witness :
  success (startStudySession 40 (Js.VString "deck-2") sample_manager).2 = true.
Proof.
  apply (start_succeeds_exactly_when 40 (Js.VString "deck-2") sample_manager).
  split; [reflexivity |]. split; [reflexivity |]. by eexists _, _, _.
Defined.

Lemma advance_completes_all start d cards clock :
  List.length clock = List.length cards → cards ≠ [] →
  StudySession.isComplete (advance clock (StudySession.new start d cards)) = true
  ∧ StudySession.endTime (advance clock (StudySession.new start d cards))
    = last clock.
Proof.
  intros Hlen Hne.
  destruct clock as [| t0 clock _] using rev_ind.
  { destruct cards; [done | simpl in Hlen; lia]. }
  rewrite length_app in Hlen. simpl in Hlen.
  rewrite advance_all by lia. simpl. by rewrite last_snoc.
Qed.

(** X9. The summary of a session that is not complete measures the duration
    up to the time it is asked for; once [nextFlashcard] has completed the
    session at time t, the summary reports t as the end time and the
    duration from the start to t, whenever it is asked for, and
    [completeSession] of the manager answers this same summary: it does not
    move the end time. Between two dates less than 2^53 milliseconds apart
    the duration is the milliseconds turned into seconds and rounded to the
    nearest second, halves up; the difference of dates further apart is
    itself rounded before. *)
Theorem completion_time_is_kept :
  (∀ now s, StudySession.endTime s = None →
     - 2 ^ 53 < now - StudySession.startTime s < 2 ^ 53 →
     StudySession.s_duration (StudySession.getSessionSummary now s)
     = (now - StudySession.startTime s + 500) / 1000)
  ∧ (∀ start d cards clock t now m,
       S (List.length clock) = List.length cards →
       currentSession m
       = Some (advance (clock ++ [t]) (StudySession.new start d cards)) →
       ∃ summary,
         completeSession now m = (set_currentSession None m, Success summary)
         ∧ (∀ now', getSessionSummary now' m = Success summary)
         ∧ StudySession.s_startTime summary = start
         ∧ StudySession.s_endTime summary = Some t
         ∧ (- 2 ^ 53 < t - start < 2 ^ 53 →
            StudySession.s_duration summary = (t - start + 500) / 1000)
         ∧ StudySession.s_reviewedCards summary = List.length cards
         ∧ StudySession.s_isComplete summary = true).
Proof.
  split.
  - intros now s He Hms. unfold StudySession.getSessionSummary. rewrite He.
    simpl. by apply duration_seconds.
  - intros start d cards clock t now m Hn Hm.
    unfold completeSession, getSessionSummary. rewrite Hm.
    rewrite advance_all by done. simpl. eexists. split; [done |].
    split; [done |]. simpl. split; [done |]. split; [done |].
    split; [apply duration_seconds |]. split; [apply size_indices | done].
Qed.

Lemma completion_time_is_kept_witness :
  ∃ summary,
    getSessionSummary 99000
      (mk sample_service
         (Some (advance ([10; 20] ++ [2600]) fresh_session)))
    = Success summary
    ∧ StudySession.s_duration summary = 3.
Proof.
  destruct completion_time_is_kept as [_ H].
  destruct (H 0 (Js.VString "deck-1") [card "a"; card "b"; card "c"]
              [10; 20] 2600 99000
              (mk sample_service
                 (Some (advance ([10; 20] ++ [2600]) fresh_session))))
    as (summary & _ & Hs & _ & _ & Hd & _); [reflexivity | reflexivity |].
  exists summary. split; [apply Hs | apply Hd; lia].
Defined.

Lemma navigate_session c m s :
  currentSession m = Some s → (∀ now, c ≠ DoComplete now) →
  navigate c m = set_currentSession (Some (call c s)) m.
Proof.
  intros Hm Hc. destruct c as [now | | index | now | now]; simpl.
  - unfold nextFlashcard. rewrite Hm.
    by destruct (StudySession.nextFlashcard now s).
  - unfold previousFlashcard. rewrite Hm.
    by destruct (StudySession.previousFlashcard s).
  - unfold jumpToFlashcard. rewrite Hm.
    destruct (Js.lt index (Js.ofZ 0)) eqn:Hneg.
    + unfold StudySession.jumpToFlashcard.
      rewrite (lt_not_ge _ _ Hneg). simpl.
      unfold set_currentSession. destruct m. simpl in *. by rewrite Hm.
    + by destruct (StudySession.jumpToFlashcard index s) as [s' []].
  - by destruct (Hc now).
  - unfold resetSession. by rewrite Hm.
Qed.

Lemma navigate_all_session calls m s :
  currentSession m = Some s →
  Forall (λ c, ∀ now, c ≠ DoComplete now) calls →
  navigate_all calls m = set_currentSession (Some (run calls s)) m.
Proof.
  intros Hm Hcalls. revert m s Hm.
  induction Hcalls as [| c calls Hc _ IH]; intros m s Hm.
  - unfold navigate_all, run, set_currentSession. simpl.
    destruct m. simpl in *. by rewrite Hm.
  - unfold navigate_all, run in *. simpl.
    rewrite (navigate_session c m s) by done.
    by rewrite (IH _ (call c s)).
Qed.

(** X10. The navigation methods of the manager and [resetSession] act on the
    current session as the methods of the session do, and keep it current:
    after any sequence of such calls the manager holds the session that the
    same calls on the session lead to, and the same store. Only
    [completeSession] and [endSession] drop the session. *)
Theorem manager_mirrors_session
    (calls : list Call) (m : StudyManager.t) (s : StudySession.t) :
  currentSession m = Some s →
  Forall (λ c, ∀ now, c ≠ DoComplete now) calls →
  navigate_all calls m = set_currentSession (Some (run calls s)) m
  ∧ hasActiveSession (navigate_all calls m) = true
  ∧ (∀ now, currentSession (navigate_all calls m ) = Some (run calls s)
            ∧ currentSession (navigate (DoComplete now) (navigate_all calls m)) = None
            ∧ currentSession (endSession now (navigate_all calls m)).1 = None).
Proof.
  intros Hm Hcalls. rewrite (navigate_all_session calls m s) by done.
  split; [done |]. split; [done |]. intros now. split; [done |]. by split.
Qed.

Lemma manager_mirrors_session_witness :
  currentSession
    (navigate_all [DoNext 10; DoJumpTo (Js.ofZ (-4)); DoReset 20] sample_manager)
  = Some (run [DoNext 10; DoJumpTo (Js.ofZ (-4)); DoReset 20] fresh_session).
Proof.
  by apply (manager_mirrors_session
              [DoNext 10; DoJumpTo (Js.ofZ (-4)); DoReset 20]
              sample_manager fresh_session); [| repeat constructor | exact 0].
Defined.

(** X11. A session started by the manager visits the cards in the order the
    store answered them: after k calls of [nextFlashcard], with k below the
    number of cards, [getCurrentFlashcard] of the manager answers card k, and
    after as many calls as there are cards it fails with 'No current
    flashcard (session may be complete)'. *)
Theorem cards_are_visited_in_order
    (now : Date) (deckId : Js.Value) (m : StudyManager.t) (deck : Deck.t)
    (c : Flashcard.t) (cards : list Flashcard.t) (clock : list Date) :
  Js.not deckId = false → Js.typeof deckId = "string" →
  loadDeck (dataService m) deckId = Return (Some deck) →
  loadFlashcardsForDeck (dataService m) deckId = Return (c :: cards) →
  let m' := navigate_all (DoNext <$> clock) (startStudySession now deckId m).1 in
  (∀ card, (c :: cards) !! List.length clock = Some card →
     getCurrentFlashcard m' = Success card)
  ∧ (List.length clock = S (List.length cards) →
     getCurrentFlashcard m'
     = Failure ["No current flashcard (session may be complete)"]).
Proof.
  intros Hnot Hty Hdeck Hcards. simpl.
  rewrite (startStudySession_success now deckId m deck (c :: cards)) by done.
  rewrite (navigate_all_session (DoNext <$> clock) _
             (StudySession.new now deckId (c :: cards)));
    [| done | apply Forall_fmap, Forall_true; by intros t t'].
  unfold getCurrentFlashcard. simpl.
  fold (advance clock (StudySession.new now deckId (c :: cards))).
  split.
  - intros card Hcard.
    rewrite underway_0, advance_underway
      by (apply lookup_lt_Some in Hcard; simpl in *; lia).
    unfold StudySession.getCurrentFlashcard, StudySession.length. simpl.
    rewrite ge_ofNat, bool_decide_eq_false_2
      by (apply lookup_lt_Some in Hcard; simpl in *; lia).
    by rewrite (array_get_ofNat _ _ _ Hcard).
  - intros Hlen.
    destruct (advance_completes_all now deckId (c :: cards) clock) as [Hc _];
      [done | done |].
    unfold StudySession.getCurrentFlashcard. by rewrite Hc.
Qed.

Lemma cards_are_visited_in_order_witness :
  getCurrentFlashcard
    (navigate_all (DoNext <$> [10; 20])
       (startStudySession 0 (Js.VString "deck-1") (new sample_service)).1)
  = Success (Flashcard.mk "c" "Q-c" "A-c" "deck-1" 0 0).
Proof.
  by eapply (cards_are_visited_in_order 0 (Js.VString "deck-1")
               (new sample_service) _ (card "a") [card "b"; card "c"] [10; 20]).
Defined.

End ManagerInUse.

(** * The data models and the data service *)

Section StoredRecords.

Lemma field_is_string (f : option string) (k : string) :
  field_is f (Js.VString k) = true ↔ f = Some k.
Proof.
  destruct f as [s |]; simpl; [| done].
  rewrite bool_decide_eq_true. split; [by intros -> | by intros [= ->]].
Qed.

(** Replacing the first record that has the key, or appending when there is
    none: what [saveFlashcard] and [saveDeck] do to their collection. *)
Lemma find_after_save {A} (key : A → option string) (k : string) (data : A)
    (l : list A) (v : Js.Value) :
  key data = Some k →
  let l' :=
    match list_find (λ x, field_is (key x) (Js.VString k) = true) l with
    | Some (i, _) => <[i := data]> l
    | None => l ++ [data]
    end in
  find (λ x, field_is (key x) v) l'
  = if bool_decide (v = Js.VString k) then Some data
    else find (λ x, field_is (key x) v) l.
Proof.
  intros Hk. simpl. induction l as [| x l IH]; simpl.
  - rewrite Hk. simpl. case_bool_decide as Hv.
    + subst v. simpl. by rewrite bool_decide_eq_true_2.
    + destruct v; simpl; try done. case_bool_decide; congruence.
  - destruct (decide (field_is (key x) (Js.VString k) = true)) as [Hx | Hx].
    + simpl. apply field_is_string in Hx. rewrite Hk, Hx.
      case_bool_decide as Hv.
      * subst v. simpl. by rewrite bool_decide_eq_true_2.
      * destruct v; simpl; try done. case_bool_decide; congruence.
    + destruct (list_find _ l) as [[i y] |] eqn:Hfind; simpl in *.
      * rewrite IH. case_bool_decide as Hv; [| done].
        subst v. by destruct (field_is (key x) (Js.VString k)).
      * rewrite IH. case_bool_decide as Hv; [| done].
        subst v. by destruct (field_is (key x) (Js.VString k)).
Qed.

Lemma find_after_delete {A} (key : A → option string) (l : list A)
    (v v' : Js.Value) :
  find (λ x, field_is (key x) v')
    (List.filter (λ x, negb (field_is (key x) v)) l)
  = if bool_decide (v' = v) then None
    else find (λ x, field_is (key x) v') l.
Proof.
  case_bool_decide as Hv.
  - subst v'. induction l as [| x l IH]; simpl; [done |].
    destruct (field_is (key x) v) eqn:Hx; simpl; [done |]. by rewrite Hx.
  - induction l as [| x l IH]; simpl; [done |].
    destruct (field_is (key x) v) eqn:Hx; simpl.
    + rewrite IH. destruct (field_is (key x) v') eqn:Hx'; [| done].
      destruct (key x), v, v'; simpl in *; try done.
      apply bool_decide_eq_true in Hx, Hx'. congruence.
    + by destruct (field_is (key x) v').
Qed.

Lemma flashcard_fromJSON_toJSON fresh now (c : Flashcard.t) :
  Flashcard.id c ≠ "" →
  Flashcard.fromJSON fresh now (FlashcardMethods.toJSON c) = c.
Proof.
  intros Hid. destruct c as [id q a d ca ua]. simpl in *.
  unfold Flashcard.fromJSON, Flashcard.or_else. simpl.
  rewrite decide_False by done.
  by destruct (decide (q = "")) as [-> |], (decide (a = "")) as [-> |],
    (decide (d = "")) as [-> |].
Qed.

Lemma deck_fromJSON_toJSON fresh now (d : Deck.t) :
  Deck.id d ≠ "" → Deck.fromJSON fresh now (DeckMethods.toJSON d) = d.
Proof.
  intros Hid. destruct d as [id n ds ids ca ua]. simpl in *.
  unfold Deck.fromJSON, Flashcard.or_else. simpl.
  rewrite decide_False by done.
  by destruct (decide (n = "")) as [-> |], (decide (ds = "")) as [-> |].
Qed.

(** X12. Writing a flashcard or a deck with [toJSON] and reading it with
    [fromJSON] gives the record back, provided its id is not empty; a record
    with an empty id comes back with a newly generated id and is otherwise
    the same. *)
Theorem json_round_trip (fresh : string) (now : Date) :
  (∀ c, Flashcard.fromJSON fresh now (FlashcardMethods.toJSON c)
        = if decide (Flashcard.id c = "")
          then Flashcard.mk fresh (Flashcard.question c) (Flashcard.answer c)
                 (Flashcard.deckId c) (Flashcard.createdAt c)
                 (Flashcard.updatedAt c)
          else c)
  ∧ (∀ d, Deck.fromJSON fresh now (DeckMethods.toJSON d)
          = if decide (Deck.id d = "")
            then Deck.mk fresh (Deck.name d) (Deck.description d)
                   (Deck.flashcardIds d) (Deck.createdAt d) (Deck.updatedAt d)
            else d).
Proof.
  split.
  - intros c. case_decide as Hid; [| by apply flashcard_fromJSON_toJSON].
    destruct c as [id q a d ca ua]. simpl in *. subst id.
    unfold Flashcard.fromJSON, Flashcard.or_else. simpl.
    by destruct (decide (q = "")) as [-> |], (decide (a = "")) as [-> |],
      (decide (d = "")) as [-> |].
  - intros d. case_decide as Hid; [| by apply deck_fromJSON_toJSON].
    destruct d as [id n ds ids ca ua]. simpl in *. subst id.
    unfold Deck.fromJSON, Flashcard.or_else. simpl.
    by destruct (decide (n = "")) as [-> |], (decide (ds = "")) as [-> |].
Qed.

Lemma storage_after_flashcards now l st :
  Store.available st = true →
  Store.storage (Store.updateMetadata now (Store.set_flashcards l st))
  = LocalStore.mkStorage true (Some l) (Store.parsed (Store.decks st)).
Proof.
  intros Ha. unfold Store.updateMetadata, Store.isStorageAvailable, Store.storage.
  simpl. by rewrite Ha.
Qed.

Lemma storage_after_decks now l st :
  Store.available st = true →
  Store.storage (Store.updateMetadata now (Store.set_decks l st))
  = LocalStore.mkStorage true (Store.parsed (Store.flashcards st)) (Some l).
Proof.
  intros Ha. unfold Store.updateMetadata, Store.isStorageAvailable, Store.storage.
  simpl. by rewrite Ha.
Qed.

(** X13. On an available store, [saveFlashcard] of a flashcard with a
    non-empty id succeeds; afterwards [loadFlashcard] of that id answers the
    flashcard, [loadFlashcard] of any other id answers what it answered
    before, the decks are untouched and the metadata carry the time of the
    call. *)
Theorem saved_flashcard_is_loaded
    (w : LocalStore.World) (now : Date) (c : Flashcard.t) (st : Store.t) :
  Store.available st = true →
  Flashcard.id c ≠ "" →
  ∃ st',
    Store.saveFlashcard now c st = Return st'
    ∧ Store.loadFlashcard w st' (Js.VString (Flashcard.id c)) = Some c
    ∧ (∀ id, id ≠ Js.VString (Flashcard.id c) →
         Store.loadFlashcard w st' id = Store.loadFlashcard w st id)
    ∧ Store.decks st' = Store.decks st
    ∧ Store.getMetadata st' = Some (Store.mkMetadata "1.0.0" now).
Proof.
  intros Ha Hid. unfold Store.saveFlashcard, Store.isStorageAvailable.
  rewrite Ha. simpl. eexists. split; [done |].
  assert (Hfind : ∀ v,
    Store.loadFlashcard w
      (Store.updateMetadata now
         (Store.set_flashcards
            match list_find
                    (λ f, field_is (Flashcard.j_id f)
                            (Js.VString (Flashcard.id c)) = true)
                    (LocalStore.loadAllFlashcards (Store.storage st)) with
            | Some (i, _) =>
                <[i := FlashcardMethods.toJSON c]>
                  (LocalStore.loadAllFlashcards (Store.storage st))
            | None =>
                LocalStore.loadAllFlashcards (Store.storage st)
                ++ [FlashcardMethods.toJSON c]
            end st)) v
    = if bool_decide (v = Js.VString (Flashcard.id c)) then Some c
      else Store.loadFlashcard w st v).
  { intros v. unfold Store.loadFlashcard at 1, Store.isStorageAvailable.
    rewrite storage_after_flashcards by done.
    unfold Store.updateMetadata, Store.isStorageAvailable. simpl. rewrite Ha.
    simpl. unfold LocalStore.loadAllFlashcards at 1. simpl.
    rewrite (find_after_save Flashcard.j_id (Flashcard.id c)) by done.
    case_bool_decide; [by rewrite flashcard_fromJSON_toJSON |].
    unfold Store.loadFlashcard, Store.isStorageAvailable. by rewrite Ha. }
  split; [by rewrite Hfind, bool_decide_eq_true_2 |].
  split; [intros id Hne; by rewrite Hfind, bool_decide_eq_false_2 |].
  unfold Store.updateMetadata, Store.getMetadata, Store.isStorageAvailable.
  simpl. by rewrite Ha.
Qed.

(** X14. On an available store, [deleteFlashcard] succeeds for every id;
    afterwards [loadFlashcard] of that id answers null, every other id is
    loaded as before, and the decks are untouched, so a deck that listed the
    flashcard still lists it. *)
Theorem deleted_flashcard_is_gone
    (w : LocalStore.World) (now : Date) (id : Js.Value) (st : Store.t) :
  Store.available st = true →
  ∃ st',
    Store.deleteFlashcard now id st = Return st'
    ∧ Store.loadFlashcard w st' id = None
    ∧ (∀ id', id' ≠ id →
         Store.loadFlashcard w st' id' = Store.loadFlashcard w st id')
    ∧ Store.decks st' = Store.decks st.
Proof.
  intros Ha. unfold Store.deleteFlashcard, Store.isStorageAvailable.
  rewrite Ha. simpl. eexists. split; [done |].
  assert (Hfind : ∀ v,
    Store.loadFlashcard w
      (Store.updateMetadata now
         (Store.set_flashcards
            (List.filter (λ f, negb (field_is (Flashcard.j_id f) id))
               (LocalStore.loadAllFlashcards (Store.storage st))) st)) v
    = if bool_decide (v = id) then None else Store.loadFlashcard w st v).
  { intros v. unfold Store.loadFlashcard at 1, Store.isStorageAvailable.
    rewrite storage_after_flashcards by done.
    unfold Store.updateMetadata, Store.isStorageAvailable. simpl. rewrite Ha.
    simpl. unfold LocalStore.loadAllFlashcards at 1. simpl.
    rewrite (find_after_delete Flashcard.j_id).
    case_bool_decide; [done |].
    unfold Store.loadFlashcard, Store.isStorageAvailable. by rewrite Ha. }
  split; [by rewrite Hfind, bool_decide_eq_true_2 |].
  split; [intros id' Hne; by rewrite Hfind, bool_decide_eq_false_2 |].
  unfold Store.updateMetadata, Store.isStorageAvailable. simpl. by rewrite Ha.
Qed.

Lemma saved_flashcard_is_loaded_witness :
  ∃ st',
    Store.saveFlashcard 50 (card "b") sample_store = Return st'
    ∧ Store.loadFlashcard sample_world st' (Js.VString "b") = Some (card "b").
Proof.
  destruct (saved_flashcard_is_loaded sample_world 50 (card "b") sample_store)
    as (st' & Hs & Hl & _); [reflexivity | discriminate |].
  exists st'. split; [exact Hs | exact Hl].
Defined.

Lemma deleted_flashcard_is_gone_witness :
  ∃ st',
    Store.deleteFlashcard 50 (Js.VString "a") sample_store = Return st'
    ∧ Store.loadFlashcard sample_world st' (Js.VString "a") = None.
Proof.
  destruct (deleted_flashcard_is_gone sample_world 50 (Js.VString "a")
              sample_store) as (st' & Hs & Hl & _); [reflexivity |].
  exists st'. split; [exact Hs | exact Hl].
Defined.

Lemma filter_sublist {A} (f : A → bool) (l : list A) : List.filter f l `sublist_of` l.
Proof.
  induction l as [| x l IH]; simpl; [done |].
  destruct (f x); by constructor.
Qed.

(** X15. When the stored flashcards have pairwise distinct ids, they still
    have after [saveFlashcard] and after [deleteFlashcard]: saving a
    flashcard whose id is stored replaces that record, and only a flashcard
    with a new id adds one. *)
Theorem flashcard_ids_stay_unique
    (now : Date) (c : Flashcard.t) (id : Js.Value) (st st' : Store.t) :
  NoDup (Flashcard.j_id <$> LocalStore.loadAllFlashcards (Store.storage st)) →
  Store.saveFlashcard now c st = Return st'
  ∨ Store.deleteFlashcard now id st = Return st' →
  NoDup (Flashcard.j_id <$> LocalStore.loadAllFlashcards (Store.storage st')).
Proof.
  intros Hnd [Hsave | Hdelete].
  - unfold Store.saveFlashcard, Store.isStorageAvailable in Hsave.
    destruct (Store.available st) eqn:Ha; [| done]. simpl in Hsave.
    injection Hsave as <-. rewrite storage_after_flashcards by done.
    unfold LocalStore.loadAllFlashcards at 1. simpl.
    destruct (list_find _ _) as [[i x] |] eqn:Hfind.
    + apply list_find_Some in Hfind as (Hi & Hx%field_is_string & _).
      rewrite list_fmap_insert. simpl.
      rewrite list_insert_id; [done |]. by rewrite list_lookup_fmap, Hi, <- Hx.
    + rewrite fmap_app. simpl. apply NoDup_app. split; [done |]. split.
      * intros k Hk ->%list_elem_of_singleton.
        apply list_elem_of_fmap in Hk as (x & Hx & Hin).
        apply list_find_None in Hfind. rewrite Forall_forall in Hfind.
        apply (Hfind x Hin). by apply field_is_string.
      * apply NoDup_singleton.
  - unfold Store.deleteFlashcard, Store.isStorageAvailable in Hdelete.
    destruct (Store.available st) eqn:Ha; [| done]. simpl in Hdelete.
    injection Hdelete as <-. rewrite storage_after_flashcards by done.
    unfold LocalStore.loadAllFlashcards at 1. simpl.
    apply (sublist_NoDup _ _ Hnd). apply fmap_sublist, filter_sublist.
Qed.

Lemma flashcard_ids_stay_unique_witness :
  ∃ st',
    Store.saveFlashcard 50 (card "a") sample_store = Return st'
    ∧ NoDup (Flashcard.j_id
             <$> LocalStore.loadAllFlashcards (Store.storage st')).
Proof.
  eexists. split; [reflexivity |].
  apply (flashcard_ids_stay_unique 50 (card "a") Js.VNull sample_store).
  - simpl. repeat constructor; set_solver.
  - by left.
Defined.

(** X16. On a store that is not available every write throws and names the
    failed operation, every read answers as for an empty store, the
    constructor's initialisation changes nothing, and a study manager on
    this store cannot start a session: for every id that is a non-empty
    string it answers 'Deck not found'. *)
Theorem unavailable_store
    (w : LocalStore.World) (now : Date) (st : Store.t) :
  Store.available st = false →
  (∀ c, Store.saveFlashcard now c st
        = Throw "Failed to save flashcard: Storage is not available")
  ∧ (∀ d, Store.saveDeck now d st
          = Throw "Failed to save deck: Storage is not available")
  ∧ (∀ id, Store.deleteFlashcard now id st
           = Throw "Failed to delete flashcard: Storage is not available")
  ∧ (∀ id, Store.deleteDeck now id st
           = Throw "Failed to delete deck: Storage is not available")
  ∧ Store.clearAllData now st
    = Throw "Failed to clear data: Storage is not available"
  ∧ Store.initializeStorage now st = st
  ∧ (∀ id, Store.loadFlashcard w st id = None)
  ∧ (∀ id, LocalStore.loadDeck w (Store.storage st) id = None)
  ∧ (∀ id, LocalStore.loadFlashcardsForDeck w (Store.storage st) id = [])
  ∧ Store.loadAllDecks w st = []
  ∧ Store.getMetadata st = None
  ∧ (∀ t id m, StudyManager.dataService m = Store.service w st → id ≠ "" →
       StudyManager.startStudySession t (Js.VString id) m
       = (m, StudyManager.Failure ["Deck not found"])).
Proof.
  intros Ha.
  unfold Store.saveFlashcard, Store.saveDeck, Store.deleteFlashcard,
    Store.deleteDeck, Store.clearAllData, Store.initializeStorage,
    Store.loadFlashcard, Store.loadAllDecks, Store.getMetadata,
    Store.isStorageAvailable, LocalStore.loadDeck,
    LocalStore.loadFlashcardsForDeck, LocalStore.loadAllDecksData,
    LocalStore.loadAllFlashcards.
  simpl. rewrite Ha. simpl. repeat (split; [done |]).
  intros t id m Hds Hid. unfold StudyManager.startStudySession.
  rewrite Hds. simpl. rewrite bool_decide_eq_false_2 by done. simpl.
  unfold LocalStore.loadDeck. simpl. by rewrite Ha.
Qed.

Lemma unavailable_store_witness :
  Store.saveFlashcard 5 (card "a")
    (Store.mk false Store.Missing Store.Missing Store.Missing)
  = Throw "Failed to save flashcard: Storage is not available".
Proof.
  by apply (unavailable_store sample_world 5
              (Store.mk false Store.Missing Store.Missing Store.Missing)).
Defined.

Lemma imap_fromJSON_deckId w d (l : list Flashcard.json) (f : nat → nat) :
  Forall (λ x, Flashcard.j_deckId x = Some d) l →
  Forall (λ c, Flashcard.deckId c = d)
    (imap (λ i x, Flashcard.fromJSON (LocalStore.generateId w (f i))
                    (LocalStore.now w) x) l).
Proof.
  revert f. induction l as [| x l IH]; intros f Hl; simpl; [done |].
  apply Forall_cons in Hl as [Hx Hl]. constructor.
  - simpl. rewrite Hx. unfold Flashcard.or_else. by case_decide.
  - apply (IH (f ∘ S)), Hl.
Qed.

(** X17. [loadFlashcardsForDeck] answers, in stored order, one flashcard for
    each stored record of the deck and no other: every flashcard it answers
    carries the id of the deck. So does every card of a session that the
    study manager starts on this store. *)
Theorem deck_cards_are_loaded
    (w : LocalStore.World) (st : LocalStore.Storage) (d : string) :
  let loaded := LocalStore.loadFlashcardsForDeck w st (Js.VString d) in
  Forall (λ c, Flashcard.deckId c = d) loaded
  ∧ List.length loaded
    = List.length
        (List.filter (λ x, bool_decide (Flashcard.j_deckId x = Some d))
           (LocalStore.loadAllFlashcards st))
  ∧ (∀ now m session,
       StudyManager.dataService m = LocalStore.service w st →
       (StudyManager.startStudySession now (Js.VString d) m).2
       = StudyManager.Success session →
       StudySession.flashcards session = loaded
       ∧ Forall (λ c, Flashcard.deckId c = d) (StudySession.flashcards session)).
Proof.
  simpl.
  assert (Hall : Forall (λ c, Flashcard.deckId c = d)
                   (LocalStore.loadFlashcardsForDeck w st (Js.VString d))).
  { unfold LocalStore.loadFlashcardsForDeck.
    apply (imap_fromJSON_deckId w d _ id).
    apply Forall_forall. intros x [_ Hx]%list_elem_of_In%filter_In.
    by apply field_is_string. }
  split; [done |]. split.
  - unfold LocalStore.loadFlashcardsForDeck. rewrite length_imap.
    f_equal. apply filter_ext. intros x.
    destruct (Flashcard.j_deckId x) as [k |]; simpl; [| done].
    repeat case_bool_decide; congruence.
  - intros now m session Hds. unfold StudyManager.startStudySession.
    rewrite Hds. simpl.
    destruct (bool_decide (d = "")); simpl; [done |].
    destruct (LocalStore.loadDeck w st (Js.VString d)); [| done].
    destruct (LocalStore.loadFlashcardsForDeck w st (Js.VString d)) eqn:Hc;
      simpl; [done |].
    by intros [= <-].
Qed.

Lemma deck_cards_are_loaded_witness :
  ∃ session,
    (StudyManager.startStudySession 0 (Js.VString "deck-1")
       (StudyManager.new sample_service)).2
    = StudyManager.Success session
    ∧ Forall (λ c, Flashcard.deckId c = "deck-1")
        (StudySession.flashcards session).
Proof.
  destruct (deck_cards_are_loaded sample_world sample_storage "deck-1")
    as (_ & _ & H).
  eexists. split; [reflexivity |].
  by apply (H 0 (StudyManager.new sample_service)).
Defined.

Lemma imap_snoc_fromJSON w (l : list Flashcard.json) (c : Flashcard.t) :
  Flashcard.id c ≠ "" →
  imap (λ i x, Flashcard.fromJSON (LocalStore.generateId w i)
                 (LocalStore.now w) x) (l ++ [FlashcardMethods.toJSON c])
  = imap (λ i x, Flashcard.fromJSON (LocalStore.generateId w i)
                   (LocalStore.now w) x) l ++ [c].
Proof.
  intros Hid. rewrite imap_app. simpl. by rewrite flashcard_fromJSON_toJSON.
Qed.

(** X18. On an available store, saving a flashcard whose id is not empty and
    not stored yet appends it to the cards of its deck: afterwards
    [loadFlashcardsForDeck] of its deck answers the former cards followed by
    the new one, and for every other deck what it answered before. A study
    session started afterwards on its deck ends with the new card. *)
Theorem saved_card_joins_its_deck
    (w : LocalStore.World) (now : Date) (c : Flashcard.t) (st : Store.t) :
  Store.available st = true →
  Flashcard.id c ≠ "" →
  Store.loadFlashcard w st (Js.VString (Flashcard.id c)) = None →
  ∃ st',
    Store.saveFlashcard now c st = Return st'
    ∧ LocalStore.loadFlashcardsForDeck w (Store.storage st')
        (Js.VString (Flashcard.deckId c))
      = LocalStore.loadFlashcardsForDeck w (Store.storage st)
          (Js.VString (Flashcard.deckId c)) ++ [c]
    ∧ (∀ d, d ≠ Flashcard.deckId c →
         LocalStore.loadFlashcardsForDeck w (Store.storage st') (Js.VString d)
         = LocalStore.loadFlashcardsForDeck w (Store.storage st) (Js.VString d))
    ∧ (∀ d, LocalStore.loadDeck w (Store.storage st') d
            = LocalStore.loadDeck w (Store.storage st) d).
Proof.
  intros Ha Hid Hnew. unfold Store.saveFlashcard, Store.isStorageAvailable.
  rewrite Ha. simpl. eexists. split; [done |].
  assert (Hnone : list_find
            (λ f, field_is (Flashcard.j_id f) (Js.VString (Flashcard.id c)) = true)
            (LocalStore.loadAllFlashcards (Store.storage st)) = None).
  { unfold Store.loadFlashcard, Store.isStorageAvailable in Hnew.
    rewrite Ha in Hnew.
    destruct (find _ _) as [x |] eqn:Hfind; [done |].
    apply list_find_None, Forall_forall. intros x Hx%list_elem_of_In Hp.
    by rewrite (find_none _ _ Hfind x Hx) in Hp. }
  rewrite Hnone, storage_after_flashcards by done.
  assert (Hold : LocalStore.loadAllFlashcards (Store.storage st)
                 = default [] (Store.parsed (Store.flashcards st))).
  { unfold LocalStore.loadAllFlashcards. simpl. by rewrite Ha. }
  unfold LocalStore.loadFlashcardsForDeck, LocalStore.loadDeck,
    LocalStore.loadAllDecksData, LocalStore.loadAllFlashcards.
  simpl. rewrite Ha. simpl.
  split; [| split; [| done]].
  - rewrite List.filter_app. simpl. rewrite bool_decide_eq_true_2 by done.
    by rewrite imap_snoc_fromJSON.
  - intros d Hd. rewrite List.filter_app. simpl.
    rewrite bool_decide_eq_false_2 by congruence. by rewrite app_nil_r.
Qed.

Lemma saved_card_joins_its_deck_witness :
  ∃ st',
    Store.saveFlashcard 50 (card "b") sample_store = Return st'
    ∧ LocalStore.loadFlashcardsForDeck sample_world (Store.storage st')
        (Js.VString "deck-1")
      = [card "a"; card "b"].
Proof.
  destruct (saved_card_joins_its_deck sample_world 50 (card "b") sample_store)
    as (st' & Hs & Hl & _); [reflexivity | discriminate | reflexivity |].
  exists st'. split; [exact Hs | exact Hl].
Defined.

Lemma loadAllDecksData_parsed f (l : list Deck.json) :
  LocalStore.loadAllDecksData (LocalStore.mkStorage true f (Some l)) = l.
Proof. done. Qed.

(** X19. On an available store, [saveDeck] of a deck with a non-empty id
    succeeds; afterwards [loadDeck] of that id answers the deck, every other
    id is loaded as before and the flashcards are untouched. *)
Theorem saved_deck_is_loaded
    (w : LocalStore.World) (now : Date) (d : Deck.t) (st : Store.t) :
  Store.available st = true →
  Deck.id d ≠ "" →
  ∃ st',
    Store.saveDeck now d st = Return st'
    ∧ LocalStore.loadDeck w (Store.storage st') (Js.VString (Deck.id d)) = Some d
    ∧ (∀ id, id ≠ Js.VString (Deck.id d) →
         LocalStore.loadDeck w (Store.storage st') id
         = LocalStore.loadDeck w (Store.storage st) id)
    ∧ Store.flashcards st' = Store.flashcards st
    ∧ Store.getMetadata st' = Some (Store.mkMetadata "1.0.0" now).
Proof.
  intros Ha Hid. unfold Store.saveDeck, Store.isStorageAvailable.
  rewrite Ha. simpl. eexists. split; [done |].
  rewrite storage_after_decks by done.
  assert (Hfind : ∀ v l,
    LocalStore.loadDeck w
      (LocalStore.mkStorage true (Store.parsed (Store.flashcards st))
         (Some
            match list_find
                    (λ x, field_is (Deck.j_id x) (Js.VString (Deck.id d)) = true)
                    l with
            | Some (i, _) => <[i := DeckMethods.toJSON d]> l
            | None => l ++ [DeckMethods.toJSON d]
            end)) v
    = if bool_decide (v = Js.VString (Deck.id d)) then Some d
      else match find (λ x, field_is (Deck.j_id x) v) l with
           | Some deckData =>
               Some (Deck.fromJSON (LocalStore.generateId w 0)
                       (LocalStore.now w) deckData)
           | None => None
           end).
  { intros v l. unfold LocalStore.loadDeck, LocalStore.loadAllDecksData. simpl.
    rewrite (find_after_save Deck.j_id (Deck.id d)) by done.
    case_bool_decide; [by rewrite deck_fromJSON_toJSON | done]. }
  rewrite !Hfind.
  split; [by rewrite bool_decide_eq_true_2 |]. split.
  - intros id Hne. rewrite Hfind, bool_decide_eq_false_2 by done.
    unfold LocalStore.loadDeck. simpl. by rewrite Ha.
  - unfold Store.updateMetadata, Store.getMetadata, Store.isStorageAvailable.
    simpl. by rewrite Ha.
Qed.

Lemma saved_deck_is_loaded_witness :
  ∃ st',
    Store.saveDeck 50 (Deck.mk "deck-9" "Nine" "" [] 1 2) sample_store
    = Return st'
    ∧ LocalStore.loadDeck sample_world (Store.storage st') (Js.VString "deck-9")
      = Some (Deck.mk "deck-9" "Nine" "" [] 1 2).
Proof.
  destruct (saved_deck_is_loaded sample_world 50
              (Deck.mk "deck-9" "Nine" "" [] 1 2) sample_store)
    as (st' & Hs & Hl & _); [reflexivity | discriminate |].
  exists st'. split; [exact Hs | exact Hl].
Defined.

(** X20. On an available store, [deleteDeck] succeeds for every id;
    afterwards [loadDeck] of that id answers null and every other id is
    loaded as before. The flashcards are untouched: the cards of the deleted
    deck are still answered by [loadFlashcardsForDeck], yet the study manager
    refuses to start a session on it with 'Deck not found'. *)
Theorem deleted_deck_keeps_its_cards
    (w : LocalStore.World) (now : Date) (id : string) (st : Store.t) :
  Store.available st = true →
  id ≠ "" →
  ∃ st',
    Store.deleteDeck now (Js.VString id) st = Return st'
    ∧ LocalStore.loadDeck w (Store.storage st') (Js.VString id) = None
    ∧ (∀ id', id' ≠ Js.VString id →
         LocalStore.loadDeck w (Store.storage st') id'
         = LocalStore.loadDeck w (Store.storage st) id')
    ∧ (∀ d, LocalStore.loadFlashcardsForDeck w (Store.storage st') d
            = LocalStore.loadFlashcardsForDeck w (Store.storage st) d)
    ∧ (∀ t m, StudyManager.dataService m = Store.service w st' →
         StudyManager.startStudySession t (Js.VString id) m
         = (m, StudyManager.Failure ["Deck not found"])).
Proof.
  intros Ha Hid. unfold Store.deleteDeck, Store.isStorageAvailable.
  rewrite Ha. simpl. eexists. split; [done |].
  rewrite storage_after_decks by done.
  assert (Hfind : ∀ v,
    LocalStore.loadDeck w
      (LocalStore.mkStorage true (Store.parsed (Store.flashcards st))
         (Some (List.filter (λ x, negb (field_is (Deck.j_id x) (Js.VString id)))
                  (LocalStore.loadAllDecksData (Store.storage st))))) v
    = if bool_decide (v = Js.VString id) then None
      else LocalStore.loadDeck w (Store.storage st) v).
  { intros v. unfold LocalStore.loadDeck at 1.
    rewrite loadAllDecksData_parsed.
    rewrite (find_after_delete Deck.j_id).
    case_bool_decide; [done |].
    unfold LocalStore.loadDeck. simpl. by rewrite Ha. }
  split; [by rewrite Hfind, bool_decide_eq_true_2 |].
  split; [intros id' Hne; by rewrite Hfind, bool_decide_eq_false_2 |].
  split.
  - intros d. unfold LocalStore.loadFlashcardsForDeck,
      LocalStore.loadAllFlashcards. simpl. by rewrite Ha.
  - intros t m Hds. unfold StudyManager.startStudySession. rewrite Hds.
    unfold Store.service. rewrite storage_after_decks by done. simpl.
    rewrite bool_decide_eq_false_2 by done. simpl.
    by rewrite Hfind, bool_decide_eq_true_2.
Qed.

Lemma deleted_deck_keeps_its_cards_witness :
  ∃ st',
    Store.deleteDeck 50 (Js.VString "deck-1") sample_store = Return st'
    ∧ LocalStore.loadDeck sample_world (Store.storage st') (Js.VString "deck-1")
      = None
    ∧ LocalStore.loadFlashcardsForDeck sample_world (Store.storage st')
        (Js.VString "deck-1")
      = [card "a"].
Proof.
  destruct (deleted_deck_keeps_its_cards sample_world 50 "deck-1" sample_store)
    as (st' & Hs & Hl & _ & Hc & _); [reflexivity | discriminate |].
  exists st'. split; [exact Hs |]. split; [exact Hl |]. by rewrite Hc.
Defined.

(** X21. On an available store, [clearAllData] leaves no flashcard and no
    deck and writes fresh metadata. The initialisation that the constructor
    runs writes the entries for which [getItem] answers null, those that are
    absent and those that are empty, and leaves every other entry as it is,
    readable or not; afterwards no entry is absent or empty, running it
    again changes nothing, and the flashcards and decks that are loaded are
    the same as before it. *)
Theorem clear_and_initialize (w : LocalStore.World) (now : Date) (st : Store.t) :
  Store.available st = true →
  let st1 := Store.initializeStorage now st in
  (∃ st',
     Store.clearAllData now st = Return st'
     ∧ st' = Store.mk true (Store.Parsed []) (Store.Parsed [])
               (Store.Parsed (Store.mkMetadata "1.0.0" now))
     ∧ (∀ id, Store.loadFlashcard w st' id = None)
     ∧ (∀ id, LocalStore.loadDeck w (Store.storage st') id = None)
     ∧ (∀ id, LocalStore.loadFlashcardsForDeck w (Store.storage st') id = [])
     ∧ Store.loadAllDecks w st' = [])
  ∧ (Store.flashcards st = Store.Missing ∨ Store.flashcards st = Store.Blank →
     Store.flashcards st1 = Store.Parsed [])
  ∧ (Store.flashcards st = Store.Corrupt
     ∨ (∃ l, Store.flashcards st = Store.Parsed l) →
     Store.flashcards st1 = Store.flashcards st)
  ∧ (Store.decks st = Store.Missing ∨ Store.decks st = Store.Blank →
     Store.decks st1 = Store.Parsed [])
  ∧ (Store.decks st = Store.Corrupt ∨ (∃ l, Store.decks st = Store.Parsed l) →
     Store.decks st1 = Store.decks st)
  ∧ (Store.metadata st = Store.Missing ∨ Store.metadata st = Store.Blank →
     Store.metadata st1 = Store.Parsed (Store.mkMetadata "1.0.0" now))
  ∧ (Store.metadata st = Store.Corrupt
     ∨ (∃ m, Store.metadata st = Store.Parsed m) →
     Store.metadata st1 = Store.metadata st)
  ∧ (Store.absent (Store.flashcards st1) = false
     ∧ Store.absent (Store.decks st1) = false
     ∧ Store.absent (Store.metadata st1) = false)
  ∧ (∀ now', Store.initializeStorage now' st1 = st1)
  ∧ (∀ id, Store.loadFlashcard w st1 id = Store.loadFlashcard w st id)
  ∧ (∀ id, LocalStore.loadDeck w (Store.storage st1) id
           = LocalStore.loadDeck w (Store.storage st) id)
  ∧ (∀ id, LocalStore.loadFlashcardsForDeck w (Store.storage st1) id
           = LocalStore.loadFlashcardsForDeck w (Store.storage st) id)
  ∧ Store.loadAllDecks w st1 = Store.loadAllDecks w st.
Proof.
  intros Ha. destruct st as [a f d m]. simpl in Ha. subst a.
  unfold Store.clearAllData, Store.initializeStorage,
    Store.isStorageAvailable. simpl.
  split; [eexists; split; [done |]; by repeat split |].
  split; [by intros [-> | ->] |].
  split; [by intros [-> | [l ->]] |].
  split; [by intros [-> | ->] |].
  split; [by intros [-> | [l ->]] |].
  split; [by intros [-> | ->] |].
  split; [by intros [-> | [l ->]] |].
  split; [by destruct f, d, m |].
  split; [intros now'; by destruct f, d, m |].
  split; [intros id; by destruct f |].
  split; [intros id; by destruct d |].
  split; [intros id; by destruct f |].
  by destruct d.
Qed.

Lemma clear_and_initialize_witness :
  ∃ st',
    Store.clearAllData 50 sample_store = Return st'
    ∧ Store.loadAllDecks sample_world st' = [].
Proof.
  destruct (clear_and_initialize sample_world 50 sample_store)
    as [(st' & Hs & _ & _ & _ & _ & Hd) _]; [reflexivity |].
  exists st'. split; [exact Hs | exact Hd].
Defined.

(** An entry that holds the empty string is written anew. *)
Example empty_entry_is_overwritten :
  Store.initializeStorage 50
    (Store.mk true Store.Blank (Store.Parsed [deck_json "deck-1" []])
       Store.Corrupt)
  = Store.mk true (Store.Parsed []) (Store.Parsed [deck_json "deck-1" []])
      Store.Corrupt.
Proof. reflexivity. Qed.

Lemma remove_first_sublist (id : string) (l : list string) :
  match list_find (λ x, x = id) l with
  | Some (i, _) => delete i l
  | None => l
  end `sublist_of` l.
Proof.
  destruct (list_find _ l) as [[i x] |]; [apply sublist_delete | done].
Qed.

Lemma remove_first_gone (id : string) (l : list string) :
  NoDup l →
  id ∉ match list_find (λ x, x = id) l with
       | Some (i, _) => delete i l
       | None => l
       end.
Proof.
  intros Hnd. destruct (list_find _ l) as [[i x] |] eqn:Hfind.
  - apply list_find_Some in Hfind as (Hi & -> & _).
    rewrite <- (take_drop_middle l i id Hi) in Hnd.
    apply NoDup_app in Hnd as (_ & Hl & [Hr _]%NoDup_cons).
    rewrite delete_take_drop. intros [Hin | Hin]%elem_of_app; [| done].
    apply (Hl id Hin). by left.
  - apply list_find_None in Hfind. rewrite Forall_forall in Hfind.
    intros Hin. by apply (Hfind id Hin).
Qed.

Lemma remove_first_added (id : string) (l : list string) :
  id ∉ l →
  match list_find (λ x, x = id) (l ++ [id]) with
  | Some (i, _) => delete i (l ++ [id])
  | None => l ++ [id]
  end = l.
Proof.
  intros Hid. induction l as [| x l IH]; simpl.
  - by rewrite decide_True.
  - apply not_elem_of_cons in Hid as [Hne Hid].
    rewrite decide_False by done. specialize (IH Hid).
    destruct (list_find _ (l ++ [id])) as [[i y] |]; simpl in *; by rewrite IH.
Qed.

(** X22. A deck lists a flashcard id at most once as long as it is changed
    with [addFlashcard] and [removeFlashcard]: both keep the list free of
    duplicates. Adding makes the id a member, and adding an id that is a
    member changes nothing, not even the update time. On a list free of
    duplicates, removing makes the id a non-member, and removing an id just
    added to a deck that did not have it restores the list. *)
Theorem deck_lists_each_card_once (now : Date) (id : string) (d : Deck.t) :
  id ∈ Deck.flashcardIds (DeckMethods.addFlashcard now id d)
  ∧ (id ∈ Deck.flashcardIds d → DeckMethods.addFlashcard now id d = d)
  ∧ (id ∉ Deck.flashcardIds d → DeckMethods.removeFlashcard now id d = d)
  ∧ (NoDup (Deck.flashcardIds d) →
     NoDup (Deck.flashcardIds (DeckMethods.addFlashcard now id d))
     ∧ NoDup (Deck.flashcardIds (DeckMethods.removeFlashcard now id d))
     ∧ id ∉ Deck.flashcardIds (DeckMethods.removeFlashcard now id d))
  ∧ (∀ now', id ∉ Deck.flashcardIds d →
       Deck.flashcardIds
         (DeckMethods.removeFlashcard now' id (DeckMethods.addFlashcard now id d))
       = Deck.flashcardIds d)
  ∧ (DeckMethods.getFlashcardCount (DeckMethods.addFlashcard now id d)
     = if bool_decide (id ∈ Deck.flashcardIds d)
       then DeckMethods.getFlashcardCount d
       else S (DeckMethods.getFlashcardCount d)).
Proof.
  unfold DeckMethods.addFlashcard, DeckMethods.removeFlashcard,
    DeckMethods.getFlashcardCount.
  split; [| split; [| split; [| split; [| split]]]].
  - case_bool_decide; [done |]. simpl. set_solver.
  - intros Hin. by rewrite bool_decide_eq_true_2.
  - intros Hout. destruct (list_find _ _) as [[i x] |] eqn:Hfind; [| done].
    apply list_find_Some in Hfind as (Hi%list_elem_of_lookup_2 & -> & _). done.
  - intros Hnd. split; [| split].
    + case_bool_decide as Hin; [done |]. simpl.
      apply NoDup_app. split; [done |]. split; [| apply NoDup_singleton].
      by intros x Hx ->%list_elem_of_singleton.
    + pose proof (remove_first_sublist id (Deck.flashcardIds d)) as Hsub.
      destruct (list_find _ _) as [[i x] |]; simpl; [| done].
      by apply (sublist_NoDup _ _ Hnd).
    + pose proof (remove_first_gone id (Deck.flashcardIds d) Hnd) as Hgone.
      by destruct (list_find _ _) as [[i x] |].
  - intros now' Hout. rewrite bool_decide_eq_false_2 by done. simpl.
    pose proof (remove_first_added id (Deck.flashcardIds d) Hout) as Hback.
    by destruct (list_find _ _) as [[i x] |].
  - case_bool_decide; [done |]. simpl. rewrite length_app. simpl. lia.
Qed.

Lemma deck_lists_each_card_once_witness :
  Deck.flashcardIds
    (DeckMethods.removeFlashcard 9 "b"
       (DeckMethods.addFlashcard 8 "b" (Deck.mk "deck-1" "One" "" ["a"] 0 0)))
  = ["a"].
Proof.
  destruct (deck_lists_each_card_once 8 "b" (Deck.mk "deck-1" "One" "" ["a"] 0 0))
    as (_ & _ & _ & _ & H & _).
  apply (H 9). simpl. set_solver.
Defined.

Lemma deck_lists_added now id d :
  id ∈ Deck.flashcardIds (DeckMethods.addFlashcard now id d).
Proof.
  unfold DeckMethods.addFlashcard. case_bool_decide; [done |]. simpl.
  set_solver.
Qed.

End StoredRecords.

(** * Validation *)

Section Validation.

Import ValidationService.

Lemma trimStart_length s : (String.length (JsString.trimStart s) ≤ String.length s)%nat.
Proof.
  induction s as [| a s IH]; simpl; [done |].
  destruct (JsString.is_whitespace a); simpl; lia.
Qed.

Lemma trimEnd_length s : (String.length (JsString.trimEnd s) ≤ String.length s)%nat.
Proof.
  induction s as [| a s IH]; simpl; [done |].
  destruct (JsString.trimEnd s); [destruct (JsString.is_whitespace a) |];
    simpl in *; lia.
Qed.

Lemma length_append (s t : string) :
  String.length (s +:+ t) = (String.length s + String.length t)%nat.
Proof. induction s as [| a s IH]; simpl; [done | by rewrite IH]. Qed.

Lemma trimStart_whitespace s : only_whitespace s = true → JsString.trimStart s = "".
Proof.
  induction s as [| a s IH]; simpl; [done |].
  intros [-> Hs]%andb_true_iff. auto.
Qed.

Lemma trimEnd_snoc s a :
  JsString.is_whitespace a = true →
  JsString.trimEnd (s +:+ String a "") = JsString.trimEnd s.
Proof.
  intros Ha. induction s as [| b s IH]; simpl.
  - by rewrite Ha.
  - by rewrite IH.
Qed.

(** A string that [trim] leaves alone neither starts nor ends with white
    space. *)
Lemma trim_fixed s :
  JsString.trim s = s →
  (∀ a rest, s = String a rest → JsString.is_whitespace a = false)
  ∧ (∀ a rest, s = rest +:+ String a "" → JsString.is_whitespace a = false).
Proof.
  intros Htrim.
  assert (Hstart : JsString.trimStart s = s).
  { destruct s as [| a s]; [done |]. simpl in *.
    unfold JsString.trim in Htrim. simpl in Htrim.
    destruct (JsString.is_whitespace a); [| done].
    pose proof (trimEnd_length (JsString.trimStart s)) as H1.
    pose proof (trimStart_length s) as H2.
    rewrite Htrim in H1. simpl in H1. lia. }
  unfold JsString.trim in Htrim. rewrite Hstart in Htrim.
  split.
  - intros a rest ->. simpl in Hstart.
    destruct (JsString.is_whitespace a); [| done].
    pose proof (trimStart_length rest) as H. rewrite Hstart in H.
    simpl in H. lia.
  - intros a rest ->. destruct (JsString.is_whitespace a) eqn:Ha; [| done].
    rewrite trimEnd_snoc in Htrim by done.
    pose proof (trimEnd_length rest) as H. rewrite Htrim in H.
    rewrite length_append in H. simpl in H. lia.
Qed.

Lemma isValid_result es : isValid (result es) = true ↔ es = [].
Proof. destruct es; simpl; split; done. Qed.

Lemma validateNonEmptyText_valid text field :
  isValid (validateNonEmptyText text field) = true ↔
  ∃ s, text = Js.VString s ∧ s ≠ "" ∧ JsString.trim s = s.
Proof.
  unfold validateNonEmptyText. rewrite isValid_result.
  destruct text as [| | b | n | s |]; simpl;
    try (split; [done | by intros (? & ? & _)]).
  - rewrite orb_true_r. split; [done | by intros (? & ? & _)].
  - rewrite orb_true_r. split; [done | by intros (? & ? & _)].
  - case_bool_decide as Hs; simpl.
    { split; [done | intros (s' & [= <-] & Hne & _); done]. }
    destruct (String.eqb_spec (JsString.trim s) "") as [He | He].
    { split; [done |]. intros (s' & [= <-] & _ & Ht). congruence. }
    destruct (String.eqb_spec s (JsString.trim s)) as [Ht | Ht]; simpl.
    + split; [| done]. intros _. by exists s.
    + split; [done |]. intros (s' & [= <-] & _ & Ht'). congruence.
Qed.

(** X23. [validateNonEmptyText] accepts a value exactly when it is a
    non-empty string that [trim] leaves unchanged; it reports one error for
    every other value and none for an accepted one. In particular it rejects
    undefined, null, numbers, the empty string, strings of white space only
    and strings that start or end with white space. *)
Theorem text_is_valid_when_trimmed (text : Js.Value) (fieldName : string) :
  let r := validateNonEmptyText text fieldName in
  (isValid r = true ↔ ∃ s, text = Js.VString s ∧ s ≠ "" ∧ JsString.trim s = s)
  ∧ (isValid r = true → errors r = [])
  ∧ (isValid r = false → List.length (errors r) = 1%nat)
  ∧ (∀ s, text = Js.VString s → only_whitespace s = true → isValid r = false)
  ∧ (∀ s a rest, text = Js.VString s → JsString.is_whitespace a = true →
       s = String a rest ∨ s = rest +:+ String a "" → isValid r = false)
  ∧ (Js.typeof text ≠ "string" → isValid r = false).
Proof.
  cbv zeta. split; [apply validateNonEmptyText_valid |].
  split; [by intros ?%isValid_result |]. split.
  - unfold validateNonEmptyText.
    destruct (_ || _); [done |]. destruct text; try done.
    destruct (_ =? _)%string; [done |]. by destruct (negb _).
  - split; [| split].
    + intros s -> Hws. apply not_true_iff_false.
      intros (s' & [= <-] & Hne & Ht)%validateNonEmptyText_valid.
      unfold JsString.trim in Ht. rewrite trimStart_whitespace in Ht by done.
      by simpl in Ht.
    + intros s a rest -> Ha Hs. apply not_true_iff_false.
      intros (s' & [= <-] & Hne & Ht)%validateNonEmptyText_valid.
      destruct (trim_fixed s Ht) as [H1 H2].
      destruct Hs as [-> | ->]; [rewrite (H1 a rest) in Ha | rewrite (H2 a rest) in Ha];
        done.
    + intros Hty. apply not_true_iff_false.
      by intros (s' & -> & _)%validateNonEmptyText_valid.
Qed.

Lemma text_is_valid_when_trimmed_witness :
  isValid (validateNonEmptyText (Js.VString "  What is 2+2?") "Question") = false.
Proof.
  destruct (text_is_valid_when_trimmed (Js.VString "  What is 2+2?") "Question")
    as (_ & _ & _ & _ & H & _).
  apply (H "  What is 2+2?" Ascii.Space " What is 2+2?");
    [reflexivity | reflexivity | by left].
Defined.

Lemma text_errors_nil text field :
  ModelValidation.text_errors text field = [] ↔ text ≠ "" ∧ JsString.trim text = text.
Proof.
  unfold ModelValidation.text_errors.
  destruct (String.eqb_spec text "") as [-> | Hne]; [by split; [| intros [? _]] |].
  destruct (String.eqb_spec (JsString.trim text) "") as [He | He].
  { split; [done |]. intros [_ Ht]. congruence. }
  destruct (String.eqb_spec text (JsString.trim text)) as [Ht | Ht]; simpl.
  - by split.
  - split; [done |]. intros [_ Ht']. congruence.
Qed.

Lemma text_errors_service (text field : string) :
  errors (validateNonEmptyText (Js.VString text) field)
  = ModelValidation.text_errors text field.
Proof.
  unfold validateNonEmptyText, ModelValidation.text_errors. simpl.
  rewrite orb_false_r.
  destruct (String.eqb_spec text "") as [-> | Hne].
  - by rewrite bool_decide_eq_true_2.
  - by rewrite bool_decide_eq_false_2.
Qed.

Lemma trim_whitespace s : only_whitespace s = true → JsString.trim s = "".
Proof. intros H. unfold JsString.trim. by rewrite trimStart_whitespace. Qed.

Lemma failed_errors es :
  (if negb (isValid (result es)) then errors (result es) else []) = es.
Proof. by destruct es. Qed.

Lemma is_string_eq s v : is_string s v = true ↔ v = Js.VString s.
Proof.
  destruct v; simpl; try (split; done).
  rewrite String.eqb_eq. split; [by intros -> | by intros [= ->]].
Qed.

Lemma deck_id_valid (v : Js.Value) (decks : list Deck.t) :
  (if Js.not v || negb (String.eqb (Js.typeof v) "string")
   then ["Deck ID is required and must be a string"]
   else
     match v with
     | Js.VString s =>
         if String.eqb (JsString.trim s) ""
         then ["Deck ID cannot be empty or only whitespace"]
         else if (0 <? List.length decks)%nat
         then
           if existsb (λ deck, is_string (Deck.id deck) v) decks
           then []
           else ["Deck ID must reference an existing deck"]
         else []
     | _ => []
     end) = []
  ↔ ∃ d, v = Js.VString d ∧ JsString.trim d ≠ ""
         ∧ (decks = [] ∨ ∃ deck, deck ∈ decks ∧ Deck.id deck = d).
Proof.
  destruct v as [| | b | n | d |]; simpl;
    try (split; [done | by intros (? & ? & _)]);
    rewrite ?orb_true_r; try (split; [done | by intros (? & ? & _)]).
  case_bool_decide as Hd; simpl.
  { subst d. split; [done |]. by intros (d & [= <-] & Ht & _). }
  destruct (String.eqb_spec (JsString.trim d) "") as [He | He].
  { split; [done |]. intros (d' & [= <-] & Ht & _). congruence. }
  destruct (Nat.ltb_spec 0 (List.length decks)) as [Hlen | Hlen].
  - destruct (existsb _ decks) eqn:Hex.
    + split; [| done]. intros _. exists d. split; [done |]. split; [done |].
      right. apply existsb_exists in Hex as (deck & Hin & Hid).
      exists deck. split; [by apply list_elem_of_In |].
      by apply String.eqb_eq in Hid.
    + split; [done |].
      intros (d' & [= <-] & _ & [-> | (deck & Hin & Hid)]); [simpl in Hlen; lia |].
      exfalso. apply not_true_iff_false in Hex. apply Hex.
      apply existsb_exists. exists deck. split; [by apply list_elem_of_In |].
      simpl. by apply String.eqb_eq.
  - split; [| done]. intros _. exists d. split; [done |]. split; [done |].
    left. destruct decks; [done | simpl in Hlen; lia].
Qed.

Lemma validateFlashcard_valid data decks :
  isValid (validateFlashcard data decks) = true ↔
  isValid (validateNonEmptyText (question data) "Question") = true
  ∧ isValid (validateNonEmptyText (answer data) "Answer") = true
  ∧ ∃ d, deckId data = Js.VString d ∧ JsString.trim d ≠ ""
         ∧ (decks = [] ∨ ∃ deck, deck ∈ decks ∧ Deck.id deck = d).
Proof.
  unfold validateFlashcard. rewrite isValid_result.
  unfold validateNonEmptyText at 1 2 3 4. rewrite !failed_errors.
  rewrite !app_nil, deck_id_valid.
  unfold validateNonEmptyText. by rewrite !isValid_result.
Qed.

(** X24. [validate()] of a flashcard accepts it exactly when question and
    answer are non-empty and unchanged by [trim] and the deck id is not
    empty; it rejects every flashcard whose question or answer is empty or
    white space only, with at most three errors. Data that
    [ValidationService.validateFlashcard] accepts make a flashcard that its
    own [validate()] accepts, whatever decks exist. *)
Theorem flashcard_validate_accepts (c : Flashcard.t) :
  let r := ModelValidation.validateFlashcard c in
  (isValid r = true ↔
     Flashcard.question c ≠ "" ∧ JsString.trim (Flashcard.question c) = Flashcard.question c
     ∧ Flashcard.answer c ≠ "" ∧ JsString.trim (Flashcard.answer c) = Flashcard.answer c
     ∧ Flashcard.deckId c ≠ "")
  ∧ (only_whitespace (Flashcard.question c) = true
     ∨ only_whitespace (Flashcard.answer c) = true → isValid r = false)
  ∧ (List.length (errors r) ≤ 3)%nat
  ∧ (∀ decks,
       isValid (validateFlashcard
                  (mkFlashcardData (Js.VString (Flashcard.question c))
                     (Js.VString (Flashcard.answer c))
                     (Js.VString (Flashcard.deckId c))) decks) = true →
       isValid r = true).
Proof.
  cbv zeta.
  assert (Hiff : isValid (ModelValidation.validateFlashcard c) = true ↔
     Flashcard.question c ≠ "" ∧ JsString.trim (Flashcard.question c) = Flashcard.question c
     ∧ Flashcard.answer c ≠ "" ∧ JsString.trim (Flashcard.answer c) = Flashcard.answer c
     ∧ Flashcard.deckId c ≠ "").
  { unfold ModelValidation.validateFlashcard. rewrite isValid_result.
    rewrite !app_nil. rewrite !text_errors_nil.
    destruct (String.eqb_spec (Flashcard.deckId c) ""); naive_solver. }
  split; [exact Hiff |]. split; [| split].
  - intros Hws. apply not_true_iff_false. intros (Hq & Htq & Ha & Hta & _)%Hiff.
    destruct Hws as [Hws | Hws]; apply trim_whitespace in Hws; congruence.
  - unfold ModelValidation.validateFlashcard, ModelValidation.text_errors. simpl.
    rewrite !length_app.
    repeat (destruct (_ =? _)%string; simpl); lia.
  - intros decks (Hq & Ha & d & [= <-] & Hd & _)%validateFlashcard_valid.
    apply Hiff.
    apply validateNonEmptyText_valid in Hq as (q & [= <-] & ? & ?).
    apply validateNonEmptyText_valid in Ha as (a & [= <-] & ? & ?).
    repeat split; try done. intros Hd'. by rewrite Hd' in Hd.
Qed.

Lemma flashcard_validate_accepts_witness :
  isValid (ModelValidation.validateFlashcard
             (Flashcard.mk "id-1" "   " "Valid answer" "deck-1" 0 0)) = false.
Proof.
  destruct (flashcard_validate_accepts
              (Flashcard.mk "id-1" "   " "Valid answer" "deck-1" 0 0))
    as (_ & H & _).
  apply H. by left.
Defined.

(** X25. [ValidationService.validateFlashcard] accepts the data exactly when
    question and answer pass [validateNonEmptyText], the deck id is a string
    with some code unit that is not white space, and either no deck exists
    or a deck with this id exists; with no deck in the store every such id
    is accepted. Each failing field adds one error, so there are at most
    three. *)
Theorem flashcard_data_is_valid_when
    (data : FlashcardData) (decks : list Deck.t) :
  let r := validateFlashcard data decks in
  (isValid r = true ↔
     isValid (validateNonEmptyText (question data) "Question") = true
     ∧ isValid (validateNonEmptyText (answer data) "Answer") = true
     ∧ ∃ d, deckId data = Js.VString d ∧ JsString.trim d ≠ ""
            ∧ (decks = [] ∨ ∃ deck, deck ∈ decks ∧ Deck.id deck = d))
  ∧ (isValid r = true ↔ errors r = [])
  ∧ (List.length (errors r) ≤ 3)%nat
  ∧ (isValid (validateNonEmptyText (question data) "Question") = false
     ∨ isValid (validateNonEmptyText (answer data) "Answer") = false →
     isValid r = false).
Proof.
  cbv zeta. split; [apply validateFlashcard_valid |].
  split; [apply isValid_result |]. split.
  - unfold validateFlashcard. unfold validateNonEmptyText at 1 2 3 4.
    rewrite !failed_errors. simpl. rewrite !length_app.
    assert (Hone : ∀ v f,
      (List.length
         (if Js.not v || negb (String.eqb (Js.typeof v) "string")
          then [f +:+ " is required and must be a string"]
          else match v with
               | Js.VString s =>
                   if String.eqb (JsString.trim s) ""
                   then [f +:+ " cannot be empty or only whitespace"]
                   else if negb (String.eqb s (JsString.trim s))
                   then [f +:+ " should not have leading or trailing whitespace"]
                   else []
               | _ => []
               end) ≤ 1)%nat).
    { intros v f. destruct v as [| | b | n | t |]; simpl; rewrite ?orb_true_r;
        simpl; try lia.
      repeat match goal with
             | |- context [if ?b then _ else _] => destruct b; simpl
             end; lia. }
    pose proof (Hone (question data) "Question") as H1.
    pose proof (Hone (answer data) "Answer") as H2.
    assert (H3 : (List.length
      (if Js.not (deckId data) || negb (String.eqb (Js.typeof (deckId data)) "string")
       then ["Deck ID is required and must be a string"]
       else match deckId data with
            | Js.VString s =>
                if String.eqb (JsString.trim s) ""
                then ["Deck ID cannot be empty or only whitespace"]
                else if (0 <? List.length decks)%nat
                then if existsb (λ deck, is_string (Deck.id deck) (deckId data)) decks
                     then [] else ["Deck ID must reference an existing deck"]
                else []
            | _ => []
            end) ≤ 1)%nat).
    { destruct (deckId data) as [| | b | n | d |]; simpl; rewrite ?orb_true_r;
        simpl; try lia.
      repeat match goal with
             | |- context [if ?b then _ else _] => destruct b; simpl
             end; lia. }
    lia.
  - intros Hbad. apply not_true_iff_false.
    intros (Hq & Ha & _)%validateFlashcard_valid.
    destruct Hbad; congruence.
Qed.

Lemma flashcard_data_is_valid_when_witness :
  isValid (validateFlashcard
             (mkFlashcardData Js.VNull (Js.VString "4") (Js.VString "deck-1")) [])
  = false.
Proof.
  destruct (flashcard_data_is_valid_when
              (mkFlashcardData Js.VNull (Js.VString "4") (Js.VString "deck-1")) [])
    as (_ & _ & _ & H).
  apply H. by left.
Defined.

Lemma flashcard_data_invalid data decks :
  isValid (validateNonEmptyText (question data) "Question") = false
  ∨ isValid (validateNonEmptyText (answer data) "Answer") = false →
  isValid (validateFlashcard data decks) = false
  ∧ errors (validateFlashcard data decks) ≠ [].
Proof.
  intros Hbad.
  assert (Hinv : isValid (validateFlashcard data decks) = false).
  { apply not_true_iff_false. intros (Hq & Ha & _)%validateFlashcard_valid.
    destruct Hbad; congruence. }
  split; [done |]. intros Hnil.
  assert (isValid (validateFlashcard data decks) = true); [| congruence].
  unfold validateFlashcard in *. apply isValid_result. by simpl in Hnil.
Qed.

End Validation.

(** * The managers of flashcards and decks *)

Section Managers.

Import StudyManager (Result, Success, Failure, success).

Lemma loadFlashcard_ext w st1 st2 v :
  Store.available st1 = Store.available st2 →
  Store.flashcards st1 = Store.flashcards st2 →
  Store.loadFlashcard w st1 v = Store.loadFlashcard w st2 v.
Proof.
  intros Ha Hf. unfold Store.loadFlashcard, Store.isStorageAvailable,
    LocalStore.loadAllFlashcards, Store.storage. simpl. by rewrite Ha, Hf.
Qed.

Lemma loadFlashcardsForDeck_ext w st1 st2 v :
  Store.available st1 = Store.available st2 →
  Store.flashcards st1 = Store.flashcards st2 →
  LocalStore.loadFlashcardsForDeck w (Store.storage st1) v
  = LocalStore.loadFlashcardsForDeck w (Store.storage st2) v.
Proof.
  intros Ha Hf. unfold LocalStore.loadFlashcardsForDeck,
    LocalStore.loadAllFlashcards, Store.storage. simpl. by rewrite Ha, Hf.
Qed.

Lemma loadDeck_ext w st1 st2 v :
  Store.available st1 = Store.available st2 →
  Store.decks st1 = Store.decks st2 →
  LocalStore.loadDeck w (Store.storage st1) v
  = LocalStore.loadDeck w (Store.storage st2) v.
Proof.
  intros Ha Hd. unfold LocalStore.loadDeck, LocalStore.loadAllDecksData,
    Store.storage. simpl. by rewrite Ha, Hd.
Qed.

Lemma saveFlashcard_spec now c st :
  Store.available st = true → Flashcard.id c ≠ "" →
  ∃ st',
    Store.saveFlashcard now c st = Return st'
    ∧ Store.available st' = true
    ∧ Store.decks st' = Store.decks st
    ∧ ∀ w v, Store.loadFlashcard w st' v
             = if bool_decide (v = Js.VString (Flashcard.id c)) then Some c
               else Store.loadFlashcard w st v.
Proof.
  intros Ha Hid. unfold Store.saveFlashcard, Store.isStorageAvailable.
  rewrite Ha. simpl. eexists. split; [done |].
  unfold Store.updateMetadata, Store.isStorageAvailable. simpl. rewrite Ha.
  split; [done |]. split; [done |]. intros w v.
  unfold Store.loadFlashcard, Store.isStorageAvailable. simpl. rewrite Ha.
  unfold LocalStore.loadAllFlashcards at 1. simpl.
  rewrite (find_after_save Flashcard.j_id (Flashcard.id c)) by done.
  case_bool_decide; [by rewrite flashcard_fromJSON_toJSON | done].
Qed.

Lemma saveDeck_spec now d st :
  Store.available st = true → Deck.id d ≠ "" →
  ∃ st',
    Store.saveDeck now d st = Return st'
    ∧ Store.available st' = true
    ∧ Store.flashcards st' = Store.flashcards st
    ∧ ∀ w v, LocalStore.loadDeck w (Store.storage st') v
             = if bool_decide (v = Js.VString (Deck.id d)) then Some d
               else LocalStore.loadDeck w (Store.storage st) v.
Proof.
  intros Ha Hid. unfold Store.saveDeck, Store.isStorageAvailable.
  rewrite Ha. simpl. eexists. split; [done |].
  unfold Store.updateMetadata, Store.isStorageAvailable. simpl. rewrite Ha.
  split; [done |]. split; [done |]. intros w v.
  unfold LocalStore.loadDeck. simpl. rewrite Ha.
  unfold LocalStore.loadAllDecksData at 1. simpl.
  rewrite (find_after_save Deck.j_id (Deck.id d)) by done.
  case_bool_decide; [by rewrite deck_fromJSON_toJSON | done].
Qed.

Lemma deleteFlashcard_spec now id st :
  Store.available st = true →
  ∃ st',
    Store.deleteFlashcard now id st = Return st'
    ∧ Store.available st' = true
    ∧ Store.decks st' = Store.decks st
    ∧ LocalStore.loadAllFlashcards (Store.storage st')
      = List.filter (λ f, negb (field_is (Flashcard.j_id f) id))
          (LocalStore.loadAllFlashcards (Store.storage st))
    ∧ ∀ w v, Store.loadFlashcard w st' v
             = if bool_decide (v = id) then None
               else Store.loadFlashcard w st v.
Proof.
  intros Ha. unfold Store.deleteFlashcard, Store.isStorageAvailable.
  rewrite Ha. simpl. eexists. split; [done |].
  unfold Store.updateMetadata, Store.isStorageAvailable. simpl. rewrite Ha.
  split; [done |]. split; [done |]. split; [done |]. intros w v.
  unfold Store.loadFlashcard, Store.isStorageAvailable. simpl. rewrite Ha.
  unfold LocalStore.loadAllFlashcards at 1. simpl.
  rewrite (find_after_delete Flashcard.j_id).
  by case_bool_decide.
Qed.

Lemma deleteDeck_spec now id st :
  Store.available st = true →
  ∃ st',
    Store.deleteDeck now id st = Return st'
    ∧ Store.available st' = true
    ∧ Store.flashcards st' = Store.flashcards st
    ∧ ∀ w v, LocalStore.loadDeck w (Store.storage st') v
             = if bool_decide (v = id) then None
               else LocalStore.loadDeck w (Store.storage st) v.
Proof.
  intros Ha. unfold Store.deleteDeck, Store.isStorageAvailable.
  rewrite Ha. simpl. eexists. split; [done |].
  unfold Store.updateMetadata, Store.isStorageAvailable. simpl. rewrite Ha.
  split; [done |]. split; [done |]. intros w v.
  unfold LocalStore.loadDeck. simpl. rewrite Ha.
  unfold LocalStore.loadAllDecksData at 1. simpl.
  rewrite (find_after_delete Deck.j_id).
  by case_bool_decide.
Qed.

(** A deck that [loadDeck] answers for a non-empty string carries that id. *)
Lemma loadDeck_id w st d deck :
  d ≠ "" → LocalStore.loadDeck w st (Js.VString d) = Some deck →
  Deck.id deck = d.
Proof.
  intros Hd. unfold LocalStore.loadDeck.
  destruct (LocalStore.available st); [| done].
  destruct (find _ _) as [data |] eqn:Hfind; [| done].
  intros [= <-]. apply find_some in Hfind as [_ Hid%field_is_string].
  simpl. rewrite Hid. unfold Flashcard.or_else. by rewrite decide_False.
Qed.

Lemma saveFlashcard_throws now c st message :
  Store.saveFlashcard now c st = Throw message → Store.available st = false.
Proof.
  unfold Store.saveFlashcard, Store.isStorageAvailable.
  by destruct (Store.available st).
Qed.

Lemma saveDeck_throws now d st message :
  Store.saveDeck now d st = Throw message → Store.available st = false.
Proof.
  unfold Store.saveDeck, Store.isStorageAvailable.
  by destruct (Store.available st).
Qed.

Lemma saveFlashcard_available now c st st' :
  Store.saveFlashcard now c st = Return st' →
  Store.available st = true ∧ Store.available st' = true.
Proof.
  unfold Store.saveFlashcard, Store.updateMetadata, Store.isStorageAvailable.
  destruct (Store.available st) eqn:Ha; [| done]. simpl. rewrite Ha.
  by intros [= <-].
Qed.

(** X26. [createFlashcard] of the flashcard manager leaves the store as it
    was whenever it fails. It fails, with the errors of the validation,
    whenever the question or the answer is not a non-empty trimmed string:
    empty, white space only, padded with white space, null, undefined or not
    a string. *)
Theorem rejected_flashcard_changes_nothing
    (r : FlashcardManager.CreateReadings)
    (data : ValidationService.FlashcardData) (st : Store.t) :
  let out := FlashcardManager.createFlashcard r data st in
  (success out.2 = false → out.1 = st)
  ∧ (ValidationService.isValid
       (ValidationService.validateNonEmptyText
          (ValidationService.question data) "Question") = false
     ∨ ValidationService.isValid
         (ValidationService.validateNonEmptyText
            (ValidationService.answer data) "Answer") = false →
     out = (st, Failure
                  (ValidationService.errors
                     (ValidationService.validateFlashcard data
                        (Store.loadAllDecks (FlashcardManager.c_decks r) st))))
     ∧ ValidationService.errors
         (ValidationService.validateFlashcard data
            (Store.loadAllDecks (FlashcardManager.c_decks r) st)) ≠ []).
Proof.
  cbv zeta. split.
  - unfold FlashcardManager.createFlashcard.
    destruct (negb _); [done |].
    destruct (Store.saveFlashcard _ _ st) as [st1 | msg] eqn:Hsave; [| done].
    apply saveFlashcard_available in Hsave as [_ Ha1].
    destruct (LocalStore.loadDeck _ _ _) as [deck |]; [| done].
    destruct (Store.saveDeck _ _ st1) as [st2 | msg] eqn:Hdeck; [done |].
    apply saveDeck_throws in Hdeck. congruence.
  - intros Hbad.
    destruct (flashcard_data_invalid data
                (Store.loadAllDecks (FlashcardManager.c_decks r) st) Hbad)
      as [Hinv Hne].
    unfold FlashcardManager.createFlashcard. by rewrite Hinv.
Qed.

Lemma rejected_flashcard_changes_nothing_witness :
  (FlashcardManager.createFlashcard
     sample_create
     (ValidationService.mkFlashcardData (Js.VString "   ")
        (Js.VString "Valid answer") (Js.VString "deck-1"))
     sample_store).1
  = sample_store.
Proof.
  destruct (rejected_flashcard_changes_nothing
              sample_create
              (ValidationService.mkFlashcardData (Js.VString "   ")
                 (Js.VString "Valid answer") (Js.VString "deck-1"))
              sample_store) as [_ H].
  destruct H as [-> _]; [by left | done].
Defined.

(** X27. When [createFlashcard] succeeds with a non-empty generated id, the
    new flashcard has that id and the question, answer and deck id that were
    passed, unchanged; it passes its own [validate()]; [loadFlashcard]
    answers it; and when a deck of its deck id is stored, [loadDeck] answers
    that deck with the id of the flashcard in its list. *)
Theorem created_flashcard_is_stored
    (r : FlashcardManager.CreateReadings)
    (data : ValidationService.FlashcardData) (st st' : Store.t)
    (c : Flashcard.t) :
  FlashcardManager.createFlashcard r data st = (st', Success c) →
  FlashcardManager.c_id r ≠ "" →
  Flashcard.id c = FlashcardManager.c_id r
  ∧ ValidationService.question data = Js.VString (Flashcard.question c)
  ∧ ValidationService.answer data = Js.VString (Flashcard.answer c)
  ∧ ValidationService.deckId data = Js.VString (Flashcard.deckId c)
  ∧ ValidationService.isValid (ModelValidation.validateFlashcard c) = true
  ∧ (∀ w, Store.loadFlashcard w st' (Js.VString (Flashcard.id c)) = Some c)
  ∧ (∀ deck,
       LocalStore.loadDeck (FlashcardManager.c_deck r) (Store.storage st)
         (Js.VString (Flashcard.deckId c)) = Some deck →
       ∀ w, ∃ deck',
         LocalStore.loadDeck w (Store.storage st')
           (Js.VString (Flashcard.deckId c)) = Some deck'
         ∧ Flashcard.id c ∈ Deck.flashcardIds deck'
         ∧ Deck.name deck' = Deck.name deck).
Proof.
  unfold FlashcardManager.createFlashcard.
  destruct (ValidationService.isValid _) eqn:Hvalid; [| done]. simpl.
  apply validateFlashcard_valid in Hvalid as (Hq & Ha & d & Hd & Htd & _).
  apply validateNonEmptyText_valid in Hq as (q & Hq & Hqne & Hqt).
  apply validateNonEmptyText_valid in Ha as (a & Ha & Hane & Hat).
  rewrite Hq, Ha, Hd. simpl. rewrite Hqt, Hat.
  assert (Hdne : d ≠ "") by (by intros ->).
  intros Hrun Hid.
  destruct (Store.saveFlashcard _ _ st) as [st1 | msg] eqn:Hsave; [| done].
  pose proof (saveFlashcard_available _ _ _ _ Hsave) as [Hav _].
  destruct (saveFlashcard_spec (FlashcardManager.c_saved r)
              (Flashcard.mk (FlashcardManager.c_id r) q a d
                 (FlashcardManager.c_createdAt r) (FlashcardManager.c_updatedAt r))
              st Hav Hid) as (st1' & Hsave' & Hav1 & Hdecks1 & Hload1).
  rewrite Hsave in Hsave'. injection Hsave' as <-.
  assert (Hvalid : ValidationService.isValid
            (ModelValidation.validateFlashcard
               (Flashcard.mk (FlashcardManager.c_id r) q a d
                  (FlashcardManager.c_createdAt r)
                  (FlashcardManager.c_updatedAt r))) = true).
  { unfold ModelValidation.validateFlashcard. apply isValid_result. simpl.
    rewrite (proj2 (text_errors_nil q "Question")) by done.
    rewrite (proj2 (text_errors_nil a "Answer")) by done.
    by destruct (String.eqb_spec d ""). }
  destruct (LocalStore.loadDeck (FlashcardManager.c_deck r) (Store.storage st1)
              (Js.VString d)) as [deck |] eqn:Hdeck.
  - pose proof (loadDeck_id _ _ _ _ Hdne Hdeck) as Hdid.
    destruct (saveDeck_spec (FlashcardManager.c_deckSaved r)
                (DeckMethods.addFlashcard (FlashcardManager.c_added r)
                   (FlashcardManager.c_id r) deck) st1 Hav1)
      as (st2 & Hsave2 & Hav2 & Hcards2 & Hload2).
    { unfold DeckMethods.addFlashcard. case_bool_decide; simpl; congruence. }
    simpl in Hrun. rewrite Hsave2 in Hrun. injection Hrun as <- <-. simpl.
    repeat (split; [done |]). split.
    + intros w. rewrite (loadFlashcard_ext w st2 st1) by congruence.
      by rewrite Hload1, bool_decide_eq_true_2.
    + intros deck0 Hdeck0 w. eexists. rewrite Hload2.
      assert (Hsame : Deck.id (DeckMethods.addFlashcard (FlashcardManager.c_added r)
                         (FlashcardManager.c_id r) deck) = d).
      { unfold DeckMethods.addFlashcard. by case_bool_decide. }
      rewrite Hsame, bool_decide_eq_true_2 by done. split; [done |].
      rewrite (loadDeck_ext _ st1 st) in Hdeck by congruence.
      rewrite Hdeck0 in Hdeck. injection Hdeck as ->.
      split; [apply deck_lists_added |].
      unfold DeckMethods.addFlashcard. by case_bool_decide.
  - injection Hrun as <- <-. simpl. repeat (split; [done |]). split.
    + intros w. by rewrite Hload1, bool_decide_eq_true_2.
    + intros deck0 Hdeck0.
      rewrite (loadDeck_ext _ st1 st) in Hdeck by congruence. congruence.
Qed.

Lemma created_flashcard_is_stored_witness :
  ∃ st' c,
    FlashcardManager.createFlashcard sample_create
      (ValidationService.mkFlashcardData (Js.VString "What is 2+2?")
         (Js.VString "4") (Js.VString "deck-1")) sample_store
    = (st', Success c)
    ∧ Store.loadFlashcard sample_world st' (Js.VString (Flashcard.id c)) = Some c.
Proof.
  eexists _, _. split; [reflexivity |].
  by eapply (created_flashcard_is_stored sample_create
               (ValidationService.mkFlashcardData (Js.VString "What is 2+2?")
                  (Js.VString "4") (Js.VString "deck-1")) sample_store).
Defined.

(** X28. [deleteFlashcard] of the flashcard manager refuses an id that is
    not a non-empty string and an id that is not stored, and then leaves the
    store as it was. For a stored flashcard whose deck is stored and lists
    each id once, it succeeds; afterwards [loadFlashcard] answers null for
    this id and as before for every other, and [loadDeck] answers the deck
    without this id in its list. *)
Theorem deleted_flashcard_leaves_its_deck
    (r : FlashcardManager.DeleteReadings) (st : Store.t) :
  (∀ id, Js.not id = true ∨ Js.typeof id ≠ "string" →
     FlashcardManager.deleteFlashcard r id st
     = (st, Failure ["Flashcard ID is required and must be a string"]))
  ∧ (∀ id, id ≠ "" →
     Store.loadFlashcard (FlashcardManager.d_flashcard r) st (Js.VString id) = None →
     FlashcardManager.deleteFlashcard r (Js.VString id) st
     = (st, Failure ["Flashcard not found"]))
  ∧ (∀ id c deck,
     id ≠ "" →
     Store.loadFlashcard (FlashcardManager.d_flashcard r) st (Js.VString id)
     = Some c →
     Flashcard.deckId c ≠ "" →
     LocalStore.loadDeck (FlashcardManager.d_deck r) (Store.storage st)
       (Js.VString (Flashcard.deckId c)) = Some deck →
     NoDup (Deck.flashcardIds deck) →
     ∃ st',
       FlashcardManager.deleteFlashcard r (Js.VString id) st = (st', Success ())
       ∧ (∀ w v, Store.loadFlashcard w st' v
                 = if bool_decide (v = Js.VString id) then None
                   else Store.loadFlashcard w st v)
       ∧ (∀ w, ∃ deck',
            LocalStore.loadDeck w (Store.storage st')
              (Js.VString (Flashcard.deckId c)) = Some deck'
            ∧ (id ∉ Deck.flashcardIds deck')
            ∧ Deck.name deck' = Deck.name deck)).
Proof.
  split; [| split].
  - intros id Hid. unfold FlashcardManager.deleteFlashcard.
    destruct Hid as [-> | Hty]; [done |].
    destruct (String.eqb_spec (Js.typeof id) "string"); [done |].
    by rewrite orb_true_r.
  - intros id Hid Hnone. unfold FlashcardManager.deleteFlashcard. simpl.
    by rewrite bool_decide_eq_false_2, Hnone.
  - intros id c deck Hid Hc Hd Hdeck Hnd.
    assert (Hav : Store.available st = true).
    { unfold Store.loadFlashcard, Store.isStorageAvailable in Hc.
      by destruct (Store.available st). }
    pose proof (loadDeck_id _ _ _ _ Hd Hdeck) as Hdid.
    destruct (saveDeck_spec (FlashcardManager.d_deckSaved r)
                (DeckMethods.removeFlashcard (FlashcardManager.d_removed r) id deck)
                st Hav) as (st1 & Hsave & Hav1 & Hcards1 & Hload1).
    { unfold DeckMethods.removeFlashcard.
      destruct (list_find _ _) as [[? ?] |]; simpl; congruence. }
    destruct (deleteFlashcard_spec (FlashcardManager.d_deleted r) (Js.VString id)
                st1 Hav1) as (st2 & Hdel & Hav2 & Hdecks2 & _ & Hload2).
    exists st2. split; [| split].
    + unfold FlashcardManager.deleteFlashcard. simpl.
      rewrite bool_decide_eq_false_2 by done. simpl.
      by rewrite Hc, Hdeck, Hsave, Hdel.
    + intros w v. rewrite Hload2.
      by rewrite (loadFlashcard_ext w st1 st) by congruence.
    + intros w. eexists.
      rewrite (loadDeck_ext w st2 st1) by congruence. rewrite Hload1.
      assert (Hsame : Deck.id (DeckMethods.removeFlashcard
                         (FlashcardManager.d_removed r) id deck)
                      = Flashcard.deckId c).
      { unfold DeckMethods.removeFlashcard.
        by destruct (list_find _ _) as [[? ?] |]. }
      rewrite Hsame, bool_decide_eq_true_2 by done. split; [done |].
      pose proof (remove_first_gone id (Deck.flashcardIds deck) Hnd) as Hgone.
      unfold DeckMethods.removeFlashcard.
      by destruct (list_find _ _) as [[? ?] |].
Qed.

Lemma deleted_flashcard_leaves_its_deck_witness :
  ∃ st',
    FlashcardManager.deleteFlashcard sample_delete (Js.VString "a") sample_store
    = (st', Success ())
    ∧ Store.loadFlashcard sample_world st' (Js.VString "a") = None.
Proof.
  destruct (deleted_flashcard_leaves_its_deck sample_delete sample_store)
    as (_ & _ & H).
  destruct (H "a" (card "a") (Deck.mk "deck-1" "Deck deck-1" "" ["a"] 0 0))
    as (st' & Hrun & Hload & _);
    [discriminate | reflexivity | discriminate | reflexivity
     | repeat constructor; set_solver |].
  exists st'. split; [exact Hrun |].
  by rewrite Hload, bool_decide_eq_true_2.
Defined.

(** The names of the stored decks do not depend on the readings. *)
Lemma loadAllDecks_names w st :
  Deck.name <$> Store.loadAllDecks w st
  = (λ d, Flashcard.or_else (Deck.j_name d) "")
    <$> LocalStore.loadAllDecksData (Store.storage st).
Proof.
  unfold Store.loadAllDecks. rewrite fmap_imap.
  rewrite <- (imap_const (λ d, Flashcard.or_else (Deck.j_name d) "")).
  by apply imap_ext.
Qed.

Lemma elem_of_insert_inv {A} (l : list A) (i : nat) (x y : A) :
  y ∈ <[i := x]> l → y = x ∨ y ∈ l.
Proof.
  revert i. induction l as [| a l IH]; intros [| i]; simpl; set_solver.
Qed.

Lemma NoDup_insert_fresh {A} (l : list A) (i : nat) (x : A) :
  NoDup l → x ∉ l → NoDup (<[i := x]> l).
Proof.
  revert i. induction l as [| a l IH]; intros [| i] Hnd Hx; simpl; try done.
  - apply NoDup_cons in Hnd as [_ Hnd]. apply NoDup_cons. set_solver.
  - apply NoDup_cons in Hnd as [Ha Hnd]. apply NoDup_cons. split.
    + intros [-> | Hin]%elem_of_insert_inv; set_solver.
    + apply IH; set_solver.
Qed.

Lemma saveDeck_names now d st st' w :
  Store.saveDeck now d st = Return st' →
  Deck.name <$> Store.loadAllDecks w st'
  = match list_find
            (λ x, field_is (Deck.j_id x) (Js.VString (Deck.id d)) = true)
            (LocalStore.loadAllDecksData (Store.storage st)) with
    | Some (i, _) => <[i := Deck.name d]> (Deck.name <$> Store.loadAllDecks w st)
    | None => (Deck.name <$> Store.loadAllDecks w st) ++ [Deck.name d]
    end.
Proof.
  unfold Store.saveDeck, Store.isStorageAvailable.
  destruct (Store.available st) eqn:Ha; [| done]. simpl. intros [= <-].
  rewrite !loadAllDecks_names, storage_after_decks by done.
  unfold LocalStore.loadAllDecksData at 1. simpl.
  assert (Hname : Flashcard.or_else (Deck.j_name (DeckMethods.toJSON d)) ""
                  = Deck.name d).
  { simpl. unfold Flashcard.or_else. by destruct (decide (Deck.name d = "")). }
  destruct (list_find _ _) as [[i x] |].
  - rewrite list_fmap_insert. cbv beta. by rewrite Hname.
  - rewrite fmap_app. cbn [fmap list_fmap]. by rewrite Hname.
Qed.

(** What the validation of a deck's data has checked when it accepts. *)
Lemma validateDeck_valid data decks :
  ValidationService.isValid (ValidationService.validateDeck data decks) = true →
  ∃ n,
    ValidationService.name data = Js.VString n
    ∧ n ≠ "" ∧ JsString.trim n = n
    ∧ (ValidationService.id data = None → ∀ deck, deck ∈ decks → Deck.name deck ≠ n).
Proof.
  unfold ValidationService.validateDeck. rewrite isValid_result.
  intros [H1 _]%app_eq_nil.
  destruct (ValidationService.isValid
              (ValidationService.validateNonEmptyText
                 (ValidationService.name data) "Name")) eqn:Hname;
    cbn [negb] in H1.
  - apply validateNonEmptyText_valid in Hname as (n & Hn & Hne & Htrim).
    exists n. split; [done |]. split; [done |]. split; [done |].
    intros Hid deck Hin Heq.
    unfold ValidationService.validateUniqueDeckName in H1.
    rewrite failed_errors, Hn, Hid in H1.
    assert (Hnot : Js.not (Js.VString n) = false).
    { simpl. by rewrite bool_decide_eq_false_2. }
    rewrite Hnot in H1. simpl in H1.
    destruct (find _ decks) as [dup |] eqn:Hfind; [done |].
    apply list_elem_of_In in Hin.
    pose proof (find_none _ _ Hfind deck Hin) as Hd. cbv beta in Hd.
    by apply String.eqb_neq in Hd.
  - unfold ValidationService.validateNonEmptyText in H1, Hname.
    cbn [ValidationService.errors ValidationService.result] in H1.
    by rewrite H1 in Hname.
Qed.

(** X29. [createDeck] of the deck manager leaves the store as it was when
    it fails, and it fails for data without an id whose name a stored deck
    carries. When it succeeds for data without an id, the new deck carries
    the given name, which is not empty and has no white space at either
    end, it lists no flashcard, [loadDeck] answers it for its id, and the
    names of the stored decks are pairwise distinct if they were before. *)
Theorem created_deck_has_a_new_name
    (r : DeckManager.CreateReadings) (data : ValidationService.DeckData)
    (st : Store.t) :
  (∀ st' errors,
     DeckManager.createDeck r data st = (st', Failure errors) → st' = st)
  ∧ (∀ deck,
     ValidationService.id data = None →
     deck ∈ Store.loadAllDecks (DeckManager.c_decks r) st →
     ValidationService.name data = Js.VString (Deck.name deck) →
     ∃ errors, DeckManager.createDeck r data st = (st, Failure errors))
  ∧ (∀ st' deck,
     DeckManager.createDeck r data st = (st', Success deck) →
     ValidationService.id data = None →
     DeckManager.c_id r ≠ "" →
     ValidationService.name data = Js.VString (Deck.name deck)
     ∧ Deck.name deck ≠ ""
     ∧ JsString.trim (Deck.name deck) = Deck.name deck
     ∧ Deck.flashcardIds deck = []
     ∧ (∀ w, LocalStore.loadDeck w (Store.storage st')
               (Js.VString (Deck.id deck)) = Some deck)
     ∧ (∀ w, NoDup (Deck.name <$> Store.loadAllDecks w st) →
             NoDup (Deck.name <$> Store.loadAllDecks w st'))).
Proof.
  split; [| split].
  - intros st' errors. unfold DeckManager.createDeck.
    destruct (ValidationService.isValid _); simpl; [| congruence].
    destruct (Store.saveDeck _ _ _); congruence.
  - intros deck Hid Hin Hname. unfold DeckManager.createDeck.
    destruct (ValidationService.isValid _) eqn:Hvalid; simpl; [| by eexists].
    apply validateDeck_valid in Hvalid as (n & Hn & _ & _ & Hnew).
    destruct (Hnew Hid deck Hin). congruence.
  - intros st' deck. unfold DeckManager.createDeck.
    destruct (ValidationService.isValid _) eqn:Hvalid; simpl; [| done].
    apply validateDeck_valid in Hvalid as (n & Hn & Hne & Htrim & Hnew).
    destruct (Store.saveDeck _ _ _) as [st1 |] eqn:Hsave; [| done].
    intros [= <- <-] Hid Hfresh. simpl. rewrite Hn. simpl. rewrite Htrim.
    split; [done |]. split; [done |]. split; [done |]. split; [done |].
    assert (Hav : Store.available st = true).
    { unfold Store.saveDeck, Store.isStorageAvailable in Hsave.
      by destruct (Store.available st). }
    split.
    + intros w.
      destruct (saveDeck_spec (DeckManager.c_saved r)
                  (Deck.mk (DeckManager.c_id r) n
                     (DeckManager.description_text
                        (ValidationService.description data))
                     [] (DeckManager.c_createdAt r) (DeckManager.c_updatedAt r))
                  st Hav Hfresh) as (st2 & Hsave2 & _ & _ & Hload).
      rewrite Hn in Hsave. simpl in Hsave. rewrite Htrim in Hsave.
      assert (st2 = st1) as -> by congruence.
      by rewrite Hload, bool_decide_eq_true_2.
    + intros w Hnd. rewrite (saveDeck_names _ _ _ _ w Hsave). simpl.
      rewrite Hn. simpl. rewrite Htrim.
      assert (Hnotin : n ∉ Deck.name <$> Store.loadAllDecks w st).
      { rewrite (loadAllDecks_names w), <- (loadAllDecks_names (DeckManager.c_decks r)).
        intros (deck & -> & Hin)%list_elem_of_fmap. by apply (Hnew Hid deck Hin). }
      destruct (list_find _ _) as [[i x] |].
      * by apply NoDup_insert_fresh.
      * apply NoDup_app. split; [done |]. split; [| apply NoDup_singleton].
        by intros k Hk ->%list_elem_of_singleton.
Qed.

Lemma created_deck_has_a_new_name_witness :
  ∃ st' deck,
    DeckManager.createDeck sample_create_deck
      (ValidationService.mkDeckData (Js.VString "Verbs") Js.VUndefined None)
      sample_store
    = (st', Success deck)
    ∧ Deck.name deck = "Verbs"
    ∧ NoDup (Deck.name <$> Store.loadAllDecks sample_world st').
Proof.
  eexists _, _. split; [reflexivity |]. split; [reflexivity |].
  eapply (created_deck_has_a_new_name sample_create_deck
            (ValidationService.mkDeckData (Js.VString "Verbs") Js.VUndefined None)
            sample_store); [reflexivity | reflexivity | discriminate |].
  simpl. repeat constructor; set_solver.
Defined.

(** The data may carry an id, which the check of the name then leaves out:
    with the id of a stored deck, [createDeck] stores a second deck under
    that deck's name. *)
Example createDeck_with_id_repeats_a_name :
  ∃ st' deck,
    DeckManager.createDeck sample_create_deck
      (ValidationService.mkDeckData (Js.VString "Deck deck-1") Js.VUndefined
         (Some "deck-1"))
      sample_store
    = (st', Success deck)
    ∧ Deck.name <$> Store.loadAllDecks sample_world st'
      = ["Deck deck-1"; "Deck deck-2"; "Deck deck-1"].
Proof. eexists _, _. split; reflexivity. Qed.

Lemma filter_filter_and {A} (p q : A → bool) (l : list A) :
  List.filter p (List.filter q l) = List.filter (λ x, q x && p x) l.
Proof.
  induction l as [| x l IH]; simpl; [done |].
  destruct (q x); simpl; [| done]. destruct (p x); by rewrite IH.
Qed.

Lemma filter_all {A} (l : list A) : List.filter (λ _, true) l = l.
Proof. induction l; simpl; congruence. Qed.

Lemma filter_none {A} (l : list A) : List.filter (λ _, false) l = [].
Proof. by induction l. Qed.

Lemma imap_fmap_on {A B} (P : A → Prop) (F : nat → A → B) (G : A → B)
    (l : list A) :
  Forall P l → (∀ i x, P x → F i x = G x) → imap F l = G <$> l.
Proof.
  revert F. induction l as [| x l IH]; intros F Hl HF; simpl; [done |].
  apply Forall_cons in Hl as [Hx Hl]. rewrite HF by done. f_equal.
  apply IH; [done |]. intros i y. apply HF.
Qed.

Lemma NoDup_fmap_inj {A B} (g : A → B) (l : list A) (x y : A) :
  NoDup (g <$> l) → x ∈ l → y ∈ l → g x = g y → x = y.
Proof.
  induction l as [| a l IH]; simpl; [by intros _ ?%elem_of_nil |].
  intros [Ha Hnd]%NoDup_cons [-> | Hx]%elem_of_cons [-> | Hy]%elem_of_cons Heq;
    [done | | | by apply IH].
  - destruct Ha. rewrite Heq. by apply list_elem_of_fmap_2.
  - destruct Ha. rewrite <- Heq. by apply list_elem_of_fmap_2.
Qed.

Lemma field_is_inj (f : option string) (v v' : Js.Value) :
  field_is f v = true → field_is f v' = true → v = v'.
Proof.
  destruct f, v, v'; simpl; try done.
  intros ?%bool_decide_eq_true ?%bool_decide_eq_true. congruence.
Qed.

(** The loop of [deleteDeck] on an available store never throws; it leaves
    the decks alone and removes every record that carries the id of one of
    the flashcards. *)
Lemma deleteAll_spec clock cs st :
  Store.available st = true →
  ∃ st1,
    DeckManager.deleteAll clock cs st = (st1, None)
    ∧ Store.available st1 = true
    ∧ Store.decks st1 = Store.decks st
    ∧ LocalStore.loadAllFlashcards (Store.storage st1)
      = List.filter
          (λ f, forallb (λ c, negb (field_is (Flashcard.j_id f)
                                      (Js.VString (Flashcard.id c)))) cs)
          (LocalStore.loadAllFlashcards (Store.storage st)).
Proof.
  revert clock st. induction cs as [| c cs IH]; intros clock st Ha; simpl.
  - exists st. by rewrite filter_all.
  - destruct (deleteFlashcard_spec (clock 0%nat)
                (Js.VString (Flashcard.id c)) st Ha)
      as (st1 & Hdel & Ha1 & Hd1 & Hl1 & _).
    rewrite Hdel.
    destruct (IH (λ i, clock (S i)) st1 Ha1) as (st2 & Hrun & Ha2 & Hd2 & Hl2).
    exists st2. split; [done |]. split; [done |]. split; [congruence |].
    rewrite Hl2, Hl1. apply filter_filter_and.
Qed.

(** The records that the loop of [deleteDeck] removes are those of the
    deck, when these carry non-empty ids and no two records share an id. *)
Lemma deck_records_removed w deckId (l : list Flashcard.json) :
  Forall (λ f, field_is (Flashcard.j_deckId f) deckId = true →
               ∃ k, Flashcard.j_id f = Some k ∧ k ≠ "") l →
  NoDup (Flashcard.j_id <$> l) →
  List.filter
    (λ f, forallb (λ c, negb (field_is (Flashcard.j_id f)
                                (Js.VString (Flashcard.id c))))
            (imap (λ i f, Flashcard.fromJSON (LocalStore.generateId w i)
                            (LocalStore.now w) f)
               (List.filter (λ f, field_is (Flashcard.j_deckId f) deckId) l)))
    l
  = List.filter (λ f, negb (field_is (Flashcard.j_deckId f) deckId)) l.
Proof.
  intros Hids Hnd.
  set (cs := imap _ _).
  assert (Hcs : Flashcard.id <$> cs
                = (λ f, default "" (Flashcard.j_id f))
                  <$> List.filter (λ f, field_is (Flashcard.j_deckId f) deckId) l).
  { unfold cs. rewrite fmap_imap.
    apply (imap_fmap_on (λ f, ∃ k, Flashcard.j_id f = Some k ∧ k ≠ "")).
    - apply Forall_forall. intros f [Hf Hd]%list_elem_of_In%filter_In.
      rewrite Forall_forall in Hids. apply Hids; [| done].
      by apply list_elem_of_In.
    - intros i f (k & Hk & Hne). simpl. rewrite Hk. simpl.
      unfold Flashcard.or_else. by rewrite decide_False. }
  apply filter_ext_in. intros f Hf.
  destruct (field_is (Flashcard.j_deckId f) deckId) eqn:Hd; simpl.
  - destruct (forallb _ cs) eqn:Hall; [| done].
    rewrite forallb_forall in Hall.
    rewrite Forall_forall in Hids.
    destruct (Hids f) as (k & Hk & Hne); [by apply list_elem_of_In | done |].
    assert (Hin : k ∈ Flashcard.id <$> cs).
    { rewrite Hcs. apply list_elem_of_fmap. exists f.
      split; [by rewrite Hk |].
      apply list_elem_of_In, filter_In. by split. }
    apply list_elem_of_fmap in Hin as (c & -> & Hc%list_elem_of_In).
    specialize (Hall c Hc). rewrite Hk in Hall. simpl in Hall.
    by rewrite bool_decide_eq_true_2 in Hall.
  - apply forallb_forall. intros c Hc%list_elem_of_In.
    destruct (field_is (Flashcard.j_id f) _) eqn:Hsame; [| done].
    apply field_is_string in Hsame.
    assert (Hin : Flashcard.id c ∈ Flashcard.id <$> cs)
      by by apply list_elem_of_fmap_2.
    rewrite Hcs in Hin.
    apply list_elem_of_fmap in Hin as (f' & Hf' & [Hin Hd']%list_elem_of_In%filter_In).
    rewrite Forall_forall in Hids.
    destruct (Hids f') as (k & Hk & Hne); [by apply list_elem_of_In | done |].
    rewrite Hk in Hf'. simpl in Hf'.
    assert (f = f') as <-.
    { apply (NoDup_fmap_inj Flashcard.j_id l); [done | | | congruence];
        by apply list_elem_of_In. }
    congruence.
Qed.

(** X30. [deleteDeck] of the deck manager answers 'Deck not found' for a
    deck that is not stored. Without the option to delete flashcards it
    refuses a deck that has flashcards, with one message, and deletes a deck
    that has none; when it refuses, the store is as it was. With the option,
    when the records of the deck's flashcards carry non-empty ids and no two
    stored records share an id, it deletes the deck and exactly its
    flashcards and answers how many these were: every other deck and the
    flashcards of every other deck are loaded as before. *)
Theorem deleted_deck_takes_its_cards
    (r : DeckManager.DeleteReadings) (deckId : Js.Value) (st : Store.t) :
  (LocalStore.loadDeck (DeckManager.d_deck r) (Store.storage st) deckId = None →
   ∀ flag, DeckManager.deleteDeck r deckId flag st
           = (st, Failure ["Deck not found"]))
  ∧ (∀ deck,
     LocalStore.loadDeck (DeckManager.d_deck r) (Store.storage st) deckId
     = Some deck →
     LocalStore.loadFlashcardsForDeck (DeckManager.d_flashcards r)
       (Store.storage st) deckId ≠ [] →
     ∃ message,
       DeckManager.deleteDeck r deckId false st = (st, Failure [message]))
  ∧ (∀ deck,
     LocalStore.loadDeck (DeckManager.d_deck r) (Store.storage st) deckId
     = Some deck →
     LocalStore.loadFlashcardsForDeck (DeckManager.d_flashcards r)
       (Store.storage st) deckId = [] →
     ∃ st',
       DeckManager.deleteDeck r deckId false st = (st', Success 0%nat)
       ∧ Store.flashcards st' = Store.flashcards st
       ∧ ∀ w v, LocalStore.loadDeck w (Store.storage st') v
                = if bool_decide (v = deckId) then None
                  else LocalStore.loadDeck w (Store.storage st) v)
  ∧ (∀ deck,
     LocalStore.loadDeck (DeckManager.d_deck r) (Store.storage st) deckId
     = Some deck →
     Forall (λ f, field_is (Flashcard.j_deckId f) deckId = true →
                  ∃ k, Flashcard.j_id f = Some k ∧ k ≠ "")
       (LocalStore.loadAllFlashcards (Store.storage st)) →
     NoDup (Flashcard.j_id <$> LocalStore.loadAllFlashcards (Store.storage st)) →
     ∃ st',
       DeckManager.deleteDeck r deckId true st
       = (st', Success (List.length
                          (LocalStore.loadFlashcardsForDeck
                             (DeckManager.d_flashcards r) (Store.storage st)
                             deckId)))
       ∧ (∀ w v, LocalStore.loadDeck w (Store.storage st') v
                 = if bool_decide (v = deckId) then None
                   else LocalStore.loadDeck w (Store.storage st) v)
       ∧ (∀ w v, LocalStore.loadFlashcardsForDeck w (Store.storage st') v
                 = if bool_decide (v = deckId) then []
                   else LocalStore.loadFlashcardsForDeck w (Store.storage st) v)).
Proof.
  assert (Hav : ∀ deck,
            LocalStore.loadDeck (DeckManager.d_deck r) (Store.storage st) deckId
            = Some deck → Store.available st = true).
  { intros deck. unfold LocalStore.loadDeck. simpl.
    by destruct (Store.available st). }
  split; [| split; [| split]].
  - intros Hnone flag. unfold DeckManager.deleteDeck. by rewrite Hnone.
  - intros deck Hdeck Hcards. unfold DeckManager.deleteDeck. rewrite Hdeck.
    destruct (LocalStore.loadFlashcardsForDeck _ _ _); [done |].
    simpl. by eexists.
  - intros deck Hdeck Hcards. unfold DeckManager.deleteDeck.
    rewrite Hdeck, Hcards. simpl.
    destruct (deleteDeck_spec (DeckManager.d_deleted r) deckId st
                (Hav deck Hdeck)) as (st' & Hdel & _ & Hf & Hload).
    exists st'. by rewrite Hdel.
  - intros deck Hdeck Hids Hnd. unfold DeckManager.deleteDeck. rewrite Hdeck.
    destruct (deleteAll_spec (DeckManager.d_each r)
                (LocalStore.loadFlashcardsForDeck (DeckManager.d_flashcards r)
                   (Store.storage st) deckId) st (Hav deck Hdeck))
      as (st1 & Hrun & Ha1 & Hd1 & Hl1).
    rewrite Hrun.
    destruct (deleteDeck_spec (DeckManager.d_deleted r) deckId st1 Ha1)
      as (st2 & Hdel & Ha2 & Hf2 & Hload2).
    rewrite Hdel. exists st2. split; [done |]. split.
    + intros w v. rewrite Hload2.
      by rewrite (loadDeck_ext w st1 st) by (rewrite ?(Hav deck Hdeck); done).
    + intros w v.
      rewrite (loadFlashcardsForDeck_ext w st2 st1) by congruence.
      unfold LocalStore.loadFlashcardsForDeck at 1. rewrite Hl1.
      unfold LocalStore.loadFlashcardsForDeck at 1.
      rewrite deck_records_removed by done.
      rewrite filter_filter_and.
      case_bool_decide as Hv.
      * subst v.
        rewrite (filter_ext _ (λ _, false)); [| intros f; by destruct (field_is _ _)].
        by rewrite filter_none.
      * unfold LocalStore.loadFlashcardsForDeck. f_equal.
        apply filter_ext. intros f.
        destruct (field_is (Flashcard.j_deckId f) deckId) eqn:Hd; simpl; [| done].
        destruct (field_is (Flashcard.j_deckId f) v) eqn:Hd'; [| done].
        destruct Hv. by apply (field_is_inj (Flashcard.j_deckId f)).
Qed.

Lemma deleted_deck_takes_its_cards_witness :
  ∃ st',
    DeckManager.deleteDeck sample_delete_deck (Js.VString "deck-1") true
      sample_store
    = (st', Success 1%nat)
    ∧ LocalStore.loadFlashcardsForDeck sample_world (Store.storage st')
        (Js.VString "deck-1") = [].
Proof.
  destruct (deleted_deck_takes_its_cards sample_delete_deck
              (Js.VString "deck-1") sample_store) as (_ & _ & _ & H).
  destruct (H (Deck.mk "deck-1" "Deck deck-1" "" ["a"] 0 0))
    as (st' & Hrun & _ & Hcards).
  - reflexivity.
  - repeat constructor; simpl; intros _; by eexists.
  - simpl. repeat constructor; set_solver.
  - exists st'. split; [exact Hrun |].
    by rewrite Hcards, bool_decide_eq_true_2.
Defined.

End Managers.

(** * The cards of a session and the world outside *)

Section Ownership.

Import StudySession.

Lemma fresh_array_differs (a : Heap.loc) (h : Heap.t) :
  is_Some (Heap.arrays h !! a) → fresh (dom (Heap.arrays h)) ≠ a.
Proof.
  intros Ha%elem_of_dom Heq.
  apply (is_fresh (dom (Heap.arrays h))). by rewrite Heq.
Qed.

(** The cards of an array after the update of a card object. *)
Lemma contents_mutate_card (l : Heap.loc) (c : Flashcard.t)
    (cards : gmap Heap.loc Flashcard.t) (elements : list Heap.loc)
    (cs : list Flashcard.t) :
  mapM (λ l', cards !! l') elements = Some cs →
  mapM (λ l', <[l := c]> cards !! l') elements
  = Some (Heap.updated l c elements cs).
Proof.
  revert cs. induction elements as [| l' elements IH]; intros cs; simpl.
  - by intros [= <-].
  - destruct (cards !! l') as [x |] eqn:Hx; simpl; [| done].
    destruct (mapM _ elements) as [k |] eqn:Hk; simpl; [| done].
    intros [= <-]. rewrite (IH k) by done. unfold Heap.updated. simpl.
    destruct (decide (l' = l)) as [-> | Hne].
    + by rewrite lookup_insert_eq.
    + by rewrite lookup_insert_ne, Hx by done.
Qed.

Lemma length_updated l c elements cs :
  List.length elements = List.length cs →
  List.length (Heap.updated l c elements cs) = List.length cs.
Proof.
  intros H. unfold Heap.updated. rewrite length_fmap, length_zip. lia.
Qed.

Lemma lookup_updated l c elements cs (i : nat) l' x :
  elements !! i = Some l' → cs !! i = Some x →
  Heap.updated l c elements cs !! i = Some (if decide (l' = l) then c else x).
Proof.
  intros Hl Hx. unfold Heap.updated.
  rewrite list_lookup_fmap, lookup_zip_with, Hl. simpl. by rewrite Hx.
Qed.

(** C9, as stated, fails: the constructor copies the array and not the card
    objects in it, so the session has no snapshot of the cards. After an
    update of the first card object, [getCurrentFlashcard] answers the
    updated card. *)
Lemma card_objects_are_shared :
  ∃ h' o s s',
    Heap.construct 0 (Js.VString "deck-1") 1%positive sample_heap = Some (h', o)
    ∧ Heap.view h' o = Some s
    ∧ getCurrentFlashcard s = Js.Obj (card "a")
    ∧ Heap.view (Heap.mutate_card 10%positive (card "z") h') o = Some s'
    ∧ getCurrentFlashcard s' = Js.Obj (card "z")
    ∧ flashcards s' = [card "z"; card "b"].
Proof. eexists _, _, _, _. by vm_compute. Qed.

(** C9, amended. The session keeps an array of its own: the constructor
    copies the elements of the array it is given into a fresh array, so that
    changing the given array afterwards in any way leaves the session, at
    any point of its life, with the cards it was built on, and
    [getCurrentFlashcard], [getProgress] and [getSessionSummary] answer as
    before. The card objects are not copied: after an update of a card
    object the session holds the updated card in every place of that
    object, [getCurrentFlashcard] answers it when the cursor is on such a
    place, and [getProgress] and [getSessionSummary], which read no field
    of a card, answer as before. Nor does a session depend on the store: a
    session that the manager started holds the cards the store answered at
    that time, and whatever the store holds later, the manager answers the
    same current card, progress and summary; so it does after
    [deleteFlashcard], when the store has lost the card, and after
    [clearAllData], when the store has no card left. *)
Theorem session_owns_its_cards
    (now : Date) (d : Js.Value) (a : Heap.loc) (h : Heap.t)
    (elements : list Heap.loc) (cs : list Flashcard.t) :
  Heap.arrays h !! a = Some elements →
  Heap.contents h a = Some cs →
  ∃ h' o,
    Heap.construct now d a h = Some (h', o)
    ∧ Heap.o_flashcards o ≠ a
    ∧ Heap.view h' o = Some (new now d cs)
    ∧ (∀ elements' o', Heap.o_flashcards o' = Heap.o_flashcards o →
         let h'' := Heap.mutate_array a elements' h' in
         Heap.view h'' o' = Heap.view h' o'
         ∧ flashcards <$> Heap.view h'' o' = Some cs
         ∧ getCurrentFlashcard <$> Heap.view h'' o'
           = getCurrentFlashcard <$> Heap.view h' o'
         ∧ getProgress <$> Heap.view h'' o' = getProgress <$> Heap.view h' o'
         ∧ ∀ t, getSessionSummary t <$> Heap.view h'' o'
                = getSessionSummary t <$> Heap.view h' o')
    ∧ (∀ l c o', Heap.o_flashcards o' = Heap.o_flashcards o →
         ∃ s s',
           Heap.view h' o' = Some s
           ∧ Heap.view (Heap.mutate_card l c h') o' = Some s'
           ∧ flashcards s = cs
           ∧ flashcards s' = Heap.updated l c elements cs
           ∧ List.length (flashcards s') = List.length cs
           ∧ getProgress s' = getProgress s
           ∧ (∀ t, getSessionSummary t s' = getSessionSummary t s)
           ∧ (∀ i : nat, isComplete s = false → currentIndex s = Js.ofNat i →
                elements !! i = Some l →
                getCurrentFlashcard s' = Js.Obj c)
           ∧ (l ∉ elements → s' = s))
    ∧ (∀ w st t0 deckId m session,
         StudyManager.startStudySession t0 deckId
           (StudyManager.new (Store.service w st))
         = (m, StudyManager.Success session) →
         flashcards session
         = LocalStore.loadFlashcardsForDeck w (Store.storage st) deckId
         ∧ ∃ c rest,
             flashcards session = c :: rest
             ∧ (∀ w' st' t,
                  let m' := with_dataService (Store.service w' st') m in
                  StudyManager.getCurrentFlashcard m' = StudyManager.Success c
                  ∧ StudyManager.getCurrentFlashcard m'
                    = StudyManager.getCurrentFlashcard m
                  ∧ StudyManager.getSessionProgress m'
                    = StudyManager.getSessionProgress m
                  ∧ StudyManager.getSessionSummary t m'
                    = StudyManager.getSessionSummary t m)
             ∧ (∀ t id st',
                  Store.deleteFlashcard t id st = Return st' →
                  (∀ w', Store.loadFlashcard w' st' id = None)
                  ∧ StudyManager.getCurrentFlashcard
                      (with_dataService (Store.service w st') m)
                    = StudyManager.Success c)
             ∧ (∀ t st',
                  Store.clearAllData t st = Return st' →
                  LocalStore.loadFlashcardsForDeck w (Store.storage st') deckId
                  = []
                  ∧ StudyManager.getCurrentFlashcard
                      (with_dataService (Store.service w st') m)
                    = StudyManager.Success c)).
Proof.
  intros Ha Hcs. unfold Heap.contents in Hcs. rewrite Ha in Hcs.
  pose proof (fresh_array_differs a h (mk_is_Some _ _ Ha)) as Hfresh.
  unfold Heap.construct, Heap.spread. rewrite Ha.
  eexists _, _. split; [done |]. simpl.
  assert (Hown : ∀ arr,
    Heap.contents
      (Heap.mk (<[fresh (dom (Heap.arrays h)) := elements]> arr) (Heap.cards h))
      (fresh (dom (Heap.arrays h))) = Some cs).
  { intros arr. unfold Heap.contents. simpl. by rewrite lookup_insert_eq. }
  split; [done |]. split.
  { unfold Heap.view. simpl. by rewrite Hown. }
  split; [| split].
  - intros elements' o' Ho'.
    assert (Hsame : Heap.view
      (Heap.mutate_array a elements'
         (Heap.mk (<[fresh (dom (Heap.arrays h)) := elements]> (Heap.arrays h))
            (Heap.cards h))) o'
      = Heap.view
          (Heap.mk (<[fresh (dom (Heap.arrays h)) := elements]> (Heap.arrays h))
             (Heap.cards h)) o').
    { unfold Heap.view, Heap.mutate_array. rewrite Ho'. simpl.
      rewrite Hown. unfold Heap.contents. simpl.
      rewrite lookup_insert_ne by congruence.
      by rewrite lookup_insert_eq, Hcs. }
    simpl. rewrite Hsame. repeat split.
    unfold Heap.view. rewrite Ho'. simpl. by rewrite Hown.
  - intros l c o' Ho'.
    pose proof (length_mapM _ _ _ Hcs) as Hlen.
    unfold Heap.view. rewrite Ho'. simpl. rewrite Hown.
    unfold Heap.contents, Heap.mutate_card. simpl.
    rewrite lookup_insert_eq, (contents_mutate_card l c _ _ cs Hcs).
    eexists _, _. split; [done |]. split; [done |]. simpl.
    split; [done |]. split; [done |].
    split; [by apply length_updated |].
    split.
    { unfold getProgress, StudySession.length.
      cbn [flashcards]. by rewrite !length_updated by done. }
    split.
    { intros t. unfold getSessionSummary.
      cbn [flashcards]. by rewrite !length_updated by done. }
    split.
    + intros i Hs Hi Hl.
      destruct (lookup_lt_is_Some_2 cs i) as [x Hx].
      { rewrite <- Hlen. by eapply lookup_lt_Some. }
      unfold getCurrentFlashcard, StudySession.length. simpl.
      rewrite Hs, Hi, length_updated, ge_ofNat by done.
      rewrite bool_decide_eq_false_2
        by (apply lookup_lt_Some in Hx; lia).
      simpl. apply array_get_ofNat.
      by rewrite (lookup_updated l c elements cs i l x), decide_True.
    + intros Hl. f_equal. unfold Heap.updated.
      apply list_eq. intros i. rewrite list_lookup_fmap.
      destruct (zip elements cs !! i) as [[l' x] |] eqn:Hz; simpl.
      * apply lookup_zip_with_Some in Hz as (? & ? & [= <- <-] & Hl' & Hx).
        rewrite decide_False; [done |].
        intros ->. apply Hl. by eapply list_elem_of_lookup_2.
      * destruct (cs !! i) as [x |] eqn:Hx; [| done].
        destruct (lookup_lt_is_Some_2 elements i) as [l' Hl'].
        { rewrite Hlen. by eapply lookup_lt_Some. }
        assert (zip elements cs !! i = Some (l', x)) as Hz'
          by (apply lookup_zip_with_Some; by eexists _, _).
        congruence.
  - intros w st t0 deckId m session Hstart.
    unfold StudyManager.startStudySession in Hstart.
    destruct (_ || _); [done |]. simpl in Hstart.
    destruct (LocalStore.loadDeck _ _ _); [| done].
    destruct (LocalStore.loadFlashcardsForDeck w (Store.storage st) deckId)
      as [| c rest] eqn:Hcards; [done |].
    simpl in Hstart. injection Hstart as <- <-. simpl.
    split; [done |]. exists c, rest. split; [done |].
    split; [intros w' st' t; by repeat split |]. split.
    + intros t id st' Hdel. split; [| done].
      assert (Hav : Store.available st = true).
      { unfold Store.deleteFlashcard, Store.isStorageAvailable in Hdel.
        by destruct (Store.available st). }
      destruct (deleteFlashcard_spec t id st Hav) as (st2 & Hst2 & _ & _ & _ & Hload).
      assert (st2 = st') as -> by congruence.
      intros w'. by rewrite Hload, bool_decide_eq_true_2.
    + intros t st' Hclear. split; [| done].
      unfold Store.clearAllData, Store.isStorageAvailable in Hclear.
      destruct (Store.available st); [| done].
      simpl in Hclear. by injection Hclear as <-.
Qed.

Lemma session_owns_its_cards_witness :
  (∃ h' o,
     Heap.construct 0 (Js.VString "deck-1") 1%positive sample_heap
     = Some (h', o)
     ∧ flashcards <$> Heap.view (Heap.mutate_array 1%positive [] h') o
       = Some [card "a"; card "b"])
  ∧ (∃ m st',
       (StudyManager.startStudySession 0 (Js.VString "deck-1")
          (StudyManager.new (Store.service sample_world sample_store))).1 = m
       ∧ Store.clearAllData 9 sample_store = Return st'
       ∧ StudyManager.getCurrentFlashcard
           (with_dataService (Store.service sample_world st') m)
         = StudyManager.Success (card "a")).
Proof.
  destruct (session_owns_its_cards 0 (Js.VString "deck-1") 1%positive
              sample_heap [10%positive; 11%positive] [card "a"; card "b"])
    as (h' & o & Hc & _ & _ & Hm & _ & Hstore); [reflexivity | reflexivity |].
  split.
  - exists h', o. split; [exact Hc |].
    by destruct (Hm [] o eq_refl) as (_ & H & _).
  - destruct (Hstore sample_world sample_store 0 (Js.VString "deck-1") _ _
                eq_refl) as (_ & c & rest & Hcards & _ & _ & Hclear).
    injection Hcards as <- _.
    eexists _, _. split; [reflexivity |]. split; [reflexivity |].
    by destruct (Hclear 9 _ eq_refl) as [_ H].
Defined.

End Ownership.
